(** * CuaOS: the agent core of [gui_main.py] and [gui_mission_control.py]

    A shallow embedding of the coordinate extractor, the history window, the
    viewport mapping, the pointer-event translator, the objective execution
    loop and the screenshot down-scaler, with the properties the
    specification states about them.

    Numbers.  A Python [int] is a [Z].  A Python [float] is a [pyfloat]: a
    finite value carried as an exact rational, or one of the three
    non-finite values.  Binary64 arithmetic is written out wherever the
    code's control flow or an integer result depends on it: a sum overflows
    to an infinity, and a result that is truncated by [int] or compared
    with a constant is first rounded to nearest, ties to even ([round64]).
    Where a float is only passed on as a value (the coordinates of a point)
    it is carried as the exact result.  Every raise of the modelled code is
    part of the model. *)

From Stdlib Require Import QArith Qcanon Qround Qpower Ascii Lqa.
From stdpp Require Import numbers strings list gmap.

Set Warnings "-register-all".
Close Scope Qc_scope.
Close Scope Q_scope.
Set Default Proof Using "Type".

(** * Part I: the code *)

(** ** Exceptions and results *)

Inductive exn :=
| TypeError | ValueError | OverflowError | AttributeError | ZeroDivisionError.

Inductive res (A : Type) :=
| Ok (a : A)
| Raise (e : exn).
Arguments Ok {A} a.
Arguments Raise {A} e.

Definition res_bind {A B} (m : res A) (k : A -> res B) : res B :=
  match m with
  | Ok a => k a
  | Raise e => Raise e
  end.

Notation "x <-! m ; k" := (res_bind m (fun x => k))
  (at level 100, m at next level, right associativity,
   format "'[v' x  <-!  m ; '/' k ']'").

(** ** Floats *)

Inductive pyfloat :=
| Finite (q : Qc)
| NaN
| PosInf
| NegInf.

Definition half : Qc := Q2Qc (1 # 2).
Definition two : Qc := Q2Qc (2 # 1).

(** The bound of the finite floats: a real result rounds to an infinity, and
    [float(z)] on an [int] raises [OverflowError], exactly from
    [2^1024 - 2^970] on in magnitude. *)
Definition float_int_limit : Z := 2 ^ 1024 - 2 ^ 970.

(** A finite result, or the infinity it overflows to. *)
Definition overflow (s : Qc) : pyfloat :=
  if Qle_bool (inject_Z float_int_limit) (this s) then PosInf
  else if Qle_bool (this s) (- inject_Z float_int_limit) then NegInf
  else Finite s.

(** [a + b] on floats. *)
Definition fadd (a b : pyfloat) : pyfloat :=
  match a, b with
  | Finite p, Finite q => overflow (p + q)%Qc
  | NaN, _ | _, NaN => NaN
  | PosInf, NegInf | NegInf, PosInf => NaN
  | PosInf, _ | _, PosInf => PosInf
  | NegInf, _ | _, NegInf => NegInf
  end.

(** [a / 2.0] on floats. *)
Definition fhalve (a : pyfloat) : pyfloat :=
  match a with
  | Finite p => Finite (p / two)%Qc
  | other => other
  end.

(** [(a + b) / 2.0], the midpoint both extractors compute. *)
Definition midpoint (a b : pyfloat) : pyfloat := fhalve (fadd a b).

(** *** Rounding to binary64 *)

(** [2 ^ k] *)
Definition pow2 (k : Z) : Q := (2 ^ k)%Q.

(** The binade of a positive rational: the [e] with [2^e <= q < 2^(e+1)]. *)
Definition binade (q : Q) : Z :=
  let a := (Z.log2 (Qnum q) - Z.log2 (Zpos (Qden q)))%Z in
  if Qle_bool (pow2 a) q then a else (a - 1)%Z.

(** The nearest integer, a tie going to the even one. *)
Definition rne (x : Q) : Z :=
  let f := Qfloor x in
  match (x - inject_Z f ?= 1 # 2)%Q with
  | Lt => f
  | Gt => (f + 1)%Z
  | Eq => if Z.even f then f else (f + 1)%Z
  end.

(** The exponent of the unit in the last place of binary64 at [q]: 52 places
    below the binade, and never below the subnormal step [2^-1074]. *)
Definition ulp_exp (q : Q) : Z := (Z.max (binade q) (-1022) - 52)%Z.

(** The multiple of the unit in the last place nearest to a positive [q]. *)
Definition round_pos (q : Q) : Q :=
  (inject_Z (rne (q / pow2 (ulp_exp q))) * pow2 (ulp_exp q))%Q.

Definition round_fin (q : Q) : Q :=
  match (q ?= 0)%Q with
  | Eq => 0%Q
  | Gt => round_pos q
  | Lt => (- round_pos (- q))%Q
  end.

(** The binary64 result of an operation whose exact result is [q]: rounded
    to nearest, ties to even, and an infinity from [2^1024] on. *)
Definition round64 (q : Q) : pyfloat :=
  let r := round_fin q in
  if Qle_bool (pow2 1024) r then PosInf
  else if Qle_bool r (- pow2 1024) then NegInf
  else Finite (Q2Qc r).

(** ** Values of a decoded model response *)

Inductive pyval :=
| VNone
| VBool (b : bool)
| VInt (z : Z)
| VFloat (f : pyfloat)
| VStr (s : string)
| VList (l : list pyval)
| VTuple (l : list pyval)
| VDict (d : gmap string pyval).

Abbreviation pydict := (gmap string pyval).
Abbreviation point := (pyfloat * pyfloat)%type.

(** The builtins of the interpreter that the code calls on strings:
    [float(s)] ([None] when it raises [ValueError]) and [s.upper()]. *)
Class Builtins := {
  float_of_str : string -> option pyfloat;
  str_upper : string -> string
}.

(** [isinstance(t, (int, float))]; [bool] is a subclass of [int]. *)
Definition is_int_or_float (t : pyval) : bool :=
  match t with
  | VBool _ | VInt _ | VFloat _ => true
  | _ => false
  end.

(** [isinstance(t, (list, tuple))], with the items. *)
Definition seq_items (t : pyval) : option (list pyval) :=
  match t with
  | VList l | VTuple l => Some l
  | _ => None
  end.

(** [isinstance(t, (list, tuple)) and len(t) == 2] *)
Definition is_pair (t : pyval) : bool :=
  match seq_items t with
  | Some l => Nat.eqb (length l) 2
  | None => false
  end.

Section Float.
Context `{Builtins}.

(** The builtin [float(v)]. *)
Definition py_float (v : pyval) : res pyfloat :=
  match v with
  | VBool b => Ok (Finite (Q2Qc (inject_Z (if b then 1 else 0))))
  | VInt z =>
      if (Z.abs z <? float_int_limit)%Z then Ok (Finite (Q2Qc (inject_Z z)))
      else Raise OverflowError
  | VFloat f => Ok f
  | VStr s =>
      match float_of_str s with
      | Some f => Ok f
      | None => Raise ValueError
      end
  | VNone | VList _ | VTuple _ | VDict _ => Raise TypeError
  end.

(** [map(float, l)], consumed from the left: the first failing item raises. *)
Fixpoint map_float (l : list pyval) : res (list pyfloat) :=
  match l with
  | [] => Ok []
  | v :: rest =>
      f <-! py_float v;
      fs <-! map_float rest;
      Ok (f :: fs)
  end.

(** [float(a), float(b)] *)
Definition float_pair (a b : pyval) : res point :=
  fa <-! py_float a;
  fb <-! py_float b;
  Ok (fa, fb).

(** [float(t[0]), float(t[1])] for a sequence [t] of length two (the only
    length the callers reach it with). *)
Definition first_two (t : list pyval) : res point :=
  match t with
  | a :: b :: _ => float_pair a b
  | _ => Raise ValueError
  end.

(** [_center_from_bbox]: unpacking [map(float, b)] into four names draws at
    most five items before it raises [ValueError] on a wrong length. *)
Definition _center_from_bbox (b : list pyval) : res point :=
  fs <-! map_float (take 5 b);
  match fs with
  | [x1; y1; x2; y2] => Ok (midpoint x1 x2, midpoint y1 y2)
  | _ => Raise ValueError
  end.

(** [(x1, y1), (x2, y2) = pos] followed by the two midpoints, for [pos] of
    two pairs. *)
Definition center_of_pairs (pos : list pyval) : res point :=
  match pos with
  | [p1; p2] =>
      match seq_items p1, seq_items p2 with
      | Some [x1; y1], Some [x2; y2] =>
          fx1 <-! py_float x1;
          fx2 <-! py_float x2;
          fy1 <-! py_float y1;
          fy2 <-! py_float y2;
          Ok (midpoint fx1 fx2, midpoint fy1 fy2)
      | _, _ => Raise ValueError
      end
  | _ => Raise ValueError
  end.

(** The three shapes of a [position] field, tried in the order of the source;
    [None] when control falls through to the [x]/[y] rules. Both files have
    this block. *)
Definition position_rules (pos : pyval) : option (res point) :=
  match seq_items pos with
  | Some items =>
      if Nat.eqb (length items) 2 && forallb is_int_or_float items
      then Some (first_two items)
      else if Nat.eqb (length items) 4 && forallb is_int_or_float items
      then Some (_center_from_bbox items)
      else if Nat.eqb (length items) 2 && forallb is_pair items
      then Some (center_of_pairs items)
      else None
  | None => None
  end.

End Float.

(** ** Sequences *)

(** The slice [l[start:]]: a negative [start] counts from the end, and both
    ends are clipped to the sequence. *)
Definition slice_from {A} (start : Z) (l : list A) : list A :=
  let n := Z.of_nat (length l) in
  let i := if (start <? 0)%Z then Z.max 0 (n + start) else Z.min start n in
  drop (Z.to_nat i) l.

(** ** gui_main.py *)
Module GuiMain.

Definition trim_history {A} (history : list A) (keep_last : Z) : list A :=
  if (Z.of_nat (length history) <=? keep_last)%Z then history
  else slice_from (- keep_last) history.

Section Codec.
Context `{Builtins}.

(** The guarded list rules applied to the [x] field, then to the [y] field. *)
Definition list_rules (v : pyval) : option (res point) :=
  match seq_items v with
  | Some items =>
      if Nat.eqb (length items) 2 && forallb is_int_or_float items
      then Some (first_two items)
      else if Nat.eqb (length items) 4 && forallb is_int_or_float items
      then Some (_center_from_bbox items)
      else None
  | None => None
  end.

Definition _extract_xy (out : pydict) : res point :=
  let x := default (VFloat (Finite half)) (out !! "x") in
  let y := default (VFloat (Finite half)) (out !! "y") in
  let pos := default VNone (out !! "position") in
  match position_rules pos with
  | Some r => r
  | None =>
      match list_rules x with
      | Some r => r
      | None =>
          match list_rules y with
          | Some r => r
          | None => float_pair x y
          end
      end
  end.

End Codec.
End GuiMain.

(** ** gui_mission_control.py *)
Module MissionControl.

Definition trim_history {A} (history : list A) (keep_last : Z) : list A :=
  if (keep_last <? Z.of_nat (length history))%Z then slice_from (- keep_last) history
  else history.

Section Codec.
Context `{Builtins}.

(** The list rules of this file test the length only. *)
Definition list_rules (v : pyval) : option (res point) :=
  match seq_items v with
  | Some items =>
      if Nat.eqb (length items) 2 then Some (first_two items)
      else if Nat.eqb (length items) 4 then Some (_center_from_bbox items)
      else None
  | None => None
  end.

Definition _extract_xy (out : pydict) : res point :=
  let x := default (VFloat (Finite half)) (out !! "x") in
  let y := default (VFloat (Finite half)) (out !! "y") in
  let pos := default VNone (out !! "position") in
  match position_rules pos with
  | Some r => r
  | None =>
      match list_rules x with
      | Some r => r
      | None =>
          match list_rules y with
          | Some r => r
          | None => float_pair x y
          end
      end
  end.

End Codec.
End MissionControl.

(** ** The live view: [VMView], the same class in both files

    [gui_main.py] 196-297 and [gui_mission_control.py] 82-156.  The second
    file looks the button up in a table and resets [_pressed_btn] after the
    [mouse_up] call instead of before it; the calls and the final state are
    the same. *)
Module VMView.

Variant QPixmap := Pixmap (w h : Z).

Variant MouseButton := LeftButton | RightButton | MiddleButton | OtherButton.

(** The calls the handlers make on the sandbox. *)
Variant call :=
| mouse_move_norm (nx ny : pyfloat)
| mouse_down (btn : Z)
| mouse_up (btn : Z)
| drag_to_norm (nx ny : pyfloat) (btn : Z).

Record view := View {
  _pm : option QPixmap;
  _draw_rect : option (Z * Z * Z * Z);
  input_enabled : bool;
  _pressed_btn : option Z;
  _last_move_ts : Qc
}.

(** [a / b] on two ints with [b] not zero (its one use is behind the guard
    [dw <= 0 or dh <= 0]).  The quotient is passed on as a coordinate and is
    carried as its exact value. *)
Definition int_truediv (a b : Z) : pyfloat :=
  Finite (Q2Qc (inject_Z a / inject_Z b)%Q).

(** [not self._pm or not self._draw_rect] holds for a missing frame or a
    missing rectangle: a pixmap object and a 4-tuple are both true. *)
Definition _pos_to_norm (v : view) (x y : Z) : option point :=
  match _pm v, _draw_rect v with
  | Some _, Some (dx, dy, dw, dh) =>
      if (dw <=? 0)%Z || (dh <=? 0)%Z then None
      else if (x <? dx)%Z || (y <? dy)%Z || (x >=? dx + dw)%Z || (y >=? dy + dh)%Z
      then None
      else Some (int_truediv (x - dx) dw, int_truediv (y - dy) dh)
  | _, _ => None
  end.

Definition button_number (b : MouseButton) : option Z :=
  match b with
  | LeftButton => Some 1%Z
  | RightButton => Some 3%Z
  | MiddleButton => Some 2%Z
  | OtherButton => None
  end.

Definition set_pressed (v : view) (b : option Z) : view :=
  View (_pm v) (_draw_rect v) (input_enabled v) b (_last_move_ts v).

Definition set_last_move (v : view) (t : Qc) : view :=
  View (_pm v) (_draw_rect v) (input_enabled v) (_pressed_btn v) t.

(** [mousePressEvent], at the pixel [(x, y)] of the event position. *)
Definition mousePressEvent (v : view) (x y : Z) (button : MouseButton)
  : view * list call :=
  if negb (input_enabled v) then (v, [])
  else
    match _pos_to_norm v x y with
    | None => (v, [])
    | Some (nx, ny) =>
        match button_number button with
        | None => (v, [])
        | Some btn =>
            (set_pressed v (Some btn), [mouse_move_norm nx ny; mouse_down btn])
        end
    end.

(** The debounce window: the float literal [0.03], which is the binary64
    value [8646911284551352 / 2^58], a little below 3/100. *)
Definition debounce : Qc := Q2Qc (8646911284551352 # 288230376151711744).

Definition Qc_ltb (a b : Qc) : bool :=
  match (a ?= b)%Qc with Lt => true | _ => false end.

(** [(now - last) < 0.03] on two floats: the difference is rounded to
    binary64 and then compared with the literal. *)
Definition too_soon (now last : Qc) : bool :=
  match round64 (this now - this last) with
  | Finite d => Qc_ltb d debounce
  | NegInf => true
  | NaN | PosInf => false
  end.

(** [mouseMoveEvent]; [now] is the reading of [time.monotonic()]. *)
Definition mouseMoveEvent (v : view) (x y : Z) (now : Qc) : view * list call :=
  if negb (input_enabled v) then (v, [])
  else
    match _pos_to_norm v x y with
    | None => (v, [])
    | Some (nx, ny) =>
        if too_soon now (_last_move_ts v) then (v, [])
        else
          let v' := set_last_move v now in
          match _pressed_btn v' with
          | Some btn => (v', [drag_to_norm nx ny btn])
          | None => (v', [mouse_move_norm nx ny])
          end
    end.

Definition mouseReleaseEvent (v : view) : view * list call :=
  if negb (input_enabled v) then (v, [])
  else
    match _pressed_btn v with
    | None => (v, [])
    | Some btn => (set_pressed v None, [mouse_up btn])
    end.

(** Pointer events as the toolkit delivers them. *)
Variant event :=
| Press (x y : Z) (button : MouseButton)
| Move (x y : Z) (now : Qc)
| Release.

Definition handle (v : view) (e : event) : view * list call :=
  match e with
  | Press x y b => mousePressEvent v x y b
  | Move x y now => mouseMoveEvent v x y now
  | Release => mouseReleaseEvent v
  end.

(** A sequence of events, handled in order; the calls are concatenated. *)
Fixpoint handle_all (v : view) (es : list event) : view * list call :=
  match es with
  | [] => (v, [])
  | e :: rest =>
      let '(v1, c1) := handle v e in
      let '(v2, c2) := handle_all v1 rest in
      (v2, c1 ++ c2)
  end.

End VMView.

(** ** The objective execution loop: [run_single_command]

    [gui_main.py] 85-155 and [gui_mission_control.py] 208-278 run the same
    loop; the second file adds signals, a latency reading and two counters,
    none of which the control flow reads.  The loop is written once, over the
    [trim_history] and [_extract_xy] of the file it belongs to. *)

(** [bool(v)] *)
Definition truthy (v : pyval) : bool :=
  match v with
  | VNone => false
  | VBool b => b
  | VInt z => negb (z =? 0)%Z
  | VFloat (Finite q) => negb (Qc_eq_bool q (Q2Qc 0))
  | VFloat _ => true
  | VStr s => negb (String.eqb s "")
  | VList l | VTuple l => negb (Nat.eqb (length l) 0)
  | VDict d => negb (Nat.eqb (size d) 0)
  end.

Definition is_pointer_kind (action : string) : bool :=
  String.eqb action "CLICK" || String.eqb action "DOUBLE_CLICK"
  || String.eqb action "RIGHT_CLICK".

(** [{"action": "INVALID_COORDS", "raw": out}] *)
Definition invalid_entry (out : pydict) : pydict :=
  <["action" := VStr "INVALID_COORDS"]> (<["raw" := VDict out]> ∅).

(** [out["x"], out["y"] = x, y] *)
Definition store_xy (out : pydict) (x y : pyfloat) : pydict :=
  <["y" := VFloat y]> (<["x" := VFloat x]> out).

(** The collaborators and the configuration of one run.  The pause, the
    capture, the log lines, the preview and [execute_action] itself have no
    part in the control flow and are taken to return; the actions handed to
    [execute_action] are recorded in order.  [ask_next_action q h]
    is the model's answer to the query number [q] of the run (the first is
    [0]) on the trimmed history [h]; [stop_event], when given, is read at
    the head of every step, by step number. *)
Record collaborators := {
  ask_next_action : nat -> list pydict -> pydict;
  validate_xy : pyfloat -> pyfloat -> bool * string;
  should_stop_on_repeat : list pydict -> pydict -> bool * string;
  stop_event : option (Z -> bool);
  MODEL_RETRY : Z;
  MAX_STEPS : Z
}.

(** How the [for attempt in range(MODEL_RETRY + 1)] block is left. *)
Variant decision :=
| Accepted (out : pydict)
| Finished
| NoValidAction
| Failed (e : exn).

(** How the run ends; [OutOfFuel] is the model's, never the program's. *)
Variant ending :=
| Returned (result : string)
| Raised (e : exn)
| OutOfFuel.

Record run := Run {
  ended : ending;
  final_history : list pydict;
  executed : list pydict;
  queries : nat
}.

Section Loop.
Context `{Builtins}.
Variable trim_history : list pydict -> Z -> list pydict.
Variable _extract_xy : pydict -> res point.
Variable C : collaborators.

(** [(out.get("action") or dflt).upper()] *)
Definition action_of (dflt : string) (out : pydict) : res string :=
  let a :=
    match out !! "action" with
    | Some v => if truthy v then v else VStr dflt
    | None => VStr dflt
    end in
  match a with
  | VStr s => Ok (str_upper s)
  | _ => Raise AttributeError
  end.

(** The retry block, with [attempts] iterations left, [q] queries made so far
    and the history as it stands.  Returns the way the block is left, the
    history and the number of queries made. *)
Fixpoint attempt_loop (attempts q : nat) (history : list pydict)
  : decision * list pydict * nat :=
  match attempts with
  | O => (NoValidAction, history, q)
  | S n =>
      let out := ask_next_action C q (trim_history history 6) in
      match action_of "NOOP" out with
      | Raise e => (Failed e, history, S q)
      | Ok action =>
          if String.eqb action "BITTI" then (Finished, history, S q)
          else if is_pointer_kind action then
            match _extract_xy out with
            | Raise e => (Failed e, history, S q)
            | Ok (x, y) =>
                if fst (validate_xy C x y)
                then (Accepted (store_xy out x y), history, S q)
                else attempt_loop n (S q) (history ++ [invalid_entry out])
            end
          else (Accepted out, history, S q)
      end
  end.

Definition stop_is_set (step : Z) : bool :=
  match stop_event C with
  | Some is_set => is_set step
  | None => false
  end.

(** The [while True] loop from the head of step [step]. *)
Fixpoint steps (fuel : nat) (step : Z) (q : nat) (history acts : list pydict)
  : run :=
  match fuel with
  | O => Run OutOfFuel history acts q
  | S fuel' =>
      if stop_is_set step then Run (Returned "STOPPED") history acts q
      else
        match attempt_loop (Z.to_nat (MODEL_RETRY C + 1)) q history with
        | (Finished, history1, q1) =>
            Run (Returned "DONE(BITTI)") history1 acts q1
        | (Failed e, history1, q1) => Run (Raised e) history1 acts q1
        | (NoValidAction, history1, q1) =>
            Run (Returned "ERROR(no valid action)") history1 acts q1
        | (Accepted out, history1, q1) =>
            if fst (should_stop_on_repeat C history1 out)
            then Run (Returned "DONE(repeat-guard)") history1 acts q1
            else
              match action_of "" out with
              | Raise e => Run (Raised e) history1 acts q1
              | Ok _ =>
                  let history2 := history1 ++ [out] in
                  let acts2 := acts ++ [out] in
                  let step2 := (step + 1)%Z in
                  if (step2 >? MAX_STEPS C)%Z
                  then Run (Returned "DONE(max-steps)") history2 acts2 q1
                  else steps fuel' step2 q1 history2 acts2
              end
        end
  end.

(** The run visits at most [max 1 MAX_STEPS] steps. *)
Definition run_fuel : nat := Z.to_nat (Z.max 1 (MAX_STEPS C)).

Definition run_loop : run := steps run_fuel 1 0 [] [].

End Loop.

Module GuiMainLoop.
Definition run_single_command `{Builtins} (C : collaborators) : run :=
  run_loop (@GuiMain.trim_history pydict) GuiMain._extract_xy C.
End GuiMainLoop.

Module MissionControlLoop.
Definition run_single_command `{Builtins} (C : collaborators) : run :=
  run_loop (@MissionControl.trim_history pydict) MissionControl._extract_xy C.
End MissionControlLoop.

(** ** src/vision.py *)
Module Vision.

(** [a / b] on two ints: the quotient rounded to binary64, and
    [OverflowError] when it is too large for a float.  The result is
    truncated by [int], so the rounding is part of it. *)
Definition py_truediv (a b : Z) : res pyfloat :=
  if (b =? 0)%Z then Raise ZeroDivisionError
  else
    match round64 (inject_Z a / inject_Z b) with
    | Finite q => Ok (Finite q)
    | _ => Raise OverflowError
    end.

(** [int(f)]: truncation toward zero. *)
Definition py_int (f : pyfloat) : res Z :=
  match f with
  | Finite q => Ok (Z.quot (Qnum (this q)) (Zpos (Qden (this q))))
  | NaN => Raise ValueError
  | PosInf | NegInf => Raise OverflowError
  end.

(** The size handed to [img.resize], or [None] when the image is returned
    as it is. *)
Definition target_size (w h max_dim : Z) : res (option (Z * Z)) :=
  if (w <=? max_dim)%Z && (h <=? max_dim)%Z then Ok None
  else if (w >=? h)%Z then
    f <-! py_truediv (h * max_dim) w;
    new_h <-! py_int f;
    Ok (Some (max_dim, new_h))
  else
    f <-! py_truediv (w * max_dim) h;
    new_w <-! py_int f;
    Ok (Some (new_w, max_dim)).

Section Resize.
(** The imaging library: an image has a size, and [resize] stands for the
    image that [img.resize] returns when it returns (on a size with a zero
    side the library raises instead). *)
Variable Image : Type.
Variable size : Image -> Z * Z.
Variable resize : Image -> Z * Z -> Image.

Definition resize_keep_aspect (img : Image) (max_dim : Z) : res Image :=
  let '(w, h) := size img in
  t <-! target_size w h max_dim;
  match t with
  | None => Ok img
  | Some new_size => Ok (resize img new_size)
  end.

End Resize.
End Vision.

(** ** Concrete builtins, for evaluating the code *)

Definition ascii_upper_char (c : ascii) : ascii :=
  let n := nat_of_ascii c in
  if (97 <=? n)%nat && (n <=? 122)%nat then ascii_of_nat (n - 32) else c.

Fixpoint ascii_upper (s : string) : string :=
  match s with
  | EmptyString => EmptyString
  | String c rest => String (ascii_upper_char c) (ascii_upper rest)
  end.

(** [upper] on ASCII text; no string converts to a float.  Used only at
    inputs whose strings are ASCII and stand in no numeric field. *)
Definition ascii_builtins : Builtins :=
  {| float_of_str := fun _ => None; str_upper := ascii_upper |}.

(** Short forms for concrete inputs. *)
Definition pt (a b : Q) : point := (Finite (Q2Qc a), Finite (Q2Qc b)).
Definition fl (a : Q) : pyval := VFloat (Finite (Q2Qc a)).

(** ** src/vision.py: [draw_preview] *)
Module Preview.

(** [a < b] on floats; every comparison with NaN is false. *)
Definition flt (a b : pyfloat) : bool :=
  match a, b with
  | NaN, _ | _, NaN => false
  | Finite p, Finite q => VMView.Qc_ltb p q
  | NegInf, NegInf => false
  | NegInf, _ => true
  | _, NegInf => false
  | PosInf, _ => false
  | Finite _, PosInf => true
  end.

(** The builtin [min(a, b)]: [b] when [b < a], else [a]. *)
Definition py_min (a b : pyfloat) : pyfloat := if flt b a then b else a.

(** The builtin [max(a, b)]: [b] when [b > a], else [a]. *)
Definition py_max (a b : pyfloat) : pyfloat := if flt a b then b else a.

(** [a * b] on floats: the product of two finite floats is rounded to
    binary64. *)
Definition fmul (a b : pyfloat) : pyfloat :=
  let scaled (inf : pyfloat) (opp : pyfloat) (p : Qc) : pyfloat :=
    match (p ?= Q2Qc 0)%Qc with
    | Eq => NaN
    | Gt => inf
    | Lt => opp
    end in
  match a, b with
  | NaN, _ | _, NaN => NaN
  | Finite p, Finite q => round64 (this p * this q)
  | Finite p, PosInf | PosInf, Finite p => scaled PosInf NegInf p
  | Finite p, NegInf | NegInf, Finite p => scaled NegInf PosInf p
  | PosInf, PosInf | NegInf, NegInf => PosInf
  | PosInf, NegInf | NegInf, PosInf => NegInf
  end.

(** The conversion of an int operand to a float: the nearest binary64
    value, and [OverflowError] beyond the float range. *)
Definition float_of_int (n : Z) : res pyfloat :=
  if (Z.abs n <? float_int_limit)%Z
  then Ok (Finite (Q2Qc (round_fin (inject_Z n))))
  else Raise OverflowError.

(** [f * n] for a float and an int: the int is converted first. *)
Definition float_times_int (f : pyfloat) (n : Z) : res pyfloat :=
  fn <-! float_of_int n;
  Ok (fmul f fn).

(** [int(max(0.0, min(1.0, x)) * max(0, side - 1))] *)
Definition marker_pixel (x : pyfloat) (side : Z) : res Z :=
  let clamped := py_max (Finite (Q2Qc 0)) (py_min (Finite (Q2Qc 1)) x) in
  f <-! float_times_int clamped (Z.max 0 (side - 1));
  Vision.py_int f.

Section Draw.
(** The drawing library: [d.ellipse] on a box and [cp.save], each of which
    returns or raises.  The copy of the image and its conversion are taken
    to return. *)
Variable ellipse : Z * Z * Z * Z -> res unit.
Variable save : res unit.

(** [draw_preview] on an image of the given size. *)
Definition draw_preview (size : Z * Z) (x y : pyfloat) (r : Z) : res unit :=
  let '(w, h) := size in
  px <-! marker_pixel x w;
  py <-! marker_pixel y h;
  _ <-! ellipse (px - r, py - r, px + r, py + r)%Z;
  save.

End Draw.

End Preview.

(** ** More of [VMView]: frames, painting, the wheel, the keyboard

    [gui_main.py] 213-215, 229-246 and 299-349; the same handlers stand in
    [gui_mission_control.py] 98-100, 112-125 and 158-188. *)
Module VMInput.
Import VMView.

(** What the handlers take from the interpreter and the toolkit: on the text
    of a key event [isprintable], [lower] and [len] (in characters), and of
    a pixmap the result of
    [scaled(size, KeepAspectRatio, SmoothTransformation)]. *)
Class Toolkit := {
  str_isprintable : string -> bool;
  str_lower : string -> string;
  str_len : string -> nat;
  scaled_keep_aspect : QPixmap -> Z * Z -> QPixmap
}.

Definition pixmap_width (pm : QPixmap) : Z := let 'Pixmap w _ := pm in w.
Definition pixmap_height (pm : QPixmap) : Z := let 'Pixmap _ h := pm in h.

(** The view as [__init__] leaves it. *)
Definition init_view : view := View None None true None (Q2Qc 0).

Definition set_frame (v : view) (pm : QPixmap) : view :=
  View (Some pm) (_draw_rect v) (input_enabled v) (_pressed_btn v) (_last_move_ts v).

Definition set_input_enabled (v : view) (b : bool) : view :=
  View (_pm v) (_draw_rect v) b (_pressed_btn v) (_last_move_ts v).

(** [paintEvent] on a widget of the given width and height: the state it
    leaves (the painting itself is left out). *)
Definition paintEvent `{Toolkit} (v : view) (width height : Z) : view :=
  match _pm v with
  | None => v
  | Some pm =>
      let scaled := scaled_keep_aspect pm (width, height) in
      let x := ((width - pixmap_width scaled) / 2)%Z in
      let y := ((height - pixmap_height scaled) / 2)%Z in
      View (_pm v) (Some (x, y, pixmap_width scaled, pixmap_height scaled))
        (input_enabled v) (_pressed_btn v) (_last_move_ts v)
  end.

(** The calls the wheel and key handlers make on the sandbox. *)
Variant sandbox_call :=
| scroll (delta : Z)
| hotkey (tokens : list string)
| type_text (text : string)
| press_key (name : string).

Definition wheelEvent (v : view) (delta : Z) : list sandbox_call :=
  if negb (input_enabled v) then [] else [scroll delta].

(** The keys the handler names; [Key_Other] is any other key. *)
Variant Key :=
| Key_F11 | Key_Return | Key_Enter | Key_Tab | Key_Escape | Key_Backspace
| Key_Delete | Key_Up | Key_Down | Key_Left | Key_Right | Key_Home | Key_End
| Key_PageUp | Key_PageDown | Key_Space | Key_Other (code : Z).

Record KeyboardModifiers := {
  ControlModifier : bool;
  AltModifier : bool;
  ShiftModifier : bool;
  MetaModifier : bool
}.

(** The table [special]. *)
Definition special (key : Key) : option string :=
  match key with
  | Key_Return | Key_Enter => Some "enter"
  | Key_Tab => Some "tab"
  | Key_Escape => Some "esc"
  | Key_Backspace => Some "backspace"
  | Key_Delete => Some "delete"
  | Key_Up => Some "up"
  | Key_Down => Some "down"
  | Key_Left => Some "left"
  | Key_Right => Some "right"
  | Key_Home => Some "home"
  | Key_End => Some "end"
  | Key_PageUp => Some "pageup"
  | Key_PageDown => Some "pagedown"
  | Key_Space => Some "space"
  | Key_F11 | Key_Other _ => None
  end.

Definition is_F11 (key : Key) : bool :=
  match key with Key_F11 => true | _ => false end.

Definition is_Tab (key : Key) : bool :=
  match key with Key_Tab => true | _ => false end.

(** [keyPressEvent]: the calls on the sandbox, and whether the window was
    asked to toggle full screen. *)
Definition keyPressEvent `{Toolkit}
    (v : view) (key : Key) (mods : KeyboardModifiers) (txt : string)
  : list sandbox_call * bool :=
  if negb (input_enabled v) then ([], false)
  else if is_F11 key then ([], true)
  else
    let has_text := negb (String.eqb txt "") in
    if ControlModifier mods && has_text && str_isprintable txt
    then ([hotkey ["ctrl"; str_lower txt]], false)
    else if AltModifier mods && is_Tab key
    then ([hotkey ["alt"; "tab"]], false)
    else if has_text && str_isprintable txt && Nat.eqb (str_len txt) 1
    then ([type_text txt], false)
    else
      match special key with
      | Some name => ([press_key name], false)
      | None => ([], false)
      end.

(** What reaches the view: the three pointer events, the wheel, a key, a new
    frame, a paint, and the busy signal of the window
    ([input_enabled = not busy]). *)
Variant gui_event :=
| Pointer (e : event)
| Wheel (delta : Z)
| KeyPress (key : Key) (mods : KeyboardModifiers) (txt : string)
| Frame (pm : QPixmap)
| Paint (width height : Z)
| Busy (busy : bool).

Variant forwarded :=
| PointerCall (c : call)
| SandboxCall (c : sandbox_call).

Definition dispatch `{Toolkit} (v : view) (e : gui_event) : view * list forwarded :=
  match e with
  | Pointer p => let '(v', calls) := handle v p in (v', map PointerCall calls)
  | Wheel delta => (v, map SandboxCall (wheelEvent v delta))
  | KeyPress key mods txt => (v, map SandboxCall (fst (keyPressEvent v key mods txt)))
  | Frame pm => (set_frame v pm, [])
  | Paint width height => (paintEvent v width height, [])
  | Busy busy => (set_input_enabled v (negb busy), [])
  end.

Fixpoint dispatch_all `{Toolkit} (v : view) (es : list gui_event)
  : view * list forwarded :=
  match es with
  | [] => (v, [])
  | e :: rest =>
      let '(v1, c1) := dispatch v e in
      let '(v2, c2) := dispatch_all v1 rest in
      (v2, c1 ++ c2)
  end.

End VMInput.

(** Printable ASCII, lower case on ASCII, length in bytes, and a scaling that
    fits the pixmap into the size, keeping its aspect ratio.  Used only at
    ASCII texts. *)
Definition ascii_lower_char (c : ascii) : ascii :=
  let n := nat_of_ascii c in
  if (65 <=? n)%nat && (n <=? 90)%nat then ascii_of_nat (n + 32) else c.

Fixpoint ascii_lower (s : string) : string :=
  match s with
  | EmptyString => EmptyString
  | String c rest => String (ascii_lower_char c) (ascii_lower rest)
  end.

Fixpoint ascii_printable (s : string) : bool :=
  match s with
  | EmptyString => true
  | String c rest =>
      (32 <=? nat_of_ascii c)%nat && (nat_of_ascii c <=? 126)%nat
      && ascii_printable rest
  end.

Definition fit_keep_aspect (pm : VMView.QPixmap) (size : Z * Z) : VMView.QPixmap :=
  let 'VMView.Pixmap w h := pm in
  let '(sw, sh) := size in
  if (w <=? 0)%Z || (h <=? 0)%Z || (sw <=? 0)%Z || (sh <=? 0)%Z
  then VMView.Pixmap 0 0
  else
    let rw := (sh * w / h)%Z in
    if (rw <=? sw)%Z then VMView.Pixmap (Z.max rw 1) sh
    else VMView.Pixmap sw (Z.max (sw * h / w) 1).

Definition ascii_toolkit : VMInput.Toolkit :=
  {| VMInput.str_isprintable := ascii_printable;
     VMInput.str_lower := ascii_lower;
     VMInput.str_len := String.length;
     VMInput.scaled_keep_aspect := fit_keep_aspect |}.

(** ** gui_mission_control.py: the signals of a run and the counters

    [run_single_command] (208-278) emits [action_update] and [step_update]
    for every accepted action, before the repeat guard is asked;
    [MissionControlWindow._on_step] (509-518) keeps the counters.  The log
    lines and the latency reading are left out; the detail of a step is
    carried as the value that [str] is applied to. *)
Module MissionControlSignals.

Variant signal :=
| action_update (out : pydict)
| step_update (step : Z) (action : string) (detail : pyval).

(** [out.get("why_short", out.get("target", ""))] *)
Definition detail_of (out : pydict) : pyval :=
  default (default (VStr "") (out !! "target")) (out !! "why_short").

Section Run.
Context `{Builtins}.
Variable C : collaborators.

(** The [while True] loop of this file, with the signals emitted so far. *)
Fixpoint steps (fuel : nat) (step : Z) (q : nat) (history acts : list pydict)
    (emitted : list signal) : run * list signal :=
  match fuel with
  | O => (Run OutOfFuel history acts q, emitted)
  | S fuel' =>
      if stop_is_set C step then (Run (Returned "STOPPED") history acts q, emitted)
      else
        match attempt_loop (@MissionControl.trim_history pydict)
                MissionControl._extract_xy C
                (Z.to_nat (MODEL_RETRY C + 1)) q history with
        | (Finished, history1, q1) =>
            (Run (Returned "DONE(BITTI)") history1 acts q1, emitted)
        | (Failed e, history1, q1) => (Run (Raised e) history1 acts q1, emitted)
        | (NoValidAction, history1, q1) =>
            (Run (Returned "ERROR(no valid action)") history1 acts q1, emitted)
        | (Accepted out, history1, q1) =>
            match action_of "" out with
            | Raise e => (Run (Raised e) history1 acts q1, emitted)
            | Ok action =>
                let emitted1 :=
                  emitted ++ [action_update out;
                              step_update step action (detail_of out)] in
                if fst (should_stop_on_repeat C history1 out)
                then (Run (Returned "DONE(repeat-guard)") history1 acts q1, emitted1)
                else
                  let history2 := history1 ++ [out] in
                  let acts2 := acts ++ [out] in
                  let step2 := (step + 1)%Z in
                  if (step2 >? MAX_STEPS C)%Z
                  then (Run (Returned "DONE(max-steps)") history2 acts2 q1, emitted1)
                  else steps fuel' step2 q1 history2 acts2 emitted1
            end
        end
  end.

Definition run_single_command : run * list signal :=
  steps (run_fuel C) 1 0 [] [] [].

End Run.

(** The counters of the window. *)
Record counters := Counters {
  _step_count : Z;
  _click_count : Z;
  _type_count : Z
}.

(** The counters as [_on_run] resets them. *)
Definition reset : counters := Counters 0 0 0.

Definition _on_step (m : counters) (step_num : Z) (action : string) : counters :=
  Counters step_num
    (if is_pointer_kind action then _click_count m + 1 else _click_count m)%Z
    (if String.eqb action "TYPE" then _type_count m + 1 else _type_count m)%Z.

(** The slot a signal is connected to, as far as the counters go. *)
Definition deliver (m : counters) (s : signal) : counters :=
  match s with
  | step_update step_num action _ => _on_step m step_num action
  | action_update _ => m
  end.

(** The counters after the signals of a run, delivered in order. *)
Definition counters_after (emitted : list signal) : counters :=
  foldl deliver reset emitted.

End MissionControlSignals.

(** ** The windows: starting and stopping a run

    [AgentWindow._on_run] and [_on_stop] ([gui_main.py] 509-556) and
    [MissionControlWindow._on_run] and [_on_stop]
    ([gui_mission_control.py] 439-492).  Thread and event objects are
    numbered as they are created; a thread is alive from its start until it
    ends, and after [QApplication.quit()] nothing more is handled.  The log
    lines, the counters and the busy signal are left out. *)
Module Window.

Variant gui := AgentWindow | MissionControlWindow.

(** What [_on_run] takes from outside: [strip] and [lower] on the text, and
    the translation of the objective (the objective itself where the
    translation is not available). *)
Class Text := {
  str_strip : string -> string;
  str_lower_case : string -> string;
  translate : string -> string
}.

Record state := State {
  llm : bool;
  sandbox : bool;
  worker_thread : option nat;
  stop_event : option nat;
  alive : gset nat;
  set_events : gset nat;
  started : list (nat * nat * string);
  handed : list (nat * option nat);
  quit : bool;
  fresh : nat
}.

(** The window after [__init__]: the first builds the sandbox and the model
    itself, the second leaves them to a background thread. *)
Definition init (g : gui) : state :=
  match g with
  | AgentWindow => State true true None None ∅ ∅ [] [] false 0
  | MissionControlWindow => State false false None None ∅ ∅ [] [] false 0
  end.

(** [self.worker_thread and self.worker_thread.is_alive()] *)
Definition worker_running (w : state) : bool :=
  match worker_thread w with
  | Some t => bool_decide (t ∈ alive w)
  | None => false
  end.

(** [self.stop_event = threading.Event()] and the start of the worker
    thread; the run is recorded with its thread, the event created for it
    and its objective, newest first. *)
Definition start_worker (w : state) (objective : string) : state :=
  let t := fresh w in
  let ev := S (fresh w) in
  State (llm w) (sandbox w) (Some t) (Some ev) ({[ t ]} ∪ alive w) (set_events w)
    ((t, ev, objective) :: started w) (handed w) (quit w) (S (S (fresh w))).

Definition request_quit (w : state) : state :=
  State (llm w) (sandbox w) (worker_thread w) (stop_event w) (alive w)
    (set_events w) (started w) (handed w) true (fresh w).

Definition is_shutdown_word (low : string) : bool :=
  String.eqb low "shutdown" || String.eqb low "exit" || String.eqb low "quit".

(** [AgentWindow._on_run], on the text of the input line. *)
Definition agent_on_run `{Text} (w : state) (text : string) : state :=
  let objective := translate (str_strip text) in
  if String.eqb objective "" then w
  else if is_shutdown_word (str_strip (str_lower_case objective)) then request_quit w
  else if worker_running w then w
  else start_worker w objective.

(** [MissionControlWindow._on_run]. *)
Definition mission_on_run `{Text} (w : state) (objective : string) : state :=
  if String.eqb objective "" then w
  else if worker_running w then w
  else if negb (llm w) then w
  else if negb (sandbox w) then w
  else start_worker w (translate objective).

Definition _on_run `{Text} (g : gui) (w : state) (text : string) : state :=
  match g with
  | AgentWindow => agent_on_run w text
  | MissionControlWindow => mission_on_run w text
  end.

(** [_on_stop]: the event created last, if any, is set. *)
Definition _on_stop (w : state) : state :=
  match stop_event w with
  | Some ev =>
      State (llm w) (sandbox w) (worker_thread w) (stop_event w) (alive w)
        ({[ ev ]} ∪ set_events w) (started w) (handed w) (quit w) (fresh w)
  | None => w
  end.

(** The worker of thread [t] calls [run_single_command] with
    [self.stop_event] as it is at that moment. *)
Definition worker_begins (w : state) (t : nat) : state :=
  if bool_decide (t ∈ alive w) then
    State (llm w) (sandbox w) (worker_thread w) (stop_event w) (alive w)
      (set_events w) (started w) ((t, stop_event w) :: handed w) (quit w) (fresh w)
  else w.

(** What happens to a window: a run request, a stop request, a worker
    reaching its call of the loop, the end of a thread, and the two results
    of the background start-up. *)
Variant event :=
| OnRun (text : string)
| OnStop
| WorkerBegins (t : nat)
| ThreadEnds (t : nat)
| SandboxReady
| ModelReady.

Definition step `{Text} (g : gui) (w : state) (e : event) : state :=
  if quit w then w
  else
    match e with
    | OnRun text => _on_run g w text
    | OnStop => _on_stop w
    | WorkerBegins t => worker_begins w t
    | ThreadEnds t =>
        State (llm w) (sandbox w) (worker_thread w) (stop_event w)
          (alive w ∖ {[ t ]}) (set_events w) (started w) (handed w) (quit w) (fresh w)
    | SandboxReady =>
        State (llm w) true (worker_thread w) (stop_event w) (alive w)
          (set_events w) (started w) (handed w) (quit w) (fresh w)
    | ModelReady =>
        State true (sandbox w) (worker_thread w) (stop_event w) (alive w)
          (set_events w) (started w) (handed w) (quit w) (fresh w)
    end.

Definition run_events `{Text} (g : gui) (w : state) (es : list event) : state :=
  foldl (step g) w es.

End Window.

(** No stripping, lower case on ASCII, no translation.  Used only at texts
    without surrounding blanks. *)
Definition plain_text : Window.Text :=
  {| Window.str_strip := fun s => s;
     Window.str_lower_case := ascii_lower;
     Window.translate := fun s => s |}.


(** * Part II: the terms of the properties *)

(** ** The binary64 grid *)

(** [r] is a multiple of [2^k]. *)
Definition on_grid (k : Z) (r : Q) : Prop :=
  exists N : Z, (r == inject_Z N * pow2 k)%Q.

(** [r] lies on the grid of its own binade: with [53] bits it is a binary64
    value. *)
Definition representable (r : Q) : Prop := on_grid (ulp_exp r) r.

(** ** The specification's reading of the extractor *)

(** A JSON number that [float] converts. *)
Definition number `{Builtins} (v : pyval) (f : pyfloat) : Prop :=
  is_int_or_float v = true /\ py_float v = Ok f.

(** The two list shapes: a pair is the point itself, a bounding box is read
    as its centre. *)
Inductive list_point `{Builtins} : list pyval -> point -> Prop :=
| point_of_pair a b fa fb :
    number a fa -> number b fb -> list_point [a; b] (fa, fb)
| point_of_bbox x1 y1 x2 y2 fx1 fy1 fx2 fy2 :
    number x1 fx1 -> number y1 fy1 -> number x2 fx2 -> number y2 fy2 ->
    list_point [x1; y1; x2; y2] (midpoint fx1 fx2, midpoint fy1 fy2).

(** A value has one of the list shapes, by type and length. *)
Definition list_shape (v : pyval) : bool :=
  match seq_items v with
  | Some items =>
      (Nat.eqb (length items) 2 || Nat.eqb (length items) 4)
      && forallb is_int_or_float items
  | None => false
  end.

(** A value has one of the three [position] shapes, by type and length. *)
Definition position_shape (v : pyval) : bool :=
  list_shape v
  || match seq_items v with
     | Some items => Nat.eqb (length items) 2 && forallb is_pair items
     | None => false
     end.

(** No well-formed [position] stands in the response. *)
Definition no_position (out : pydict) : Prop :=
  forall pos, out !! "position" = Some pos -> position_shape pos = false.

(** The mean of two coordinates, as the specification writes the centre:
    [(a + b) / 2]. *)
Definition mean (a b : Qc) : Qc := ((a + b) * Q2Qc (1 # 2))%Qc.

(** A sum that a float holds: it lies within the float range. *)
Definition in_float_range (s : Qc) : Prop :=
  (- inject_Z float_int_limit < this s)%Q /\ (this s < inject_Z float_int_limit)%Q.

(** The corners are finite numbers whose sums stay within the float range,
    and [p] is the centre of the two points [(x1, y1)] and [(x2, y2)]. *)
Definition centre `{Builtins} (x1 y1 x2 y2 : pyval) (p : point) : Prop :=
  exists a b c d : Qc,
    number x1 (Finite a) /\ number y1 (Finite b)
    /\ number x2 (Finite c) /\ number y2 (Finite d)
    /\ in_float_range (a + c) /\ in_float_range (b + d)
    /\ p = (Finite (mean a c), Finite (mean b d)).

(** The two list encodings of section 4.1: a pair [[x, y]] stands for the
    point itself, a bounding box [[x1, y1, x2, y2]] for its centre. *)
Inductive list_encoding `{Builtins} : list pyval -> point -> Prop :=
| pair_encoding a b fa fb :
    number a fa -> number b fb -> list_encoding [a; b] (fa, fb)
| bbox_encoding x1 y1 x2 y2 p :
    centre x1 y1 x2 y2 p -> list_encoding [x1; y1; x2; y2] p.

(** The encodings of a [position] field: the two list encodings, and two
    nested pairs [[[x1, y1], [x2, y2]]], which stand for the centre of the
    two points. *)
Inductive position_encoding `{Builtins} : list pyval -> point -> Prop :=
| position_list items p : list_encoding items p -> position_encoding items p
| position_pairs p1 p2 x1 y1 x2 y2 p :
    seq_items p1 = Some [x1; y1] -> seq_items p2 = Some [x2; y2] ->
    centre x1 y1 x2 y2 p -> position_encoding [p1; p2] p.


(** The value read for a coordinate: the one under the key, and 0.5 for a
    missing key. *)
Definition coordinate_value (out : pydict) (key : string) : pyval :=
  default (VFloat (Finite half)) (out !! key).

(** Neither a list nor a tuple of two or of four items: no list rule of
    either file looks at the value. *)
Definition no_list_rule (v : pyval) : Prop :=
  forall items, seq_items v = Some items -> length items <> 2 /\ length items <> 4.

(** [float(x), float(y)] raises [e]: the conversion of [x] does, or that of
    [x] returns and that of [y] raises. *)
Definition conversion_raises `{Builtins} (x y : pyval) (e : exn) : Prop :=
  py_float x = Raise e
  \/ (exists fx, py_float x = Ok fx /\ py_float y = Raise e).

(** A value that the unguarded rules of the second file treat as the guarded
    rules of the first do. *)
Definition guarded (v : pyval) : Prop :=
  forall items, seq_items v = Some items ->
    Nat.eqb (length items) 2 || Nat.eqb (length items) 4 = true ->
    forallb is_int_or_float items = true.

(** ** The terms of the view's properties *)

(** A float in the closed unit interval. *)
Definition in_unit (f : pyfloat) : Prop :=
  match f with
  | Finite q => (Q2Qc 0 <= q)%Qc /\ (q <= Q2Qc 1)%Qc
  | _ => False
  end.

Module Pointer.
Import VMView.

(** The calls that carry a point carry one of the unit square. *)
Definition call_in_unit (c : call) : Prop :=
  match c with
  | mouse_move_norm nx ny | drag_to_norm nx ny _ => in_unit nx /\ in_unit ny
  | mouse_down _ | mouse_up _ => True
  end.

(** A move of the pointer: the pixel and the clock reading. *)
Definition move_event (m : Z * Z * Qc) : event :=
  let '(x, y, now) := m in Move x y now.

(** A forwarded move: the normalized point and the clock reading. *)
Definition drag_call (btn : Z) (f : point * Qc) : call :=
  drag_to_norm (fst (fst f)) (snd (fst f)) btn.

(** The moves that fall on the frame, each with its normalized point. *)
Definition mapped (v : view) (moves : list (Z * Z * Qc)) : list (point * Qc) :=
  omap (fun m : Z * Z * Qc =>
          let '(x, y, now) := m in
          match _pos_to_norm v x y with
          | Some p => Some (p, now)
          | None => None
          end) moves.

(** The moves that are forwarded: those on the frame that do not come
    within the debounce window of the move forwarded before them ([last] is
    the reading the view keeps from before the first). *)
Fixpoint forwarded (v : view) (last : Qc) (moves : list (Z * Z * Qc))
  : list (point * Qc) :=
  match moves with
  | [] => []
  | (x, y, now) :: rest =>
      match _pos_to_norm v x y with
      | Some p =>
          if too_soon now last then forwarded v last rest
          else (p, now) :: forwarded v now rest
      | None => forwarded v last rest
      end
  end.

(** The reading of the move forwarded last, [since] when there is none. *)
Definition last_reading (fw : list (point * Qc)) (since : Qc) : Qc :=
  from_option snd since (last fw).

(** The spacing the debounce keeps: 30 ms less [10^-17] s.  The literal
    [0.03] lies a little below 3/100, and the difference of two readings is
    rounded before it is compared. *)
Definition least_gap : Qc := Q2Qc (2999999999999999 # 100000000000000000).

(** Consecutive clock readings, the first taken against [last], are more
    than [least_gap] apart. *)
Fixpoint spaced (last : Qc) (ts : list Qc) : Prop :=
  match ts with
  | [] => True
  | t :: rest => (least_gap < t - last)%Qc /\ spaced t rest
  end.

(** No move is lost: a move on the frame that comes 30 ms or more after the
    move forwarded before it is forwarded, at its normalized point. *)
Definition none_lost (v : view) (last : Qc) (moves : list (Z * Z * Qc)) : Prop :=
  forall pre x y now post p,
    moves = pre ++ (x, y, now) :: post ->
    _pos_to_norm v x y = Some p ->
    (Q2Qc (3 # 100) <= now - last_reading (forwarded v last pre) last)%Qc ->
    forwarded v last moves
    = forwarded v last pre ++ (p, now) :: forwarded v now post.

End Pointer.

(** ** The terms of the loop's properties *)

(** The response is a pointer action whose coordinates the validator
    rejects. *)
Definition rejected `{Builtins} (extract : pydict -> res point)
    (C : collaborators) (out : pydict) : Prop :=
  exists k x y,
    action_of "NOOP" out = Ok k /\ is_pointer_kind k = true
    /\ extract out = Ok (x, y) /\ fst (validate_xy C x y) = false.

(** The response is a pointer action whose coordinates the validator
    accepts. *)
Definition valid_pointer `{Builtins} (extract : pydict -> res point)
    (C : collaborators) (out : pydict) (x y : pyfloat) : Prop :=
  exists k,
    action_of "NOOP" out = Ok k /\ is_pointer_kind k = true
    /\ extract out = Ok (x, y) /\ fst (validate_xy C x y) = true.

(** The response is an action of another kind, and not the terminal one. *)
Definition other_kind `{Builtins} (out : pydict) : Prop :=
  exists k,
    action_of "NOOP" out = Ok k /\ String.eqb k "BITTI" = false
    /\ is_pointer_kind k = false.

(** The response carries the terminal kind. *)
Definition terminal `{Builtins} (out : pydict) : Prop :=
  action_of "NOOP" out = Ok "BITTI".

(** The response is accepted at the first attempt. *)
Definition accepted_first `{Builtins} (extract : pydict -> res point)
    (C : collaborators) (out : pydict) : Prop :=
  other_kind out \/ exists x y, valid_pointer extract C out x y.

(** The action is one the loop validates: line 121 of [gui_main.py]. *)
Definition is_pointer_action `{Builtins} (e : pydict) : Prop :=
  exists k, action_of "NOOP" e = Ok k /\ is_pointer_kind k = true.

(** An accepted pointer action carries the coordinates that passed the
    validator. *)
Definition validated `{Builtins} (C : collaborators) (e : pydict) : Prop :=
  is_pointer_action e ->
  exists x y,
    e !! "x" = Some (VFloat x) /\ e !! "y" = Some (VFloat y)
    /\ fst (validate_xy C x y) = true.

(** The queries made by the retry block beyond the rejected ones: one when it
    is left with an answer, none when the attempts ran out. *)
Definition last_query (d : decision) : nat :=
  match d with NoValidAction => 0 | _ => 1 end.

(** The steps still to run from the head of step [step]. *)
Definition steps_left (C : collaborators) (step : Z) : nat :=
  Z.to_nat (Z.max 1 (MAX_STEPS C - step + 1)).

(** The outcomes of a run [run] of the loop that reads coordinates with
    [extract]. *)
Definition loop_outcomes `{Builtins}
    (extract : pydict -> res point) (run_single_command : collaborators -> run)
  : Prop :=
  forall C : collaborators,
    (MODEL_RETRY C = 2%Z ->
     stop_is_set C 1 = false ->
     (forall q h, q < 3 -> rejected extract C (ask_next_action C q h)) ->
     ended (run_single_command C) = Returned "ERROR(no valid action)"
     /\ executed (run_single_command C) = []
     /\ queries (run_single_command C) = 3)
    /\ ((0 <= MODEL_RETRY C)%Z ->
        stop_is_set C 1 = false ->
        (forall h, terminal (ask_next_action C 0 h)) ->
        run_single_command C = Run (Returned "DONE(BITTI)") [] [] 1)
    /\ ((0 <= MODEL_RETRY C)%Z ->
        (forall s, stop_is_set C s = false) ->
        (forall q h, accepted_first extract C (ask_next_action C q h)) ->
        (forall h o, fst (should_stop_on_repeat C h o) = false) ->
        ended (run_single_command C) = Returned "DONE(max-steps)"
        /\ length (executed (run_single_command C))
           = Z.to_nat (Z.max 1 (MAX_STEPS C)))
    /\ (ended (run_single_command C) <> OutOfFuel
        /\ length (executed (run_single_command C))
           <= Z.to_nat (Z.max 1 (MAX_STEPS C))).

(** The response is a pointer action on which the extractor raises [e]. *)
Definition unreadable `{Builtins} (extract : pydict -> res point)
    (out : pydict) (e : exn) : Prop :=
  exists k,
    action_of "NOOP" out = Ok k /\ is_pointer_kind k = true
    /\ extract out = Raise e.

(** The response makes the code raise [e]: its action is no string, or it is
    a pointer action that the extractor cannot read. *)
Definition breaks `{Builtins} (extract : pydict -> res point)
    (out : pydict) (e : exn) : Prop :=
  action_of "NOOP" out = Raise e \/ unreadable extract out e.

(** The entry is the one tagged INVALID_COORDS for the response [raw]: the
    dict [{"action": "INVALID_COORDS", "raw": raw}] and nothing more. *)
Definition tagged_invalid (raw e : pydict) : Prop :=
  e !! "action" = Some (VStr "INVALID_COORDS")
  /\ e !! "raw" = Some (VDict raw)
  /\ size e = 2.

(** How the retry block is left on the answer that was not rejected: the
    answer is accepted as it is when it is of another kind, accepted with
    the validated point stored when it is a valid pointer action, ends the
    run when it carries the terminal kind, and raises when the code cannot
    read it. *)
Definition block_left `{Builtins} (extract : pydict -> res point)
    (C : collaborators) (answer : pydict) (d : decision) : Prop :=
  match d with
  | Accepted out =>
      (other_kind answer /\ out = answer)
      \/ (exists x y, valid_pointer extract C answer x y /\ out = store_xy answer x y)
  | Finished => terminal answer
  | Failed e => breaks extract answer e
  | NoValidAction => False
  end.

(** The scope of the retry block of a loop that trims with [trim] and reads
    coordinates with [extract]. *)
Definition retry_is_scoped `{Builtins}
    (trim : list pydict -> Z -> list pydict) (extract : pydict -> res point)
  : Prop :=
  forall C : collaborators,
    (forall (n q : nat) (history : list pydict),
       let out := ask_next_action C q (trim history 6%Z) in
       rejected extract C out ->
       exists e,
         tagged_invalid out e
         /\ attempt_loop trim extract C (S n) q history
            = attempt_loop trim extract C n (S q) (history ++ [e]))
    /\ (forall (n q : nat) (history : list pydict),
          let out := ask_next_action C q (trim history 6%Z) in
          other_kind out ->
          attempt_loop trim extract C (S n) q history
          = (Accepted out, history, S q))
    /\ (forall (q : nat) (history : list pydict),
          exists raws entries,
            let '(d, history', q') :=
              attempt_loop trim extract C (Z.to_nat (MODEL_RETRY C + 1)) q history in
            history' = history ++ entries
            /\ Forall2 tagged_invalid raws entries
            /\ Forall (rejected extract C) raws
            /\ (forall i raw, raws !! i = Some raw ->
                  raw = ask_next_action C (q + i) (trim (history ++ take i entries) 6%Z))
            /\ q' = q + length raws + last_query d
            /\ (Z.of_nat q' <= Z.of_nat q + Z.max 0 (MODEL_RETRY C + 1))%Z
            /\ match d with
               | NoValidAction => length raws = Z.to_nat (MODEL_RETRY C + 1)
               | _ => block_left extract C
                        (ask_next_action C (q + length raws) (trim history' 6%Z)) d
               end).

(** Modelled from the spec: [validate_xy] of [src/guards.py] is not among the
    sources.  Section 4.2: it rejects NaN and non-numeric values, rejects
    coordinates outside [0,1] x [0,1], and otherwise accepts. *)
Definition meets_validator_contract (validate : pyfloat -> pyfloat -> bool * string) : Prop :=
  forall x y, fst (validate x y) = true <-> in_unit x /\ in_unit y.

(** The point an executed pointer action carries lies in the unit square. *)
Definition carries_unit_point `{Builtins} (e : pydict) : Prop :=
  is_pointer_action e ->
  exists x y,
    e !! "x" = Some (VFloat x) /\ e !! "y" = Some (VFloat y)
    /\ in_unit x /\ in_unit y.

(** ** Concrete responses, views and collaborators *)

(** The responses used below. *)
Definition out_x_none : pydict := {[ "x" := VNone ]}.
Definition out_bbox : pydict :=
  {[ "position" := VList [fl (1#4); fl (1#2); fl (3#4); VInt 1] ]}.
Definition out_odd_position : pydict := {[ "position" := VStr "center" ]}.
Definition out_y_text : pydict := <["x" := fl (1#4)]> {[ "y" := VStr "left" ]}.
Definition out_two_points : pydict :=
  <["x" := VNone]>
    {[ "position" := VList [VList [fl (1#4); fl (1#2)]; VTuple [fl (3#4); VInt 1]] ]}.
Definition out_huge_bbox : pydict :=
  {[ "position" := VList [VFloat (Finite (Q2Qc (inject_Z (2 ^ 1023)))); VInt 0;
                          VFloat (Finite (Q2Qc (inject_Z (2 ^ 1023)))); VInt 0] ]}.
Definition out_x_pair : pydict :=
  <["x" := VList [fl (1#4); fl (3#4)]]> {[ "y" := fl (1#2) ]}.
Definition out_x_unguarded : pydict :=
  <["x" := VList [VNone; VInt 1]]> {[ "y" := VList [fl (1#5); fl (3#10)] ]}.

(** A view with a frame drawn at the rectangle (10, 20, 100, 50). *)
Definition view_100x50 : VMView.view :=
  VMView.View (Some (VMView.Pixmap 200 100)) (Some (10, 20, 100, 50)%Z)
    true None (Q2Qc 0).

(** Four moves after a press at (35, 45): the second comes too early, the
    third falls into the padding, the fourth is forwarded again. *)
Definition four_moves : list (Z * Z * Qc) :=
  [(60, 45, Q2Qc 1); (85, 45, Q2Qc (101 # 100)); (5, 45, Q2Qc 2);
   (85, 45, Q2Qc (5 # 2))]%Z.

(** An image taken as its size alone. *)
Definition sized_resize (img : Z * Z) (new_size : Z * Z) : Z * Z := new_size.

(** A drawing that takes every box with a radius that is not negative. *)
Definition recorded_ellipse (box : Z * Z * Z * Z) : res unit :=
  let '(x0, y0, x1, y1) := box in
  if (x0 <=? x1)%Z && (y0 <=? y1)%Z then Ok tt else Raise ValueError.

(** The float nearest to 1/3, [0.3333333333333333]. *)
Definition third_as_float : Qc := Q2Qc (6004799503160661 # 18014398509481984).

(** Concrete collaborators.  The validator accepts the finite points of the
    unit square; the repeat guard never fires; no stop event is given. *)
Definition Qc_leb (a b : Qc) : bool := negb (VMView.Qc_ltb b a).

Definition in_unit_b (f : pyfloat) : bool :=
  match f with
  | Finite q => Qc_leb (Q2Qc 0) q && Qc_leb q (Q2Qc 1)
  | _ => false
  end.

Definition unit_validator (x y : pyfloat) : bool * string :=
  if in_unit_b x && in_unit_b y then (true, "ok") else (false, "out of range").

Definition click_at (x y : Q) : pydict :=
  <["action" := VStr "click"]> (<["x" := fl x]> {[ "y" := fl y ]}).

Definition scripted (answer : nat -> pydict) (retry max_steps : Z) : collaborators :=
  {| ask_next_action := fun q _ => answer q;
     validate_xy := unit_validator;
     should_stop_on_repeat := fun _ _ => (false, "");
     stop_event := None;
     MODEL_RETRY := retry;
     MAX_STEPS := max_steps |}.

(** Every answer is a click at (1.2, 0.3). *)
Definition bad_clicks : collaborators :=
  scripted (fun _ => click_at (6#5) (3#10)) 2 30.

(** Every answer is the action DONE; two steps. *)
Definition done_answers : collaborators :=
  scripted (fun _ => {[ "action" := VStr "DONE" ]}) 2 2.

(** Every answer is a click at (0.25, 0.5); two steps. *)
Definition good_clicks : collaborators :=
  scripted (fun _ => click_at (1#4) (1#2)) 2 2.

(** ** The terms of the further properties *)

(** A coordinate field and the float it is read as: 0.5 when the key is
    missing, the number under the key otherwise. *)
Definition coordinate `{Builtins} (field : option pyval) (f : pyfloat) : Prop :=
  match field with
  | None => f = Finite half
  | Some v => number v f
  end.

(** The query that ended the run without being executed or rejected: the
    one answered with the terminal kind, the one the repeat guard stopped,
    or the one on which the code raised. *)
Definition ending_query (e : ending) : nat :=
  match e with
  | Returned result =>
      if String.eqb result "DONE(BITTI)" || String.eqb result "DONE(repeat-guard)"
      then 1 else 0
  | Raised _ => 1
  | OutOfFuel => 0
  end.

(** Every query of a run is accounted for, and so is every entry of its
    history. *)
Definition run_accounted `{Builtins}
    (extract : pydict -> res point) (run_single_command : collaborators -> run)
  : Prop :=
  forall C : collaborators,
    exists raws,
      executed (run_single_command C) `sublist_of` final_history (run_single_command C)
      /\ final_history (run_single_command C)
          ≡ₚ executed (run_single_command C) ++ map invalid_entry raws
      /\ Forall (rejected extract C) raws
      /\ queries (run_single_command C)
          = length (executed (run_single_command C)) + length raws
            + ending_query (ended (run_single_command C)).

(** The number of model queries of a run is bounded by the configuration. *)
Definition query_budget (run_single_command : collaborators -> run) : Prop :=
  forall C : collaborators,
    queries (run_single_command C)
    <= Z.to_nat (Z.max 1 (MAX_STEPS C)) * Z.to_nat (MODEL_RETRY C + 1).

(** When and how a run is stopped. *)
Definition stop_observed (run_single_command : collaborators -> run) : Prop :=
  forall C : collaborators,
    (stop_event C = None -> ended (run_single_command C) <> Returned "STOPPED")
    /\ (ended (run_single_command C) = Returned "STOPPED" ->
        stop_is_set C (Z.of_nat (length (executed (run_single_command C))) + 1) = true
        /\ forall s, (1 <= s <= Z.of_nat (length (executed (run_single_command C))))%Z ->
                     stop_is_set C s = false)
    /\ (stop_is_set C 1 = true ->
        run_single_command C = Run (Returned "STOPPED") [] [] 0).

(** A response that makes the code raise ends the run. *)
Definition raise_ends_run `{Builtins}
    (extract : pydict -> res point) (run_single_command : collaborators -> run)
  : Prop :=
  forall (C : collaborators) (e : exn),
    (0 <= MODEL_RETRY C)%Z ->
    stop_is_set C 1 = false ->
    (forall h, breaks extract (ask_next_action C 0 h) e) ->
    run_single_command C = Run (Raised e) [] [] 1.

(** Every answer is a click whose [x] is null. *)
Definition null_clicks : collaborators :=
  scripted (fun _ => <["action" := VStr "click"]> {[ "x" := VNone ]}) 2 30.

(** The stop event is set from the head of step 3 on. *)
Definition stopped_at_three : collaborators :=
  {| ask_next_action := fun _ _ => click_at (1#4) (1#2);
     validate_xy := unit_validator;
     should_stop_on_repeat := fun _ _ => (false, "");
     stop_event := Some (fun step => (3 <=? step)%Z);
     MODEL_RETRY := 2;
     MAX_STEPS := 30 |}.

(** A number that converts to a float of the closed unit interval. *)
Definition unit_number `{Builtins} (v : pyval) : Prop :=
  exists f, number v f /\ in_unit f.

(** ** The terms of the view's further properties *)

(** The event is not the busy signal. *)
Definition not_busy_signal (e : VMInput.gui_event) : Prop :=
  match e with VMInput.Busy _ => False | _ => True end.

(** The event is not a paint. *)
Definition not_paint (e : VMInput.gui_event) : Prop :=
  match e with VMInput.Paint _ _ => False | _ => True end.

(** The call comes from the wheel or the keyboard. *)
Definition from_keys (c : VMInput.forwarded) : Prop :=
  match c with VMInput.SandboxCall _ => True | VMInput.PointerCall _ => False end.

(** The text of a key event that the handler types: one printable
    character. *)
Definition typeable `{VMInput.Toolkit} (txt : string) : bool :=
  negb (String.eqb txt "") && VMInput.str_isprintable txt
  && Nat.eqb (VMInput.str_len txt) 1.

(** A press of the left button at (35, 45), the busy signal, a release while
    busy, the end of the run, and a move to (60, 45). *)
Definition release_while_busy : list VMInput.gui_event :=
  [VMInput.Pointer (VMView.Press 35 45 VMView.LeftButton);
   VMInput.Busy true;
   VMInput.Pointer VMView.Release;
   VMInput.Busy false;
   VMInput.Pointer (VMView.Move 60 45 (Q2Qc 1))].

Definition no_modifiers : VMInput.KeyboardModifiers :=
  {| VMInput.ControlModifier := false; VMInput.AltModifier := false;
     VMInput.ShiftModifier := false; VMInput.MetaModifier := false |}.

(** The action a run ended on without executing it, because the repeat guard
    fired: one or none. *)
Definition guard_stopped (e : ending) : Z :=
  match e with
  | Returned result => if String.eqb result "DONE(repeat-guard)" then 1 else 0
  | _ => 0
  end.

(** Every answer is a click at (0.25, 0.5) and the repeat guard fires on the
    third. *)
Definition guarded_clicks : collaborators :=
  {| ask_next_action := fun _ _ => click_at (1#4) (1#2);
     validate_xy := unit_validator;
     should_stop_on_repeat := fun h _ => (Nat.leb 2 (length h), "repeat");
     stop_event := None;
     MODEL_RETRY := 2;
     MAX_STEPS := 30 |}.


(** Two run requests with a stop between them, and a third while the
    second run is alive. *)
Definition two_runs : list Window.event :=
  [Window.SandboxReady; Window.ModelReady;
   Window.OnRun "open terminal"; Window.WorkerBegins 0; Window.OnStop;
   Window.ThreadEnds 0; Window.OnStop;
   Window.OnRun "open browser"; Window.WorkerBegins 2;
   Window.OnRun "open files"].

(** The event created for a started run. *)
Definition run_event (r : nat * nat * string) : nat := r.1.2.

(** What holds of a window whatever has happened to it. *)
Record window_inv (w : Window.state) : Prop := WindowInv {
  inv_alive : forall t, t ∈ Window.alive w -> Window.worker_thread w = Some t;
  inv_latest :
    match Window.started w with
    | [] => Window.worker_thread w = None /\ Window.stop_event w = None
    | (t, ev, _) :: _ => Window.worker_thread w = Some t /\ Window.stop_event w = Some ev
    end;
  inv_started : forall t ev o, (t, ev, o) ∈ Window.started w ->
    t < Window.fresh w /\ ev < Window.fresh w;
  inv_set : forall ev, ev ∈ Window.set_events w -> ev < Window.fresh w;
  inv_nodup : NoDup (run_event <$> Window.started w);
  inv_handed : forall t oev, (t, oev) ∈ Window.handed w ->
    exists ev o, oev = Some ev /\ (t, ev, o) ∈ Window.started w
}.

(** At most one worker: a thread that is alive is the one the window holds. *)
Definition one_worker (w : Window.state) : Prop :=
  (forall t, t ∈ Window.alive w -> Window.worker_thread w = Some t)
  /\ size (Window.alive w) <= 1.

(** Every worker was handed the event created for its own run, and no two
    runs share an event. *)
Definition own_stop_event (w : Window.state) : Prop :=
  (forall t oev, (t, oev) ∈ Window.handed w ->
     exists ev objective, oev = Some ev /\ (t, ev, objective) ∈ Window.started w)
  /\ NoDup (run_event <$> Window.started w).

(** The window holds an event and it has not been set. *)
Definition stop_event_clear (w : Window.state) : Prop :=
  exists ev, Window.stop_event w = Some ev /\ ev ∉ Window.set_events w.

(** * Part III: properties *)

(** ** Rounding to binary64 *)

Module RoundFacts.

Lemma pow2_pos (k : Z) : (0 < pow2 k)%Q.
Proof. by apply Qpower_0_lt. Qed.

Lemma pow2_add (a b : Z) : (pow2 (a + b) == pow2 a * pow2 b)%Q.
Proof. by apply Qpower_plus. Qed.

Lemma pow2_le (a b : Z) : (a <= b)%Z -> (pow2 a <= pow2 b)%Q.
Proof. intros Hab. by apply Qpower_le_compat_l. Qed.

Lemma pow2_lt (a b : Z) : (a < b)%Z -> (pow2 a < pow2 b)%Q.
Proof. intros Hab. by apply Qpower_lt_compat_l. Qed.

Lemma pow2_lt_inv (a b : Z) : (pow2 a < pow2 b)%Q -> (a < b)%Z.
Proof. intros Hab. by eapply Qpower_lt_compat_l_inv. Qed.

Lemma pow2_Z (k : Z) : (0 <= k)%Z -> (pow2 k == inject_Z (2 ^ k))%Q.
Proof. intros Hk. symmetry. by apply Zpower_Qpower. Qed.

Lemma pow2_succ (k : Z) : (pow2 (k + 1) == 2 * pow2 k)%Q.
Proof. rewrite pow2_add. change (pow2 1) with 2%Q. ring. Qed.

Lemma pow2_sub (a b : Z) : (pow2 (a - b) == pow2 a / pow2 b)%Q.
Proof. by apply Qpower_minus. Qed.

Lemma inject_Z_pos (n : Z) : (0 < n)%Z -> (0 < inject_Z n)%Q.
Proof. intros Hn. unfold Qlt. simpl. lia. Qed.

(** Fractions of integers, compared by cross multiplication. *)
Lemma Zfrac_lt (a c b d : Z) :
  (0 < b)%Z -> (0 < d)%Z -> (a * d < c * b)%Z ->
  (inject_Z a / inject_Z b < inject_Z c / inject_Z d)%Q.
Proof.
  intros Hb Hd Hlt.
  rewrite <- (Z2Pos.id b), <- (Z2Pos.id d) by done.
  rewrite <- !Qmake_Qdiv. unfold Qlt. simpl. by rewrite !Z2Pos.id by done.
Qed.

Lemma Zfrac_le (a c b d : Z) :
  (0 < b)%Z -> (0 < d)%Z -> (a * d <= c * b)%Z ->
  (inject_Z a / inject_Z b <= inject_Z c / inject_Z d)%Q.
Proof.
  intros Hb Hd Hle.
  rewrite <- (Z2Pos.id b), <- (Z2Pos.id d) by done.
  rewrite <- !Qmake_Qdiv. unfold Qle. simpl. by rewrite !Z2Pos.id by done.
Qed.

Lemma binade_spec (q : Q) :
  (0 < q)%Q -> (pow2 (binade q) <= q)%Q /\ (q < pow2 (binade q + 1))%Q.
Proof.
  intros Hq. destruct q as [n d]. unfold binade. cbn [Qnum Qden].
  assert (Hn : (0 < n)%Z) by (unfold Qlt in Hq; simpl in Hq; lia).
  set (x := Z.log2 n). set (y := Z.log2 (Z.pos d)).
  assert (Hx : (0 <= x)%Z) by apply Z.log2_nonneg.
  assert (Hy : (0 <= y)%Z) by apply Z.log2_nonneg.
  destruct (Z.log2_spec n Hn) as [Hn1 Hn2]. fold x in Hn1, Hn2.
  destruct (Z.log2_spec (Z.pos d)) as [Hd1 Hd2]; [done|]. fold y in Hd1, Hd2.
  rewrite <- Z.add_1_r in Hn2, Hd2.
  rewrite Z.pow_add_r in Hn2, Hd2 by lia. change (2 ^ 1)%Z with 2%Z in *.
  assert (Hpx : (0 < 2 ^ x)%Z) by (apply Z.pow_pos_nonneg; lia).
  assert (Hpy : (0 < 2 ^ y)%Z) by (apply Z.pow_pos_nonneg; lia).
  assert (Hform : forall j : Z, (0 <= j)%Z ->
            (pow2 (x + j - y) == inject_Z (2 ^ (x + j)) / inject_Z (2 ^ y))%Q).
  { intros j Hj. rewrite pow2_sub, !pow2_Z by lia. reflexivity. }
  assert (Hup : (n # d < pow2 (x - y + 1))%Q).
  { replace (x - y + 1)%Z with (x + 1 - y)%Z by lia.
    rewrite (Hform 1%Z) by lia. rewrite (Qmake_Qdiv n d).
    apply Zfrac_lt; [done|done|]. rewrite Z.pow_add_r by lia.
    change (2 ^ 1)%Z with 2%Z. nia. }
  destruct (Qle_bool (pow2 (x - y)) (n # d)) eqn:Hb.
  - split; [by apply Qle_bool_iff|done].
  - split.
    + replace (x - y - 1)%Z with (x + 0 - (y + 1))%Z by lia.
      rewrite pow2_sub, !pow2_Z by lia. rewrite (Qmake_Qdiv n d).
      apply Zfrac_le; [|done|].
      * apply Z.pow_pos_nonneg; lia.
      * rewrite Z.add_0_r, Z.pow_add_r by lia. change (2 ^ 1)%Z with 2%Z. nia.
    + replace (x - y - 1 + 1)%Z with (x - y)%Z by lia.
      apply Qnot_le_lt. intros Hle. apply Qle_bool_iff in Hle. congruence.
Qed.

Lemma binade_unique (q : Q) (e : Z) :
  (pow2 e <= q)%Q -> (q < pow2 (e + 1))%Q -> binade q = e.
Proof.
  intros Hlo Hhi.
  assert (Hq : (0 < q)%Q) by (eapply Qlt_le_trans; [apply (pow2_pos e)|done]).
  destruct (binade_spec q Hq) as [Hlo' Hhi'].
  assert (binade q < e + 1)%Z.
  { apply pow2_lt_inv. eapply Qle_lt_trans; [exact Hlo'|exact Hhi]. }
  assert (e < binade q + 1)%Z.
  { apply pow2_lt_inv. eapply Qle_lt_trans; [exact Hlo|exact Hhi']. }
  lia.
Qed.

Lemma binade_mono (p q : Q) :
  (0 < p)%Q -> (p <= q)%Q -> (binade p <= binade q)%Z.
Proof.
  intros Hp Hpq.
  assert (Hq : (0 < q)%Q) by (eapply Qlt_le_trans; done).
  destruct (binade_spec p Hp) as [Hlo _]. destruct (binade_spec q Hq) as [_ Hhi].
  assert (binade p < binade q + 1)%Z; [|lia].
  apply pow2_lt_inv. eapply Qle_lt_trans; [exact Hlo|].
  eapply Qle_lt_trans; [exact Hpq|exact Hhi].
Qed.

(** ** The nearest integer *)

Lemma rne_bounds (x : Q) : (Qfloor x <= rne x <= Qfloor x + 1)%Z.
Proof.
  unfold rne.
  destruct (x - inject_Z (Qfloor x) ?= 1 # 2)%Q; [destruct (Z.even _)| |]; lia.
Qed.

Lemma rne_ge_int (x : Q) (N : Z) : (inject_Z N <= x)%Q -> (N <= rne x)%Z.
Proof.
  intros HN. apply Qfloor_resp_le in HN. rewrite Qfloor_Z in HN.
  pose proof (rne_bounds x). lia.
Qed.

Lemma rne_le_int (x : Q) (N : Z) : (x <= inject_Z N)%Q -> (rne x <= N)%Z.
Proof.
  intros HN. pose proof (Qfloor_le x) as Hf.
  assert (Hle : (Qfloor x <= N)%Z).
  { rewrite Zle_Qle. by eapply Qle_trans. }
  destruct (Z.eq_dec (Qfloor x) N) as [Heq|Hne].
  - unfold rne. rewrite Heq.
    assert (Hx : (x - inject_Z N <= 0)%Q) by lra.
    destruct (Qcompare_spec (x - inject_Z N) (1 # 2)) as [E|E|E]; [lra|lia|lra].
  - pose proof (rne_bounds x). lia.
Qed.

Lemma rne_lt_int (x : Q) (N : Z) : (x + (1 # 2) < inject_Z N)%Q -> (rne x < N)%Z.
Proof.
  intros HN. pose proof (Qfloor_le x) as Hf.
  unfold rne.
  destruct (Qcompare_spec (x - inject_Z (Qfloor x)) (1 # 2)) as [E|E|E].
  - assert (Hlt : (inject_Z (Qfloor x + 1) < inject_Z N)%Q).
    { rewrite inject_Z_plus. change (inject_Z 1) with 1%Q. lra. }
    rewrite <- Zlt_Qlt in Hlt. destruct (Z.even _); lia.
  - rewrite Zlt_Qlt. lra.
  - assert (Hlt : (inject_Z (Qfloor x + 1) < inject_Z N)%Q).
    { rewrite inject_Z_plus. change (inject_Z 1) with 1%Q. lra. }
    rewrite <- Zlt_Qlt in Hlt. lia.
Qed.

Lemma rne_mono (x y : Q) : (x <= y)%Q -> (rne x <= rne y)%Z.
Proof.
  intros Hxy. pose proof (Qfloor_resp_le _ _ Hxy) as Hf.
  destruct (Z.eq_dec (Qfloor x) (Qfloor y)) as [Heq|Hne].
  - unfold rne. rewrite Heq.
    destruct (Qcompare_spec (x - inject_Z (Qfloor y)) (1 # 2)) as [E1|E1|E1],
             (Qcompare_spec (y - inject_Z (Qfloor y)) (1 # 2)) as [E2|E2|E2];
      try destruct (Z.even _); try lia; lra.
  - pose proof (rne_bounds x). pose proof (rne_bounds y). lia.
Qed.


(** ** The grid *)

Lemma on_grid_finer (k j : Z) (r : Q) :
  (k <= j)%Z -> on_grid j r -> on_grid k r.
Proof.
  intros Hkj [N HN]. exists (N * 2 ^ (j - k))%Z.
  rewrite HN, inject_Z_mult, <- pow2_Z by lia.
  replace j with ((j - k) + k)%Z at 1 by lia. rewrite pow2_add. ring.
Qed.

Lemma on_grid_pow2 (k e : Z) : (k <= e)%Z -> on_grid k (pow2 e).
Proof.
  intros Hke. apply (on_grid_finer k e); [done|]. exists 1%Z.
  change (inject_Z 1) with 1%Q. ring.
Qed.

Lemma on_grid_int (k n : Z) : (k <= 0)%Z -> on_grid k (inject_Z n).
Proof.
  intros Hk. apply (on_grid_finer k 0); [done|]. exists n.
  change (pow2 0) with 1%Q. ring.
Qed.

Lemma ulp_exp_le_binade (q : Q) : (-1074 <= binade q)%Z -> (ulp_exp q <= binade q)%Z.
Proof. unfold ulp_exp. lia. Qed.

Lemma ulp_exp_mono (p q : Q) :
  (0 < p)%Q -> (p <= q)%Q -> (ulp_exp p <= ulp_exp q)%Z.
Proof. intros Hp Hpq. pose proof (binade_mono p q Hp Hpq). unfold ulp_exp. lia. Qed.

(** ** Rounding a positive rational *)

Lemma round_pos_le (q r : Q) :
  (q <= r)%Q -> on_grid (ulp_exp q) r -> (round_pos q <= r)%Q.
Proof.
  intros Hqr [N HN]. unfold round_pos. rewrite HN.
  apply Qmult_le_compat_r; [|apply Qlt_le_weak, pow2_pos].
  rewrite <- Zle_Qle. apply rne_le_int.
  apply Qle_shift_div_r; [apply pow2_pos|]. by rewrite <- HN.
Qed.

Lemma round_pos_ge (q r : Q) :
  (r <= q)%Q -> on_grid (ulp_exp q) r -> (r <= round_pos q)%Q.
Proof.
  intros Hqr [N HN]. unfold round_pos. rewrite HN.
  apply Qmult_le_compat_r; [|apply Qlt_le_weak, pow2_pos].
  rewrite <- Zle_Qle. apply rne_ge_int.
  apply Qle_shift_div_l; [apply pow2_pos|]. by rewrite <- HN.
Qed.

Lemma round_pos_lt (q r : Q) :
  (q + pow2 (ulp_exp q - 1) < r)%Q -> on_grid (ulp_exp q) r -> (round_pos q < r)%Q.
Proof.
  intros Hqr [N HN]. unfold round_pos. rewrite HN.
  apply Qmult_lt_compat_r; [apply pow2_pos|].
  rewrite <- Zlt_Qlt. apply rne_lt_int.
  pose proof (pow2_pos (ulp_exp q)) as Hk.
  assert (Hhalf : (pow2 (ulp_exp q - 1) == (1 # 2) * pow2 (ulp_exp q))%Q).
  { replace (ulp_exp q) with ((ulp_exp q - 1) + 1)%Z at 2 by lia.
    rewrite pow2_succ. ring. }
  rewrite Hhalf, HN in Hqr.
  apply (Qmult_lt_r _ _ (pow2 (ulp_exp q))); [done|].
  assert (Hne : ~ (pow2 (ulp_exp q) == 0)%Q) by lra.
  assert (E : ((q / pow2 (ulp_exp q) + (1 # 2)) * pow2 (ulp_exp q)
               == q + (1 # 2) * pow2 (ulp_exp q))%Q) by (field; done).
  by rewrite E.
Qed.

Lemma round_pos_nonneg (q : Q) : (0 <= q)%Q -> (0 <= round_pos q)%Q.
Proof.
  intros Hq. apply round_pos_ge; [done|]. exists 0%Z. change (inject_Z 0) with 0%Q. ring.
Qed.

Lemma round_pos_le_repr (q r : Q) :
  (0 < q)%Q -> (q <= r)%Q -> representable r -> (round_pos q <= r)%Q.
Proof.
  intros Hq Hqr Hr. apply round_pos_le; [done|].
  eapply on_grid_finer; [|exact Hr]. by apply ulp_exp_mono.
Qed.

Lemma round_pos_ge_binade (q : Q) :
  (0 < q)%Q -> (-1074 <= binade q)%Z -> (pow2 (binade q) <= round_pos q)%Q.
Proof.
  intros Hq He. apply round_pos_ge; [by apply binade_spec|].
  by apply on_grid_pow2, ulp_exp_le_binade.
Qed.

Lemma round_pos_ge_repr (q r : Q) :
  (0 < r)%Q -> (r <= q)%Q -> representable r -> (r <= round_pos q)%Q.
Proof.
  intros Hr Hrq Hrep.
  assert (Hq : (0 < q)%Q) by (eapply Qlt_le_trans; done).
  pose proof (binade_mono r q Hr Hrq) as Hb.
  destruct (Z.eq_dec (ulp_exp r) (ulp_exp q)) as [Heq|Hne].
  - apply round_pos_ge; [done|]. by rewrite <- Heq.
  - assert (Hlt : (binade r < binade q)%Z /\ (-1022 < binade q)%Z)
      by (unfold ulp_exp in Hne; lia).
    destruct (binade_spec r Hr) as [_ Hhi].
    eapply Qle_trans; [apply Qlt_le_weak, Hhi|].
    eapply Qle_trans; [apply (pow2_le _ (binade q)); lia|].
    apply round_pos_ge_binade; [done|lia].
Qed.

Lemma round_pos_mono (p q : Q) :
  (0 < p)%Q -> (p <= q)%Q -> (round_pos p <= round_pos q)%Q.
Proof.
  intros Hp Hpq.
  assert (Hq : (0 < q)%Q) by (eapply Qlt_le_trans; done).
  pose proof (binade_mono p q Hp Hpq) as Hb.
  destruct (Z.eq_dec (ulp_exp p) (ulp_exp q)) as [Heq|Hne].
  - unfold round_pos. rewrite Heq.
    apply Qmult_le_compat_r; [|apply Qlt_le_weak, pow2_pos].
    rewrite <- Zle_Qle. apply rne_mono.
    apply Qmult_le_compat_r; [done|]. apply Qlt_le_weak, Qinv_lt_0_compat, pow2_pos.
  - assert (Hlt : (binade p < binade q)%Z /\ (-1022 < binade q)%Z)
      by (unfold ulp_exp in Hne; lia).
    apply (Qle_trans _ (pow2 (binade q))).
    + apply round_pos_le.
      * destruct (binade_spec p Hp) as [_ Hhi].
        eapply Qle_trans; [apply Qlt_le_weak, Hhi|]. apply pow2_le. lia.
      * apply on_grid_pow2. unfold ulp_exp. lia.
    + apply round_pos_ge_binade; [done|lia].
Qed.

(** ** Rounding any rational *)

Lemma binade_comp (p q : Q) : (0 < p)%Q -> (p == q)%Q -> binade p = binade q.
Proof.
  intros Hp Hpq. destruct (binade_spec p Hp) as [Hlo Hhi].
  symmetry. apply binade_unique; by rewrite <- Hpq.
Qed.

Lemma round_pos_comp (p q : Q) : (0 < p)%Q -> (p == q)%Q -> (round_pos p == round_pos q)%Q.
Proof.
  intros Hp Hpq. unfold round_pos, ulp_exp.
  rewrite (binade_comp p q Hp Hpq).
  assert (E : (p / pow2 (Z.max (binade q) (-1022) - 52)
               == q / pow2 (Z.max (binade q) (-1022) - 52))%Q) by (by rewrite Hpq).
  unfold rne. rewrite (Qfloor_comp _ _ E). by rewrite E.
Qed.

Lemma round_fin_pos (q : Q) : (0 < q)%Q -> round_fin q = round_pos q.
Proof.
  intros Hq. unfold round_fin.
  destruct (Qcompare_spec q 0) as [E|E|E]; [lra|lra|done].
Qed.

Lemma round_fin_zero (q : Q) : (q == 0)%Q -> round_fin q = 0%Q.
Proof.
  intros Hq. unfold round_fin.
  destruct (Qcompare_spec q 0) as [E|E|E]; [done|lra|lra].
Qed.

Lemma round_fin_comp (p q : Q) : (p == q)%Q -> (round_fin p == round_fin q)%Q.
Proof.
  intros Hpq. unfold round_fin. rewrite <- Hpq.
  destruct (Qcompare_spec p 0) as [E|E|E]; [reflexivity| |].
  - apply Qopp_comp, round_pos_comp; [lra|by rewrite Hpq].
  - by apply round_pos_comp.
Qed.

Lemma round_fin_nonneg (q : Q) : (0 <= q)%Q -> (0 <= round_fin q)%Q.
Proof.
  intros Hq. unfold round_fin.
  destruct (Qcompare_spec q 0) as [E|E|E]; [lra|lra|].
  by apply round_pos_nonneg.
Qed.

Lemma round_fin_nonpos (q : Q) : (q <= 0)%Q -> (round_fin q <= 0)%Q.
Proof.
  intros Hq. unfold round_fin.
  destruct (Qcompare_spec q 0) as [E|E|E]; [lra| |lra].
  assert (0 <= round_pos (- q))%Q by (apply round_pos_nonneg; lra). lra.
Qed.

Lemma round_fin_le_repr (q r : Q) :
  (0 <= q)%Q -> (q <= r)%Q -> representable r -> (round_fin q <= r)%Q.
Proof.
  intros Hq Hqr Hr. destruct (Qlt_le_dec 0 q) as [Hpos|Hle].
  - rewrite round_fin_pos by done. by apply round_pos_le_repr.
  - rewrite round_fin_zero by lra. lra.
Qed.

Lemma round_fin_ge_repr (q r : Q) :
  (0 < r)%Q -> (r <= q)%Q -> representable r -> (r <= round_fin q)%Q.
Proof.
  intros Hr Hrq Hrep. rewrite round_fin_pos by lra. by apply round_pos_ge_repr.
Qed.

Lemma round_fin_mono (p q : Q) :
  (0 <= p)%Q -> (p <= q)%Q -> (round_fin p <= round_fin q)%Q.
Proof.
  intros Hp Hpq. destruct (Qlt_le_dec 0 p) as [Hpos|Hle].
  - rewrite !round_fin_pos by lra. by apply round_pos_mono.
  - rewrite (round_fin_zero p) by lra. apply round_fin_nonneg. lra.
Qed.

(** ** Integers *)

Lemma binade_below (q : Q) (e : Z) : (0 < q)%Q -> (q < pow2 e)%Q -> (binade q < e)%Z.
Proof.
  intros Hq Hlt. destruct (binade_spec q Hq) as [Hlo _].
  apply pow2_lt_inv. by eapply Qle_lt_trans.
Qed.

Lemma binade_above (q : Q) (e : Z) : (pow2 e <= q)%Q -> (e <= binade q)%Z.
Proof.
  intros Hle.
  assert (Hq : (0 < q)%Q) by (eapply Qlt_le_trans; [apply (pow2_pos e)|done]).
  destruct (binade_spec q Hq) as [_ Hhi].
  assert (e < binade q + 1)%Z; [|lia].
  apply pow2_lt_inv. by eapply Qle_lt_trans.
Qed.

Lemma representable_int (n : Z) :
  (0 < n < 2 ^ 53)%Z -> representable (inject_Z n).
Proof.
  intros [Hn0 Hn]. apply on_grid_int.
  assert (binade (inject_Z n) < 53)%Z; [|unfold ulp_exp; lia].
  apply binade_below.
  - by apply inject_Z_pos.
  - rewrite (pow2_Z 53) by lia. by rewrite <- Zlt_Qlt.
Qed.

Lemma round_fin_int (n : Z) :
  (0 <= n < 2 ^ 53)%Z -> (round_fin (inject_Z n) == inject_Z n)%Q.
Proof.
  intros [Hn0 Hn]. destruct (Z.eq_dec n 0%Z) as [->|Hne]; [by rewrite round_fin_zero|].
  assert (Hq : (0 < inject_Z n)%Q) by (apply inject_Z_pos; lia).
  assert (Hr : representable (inject_Z n)) by (apply representable_int; lia).
  apply Qle_antisym.
  - apply round_fin_le_repr; [lra|lra|done].
  - apply round_fin_ge_repr; [done|lra|done].
Qed.

(** [floor] of the rounded quotient of two ints below [2^53] is the integer
    quotient: the rounding never reaches the next integer. *)
Lemma floor_round_quotient (a b : Z) :
  (0 <= a < 2 ^ 53)%Z -> (0 < b < 2 ^ 53)%Z ->
  Qfloor (round_fin (inject_Z a / inject_Z b)) = (a / b)%Z.
Proof.
  intros [Ha0 Ha] [Hb0 Hb].
  set (q := (inject_Z a / inject_Z b)%Q). set (n := (a / b)%Z).
  assert (HbQ : (0 < inject_Z b)%Q) by (by apply inject_Z_pos).
  destruct (Z.eq_dec a 0%Z) as [->|Hane].
  { rewrite round_fin_zero; [done|]. unfold q. change (inject_Z 0) with 0%Q.
    unfold Qdiv. ring. }
  assert (Hn : (n * b <= a < (n + 1) * b)%Z).
  { unfold n. pose proof (Z.mul_div_le a b Hb0).
    pose proof (Z.mul_succ_div_gt a b Hb0). lia. }
  assert (Hn0 : (0 <= n)%Z) by (apply Z.div_pos; lia).
  assert (Hq : (0 < q)%Q).
  { unfold q. apply Qlt_shift_div_l; [done|]. rewrite Qmult_0_l.
    apply inject_Z_pos. lia. }
  assert (Hqlo : (inject_Z n <= q)%Q).
  { unfold q. apply Qle_shift_div_l; [done|]. rewrite <- inject_Z_mult, <- Zle_Qle. lia. }
  assert (Hqhi : (q + 1 / inject_Z b <= inject_Z (n + 1))%Q).
  { unfold q.
    assert (E : (inject_Z a / inject_Z b + 1 / inject_Z b
                 == inject_Z (a + 1) / inject_Z b)%Q)
      by (rewrite inject_Z_plus; change (inject_Z 1) with 1%Q; field; lra).
    rewrite E. apply Qle_shift_div_r; [done|]. rewrite <- inject_Z_mult, <- Zle_Qle. lia. }
  assert (Hqa : (q <= inject_Z a)%Q).
  { unfold q. apply Qle_shift_div_r; [done|].
    rewrite <- inject_Z_mult, <- Zle_Qle. nia. }
  assert (He53 : (binade q < 53)%Z).
  { apply binade_below; [done|]. eapply Qle_lt_trans; [exact Hqa|].
    rewrite (pow2_Z 53) by lia. by rewrite <- Zlt_Qlt. }
  assert (Hem : (-53 <= binade q)%Z).
  { apply binade_above. apply (Qle_trans _ (inject_Z 1 / inject_Z b)).
    - assert (E : (pow2 (-53) == inject_Z 1 / inject_Z (2 ^ 53))%Q) by reflexivity.
      rewrite E. apply Zfrac_le; lia.
    - unfold q. apply Zfrac_le; [lia|lia|nia]. }
  assert (Hk : ulp_exp q = (binade q - 52)%Z) by (unfold ulp_exp; lia).
  assert (Hhalf : (pow2 (ulp_exp q - 1) < 1 / inject_Z b)%Q).
  { rewrite Hk. apply Qlt_shift_div_l; [done|].
    apply (Qmult_lt_r _ _ (pow2 53)); [apply pow2_pos|]. rewrite Qmult_1_l.
    assert (E : (pow2 (binade q - 52 - 1) * inject_Z b * pow2 53
                 == pow2 (binade q) * inject_Z b)%Q).
    { replace (binade q) with ((binade q - 52 - 1) + 53)%Z at 2 by lia.
      rewrite pow2_add. ring. }
    rewrite E. apply (Qle_lt_trans _ (inject_Z a)).
    - destruct (binade_spec q Hq) as [Hlo _].
      assert (E2 : (inject_Z a == q * inject_Z b)%Q) by (unfold q; field; lra).
      rewrite E2. apply Qmult_le_compat_r; [done|lra].
    - rewrite (pow2_Z 53) by lia. by rewrite <- Zlt_Qlt. }
  rewrite round_fin_pos by done.
  assert (Hlo : (inject_Z n <= round_pos q)%Q).
  { apply round_pos_ge; [done|]. apply on_grid_int. lia. }
  assert (Hhi : (round_pos q < inject_Z (n + 1))%Q).
  { apply round_pos_lt; [lra|]. apply on_grid_int. lia. }
  apply Z.le_antisymm.
  - assert (Qfloor (round_pos q) < n + 1)%Z; [|lia].
    rewrite Zlt_Qlt. eapply Qle_lt_trans; [apply Qfloor_le|done].
  - apply Qfloor_resp_le in Hlo. by rewrite Qfloor_Z in Hlo.
Qed.

(** ** The range check *)

Lemma round64_finite (q : Q) :
  (- pow2 1024 < round_fin q)%Q -> (round_fin q < pow2 1024)%Q ->
  round64 q = Finite (Q2Qc (round_fin q)).
Proof.
  intros Hlo Hhi. unfold round64.
  destruct (Qle_bool (pow2 1024) (round_fin q)) eqn:E1.
  { apply Qle_bool_iff in E1. lra. }
  destruct (Qle_bool (round_fin q) (- pow2 1024)) eqn:E2; [|done].
  apply Qle_bool_iff in E2. lra.
Qed.

(** A rounded value between [0] and [2^53] is finite. *)
Lemma round64_finite_small (q : Q) :
  (0 <= round_fin q)%Q -> (round_fin q <= inject_Z (2 ^ 53))%Q ->
  round64 q = Finite (Q2Qc (round_fin q)).
Proof.
  intros Hlo Hhi. pose proof (pow2_pos 1024). pose proof (pow2_lt 53 1024).
  rewrite (pow2_Z 53) in * by lia.
  apply round64_finite; [lra|]. eapply Qle_lt_trans; [exact Hhi|]. apply H0. lia.
Qed.

(** ** Where the result leaves the range *)

Lemma rne_ge_half_even (x : Q) (N : Z) :
  Z.even N = true -> (inject_Z N - (1 # 2) <= x)%Q -> (N <= rne x)%Z.
Proof.
  intros Heven Hx. pose proof (Qfloor_le x) as Hf. pose proof (Qlt_floor x) as Hc.
  rewrite inject_Z_plus in Hc. change (inject_Z 1) with 1%Q in Hc.
  assert (Hfn : (N - 1 <= Qfloor x)%Z).
  { assert (inject_Z (N - 1) < inject_Z (Qfloor x + 1))%Q as Hlt.
    { replace (N - 1)%Z with (N + -1)%Z by lia.
      rewrite !inject_Z_plus. change (inject_Z (-1)) with (-1)%Q.
      change (inject_Z 1) with 1%Q. lra. }
    rewrite <- Zlt_Qlt in Hlt. lia. }
  destruct (Z.eq_dec (Qfloor x) (N - 1)%Z) as [Heq|Hne].
  - unfold rne. rewrite Heq.
    assert (Hodd : Z.even (N - 1) = false).
    { rewrite Z.even_sub, Heven. reflexivity. }
    rewrite Hodd.
    assert (Hn : (inject_Z (N - 1) == inject_Z N - 1)%Q).
    { replace (N - 1)%Z with (N + -1)%Z by lia. rewrite inject_Z_plus.
      change (inject_Z (-1)) with (-1)%Q. ring. }
    destruct (Qcompare_spec (x - inject_Z (N - 1)) (1 # 2)) as [E|E|E]; try lia.
    rewrite Hn in E. lra.
  - pose proof (rne_bounds x). lia.
Qed.

(** The rounded value reaches [2^1024] exactly from [2^1024 - 2^970] on. *)
Lemma round_fin_overflow (q : Q) :
  (pow2 1024 <= round_fin q)%Q <-> (inject_Z float_int_limit <= q)%Q.
Proof.
  assert (HL : (inject_Z float_int_limit
                == (inject_Z (2 ^ 53) - (1 # 2)) * pow2 971)%Q)
    by (vm_compute; reflexivity).
  assert (HL' : (inject_Z float_int_limit == pow2 1024 - pow2 970)%Q)
    by (vm_compute; reflexivity).
  assert (H1023 : (pow2 1023 <= inject_Z float_int_limit)%Q)
    by (vm_compute; discriminate).
  assert (Htop : (inject_Z (2 ^ 53) * pow2 971 == pow2 1024)%Q)
    by (vm_compute; reflexivity).
  pose proof (pow2_pos 1024) as Hp. pose proof (pow2_pos 970) as Hp'.
  split.
  - intros Hr. apply Qnot_lt_le. intros Hq.
    destruct (Qlt_le_dec 0 q) as [Hpos|Hneg].
    2:{ pose proof (round_fin_nonpos q Hneg). lra. }
    rewrite round_fin_pos in Hr by done.
    assert (He : (binade q < 1024)%Z) by (apply binade_below; [done|lra]).
    destruct (Z.eq_dec (binade q) 1023%Z) as [E|E].
    + assert (round_pos q < pow2 1024)%Q; [|lra].
      assert (Hk : ulp_exp q = 971%Z) by (unfold ulp_exp; lia).
      apply round_pos_lt; rewrite Hk; [change (971 - 1)%Z with 970%Z; lra|].
      apply on_grid_pow2. lia.
    + assert (round_pos q <= pow2 1023)%Q.
      { apply round_pos_le.
        - destruct (binade_spec q Hpos) as [_ Hhi].
          eapply Qle_trans; [apply Qlt_le_weak, Hhi|]. apply pow2_le. lia.
        - apply on_grid_pow2. unfold ulp_exp. lia. }
      pose proof (pow2_lt 1023 1024). lra.
  - intros Hq.
    assert (Hpos : (0 < q)%Q) by (pose proof (pow2_pos 1023); lra).
    rewrite round_fin_pos by done.
    assert (He : (1023 <= binade q)%Z) by (apply binade_above; lra).
    destruct (Z.eq_dec (binade q) 1023%Z) as [E|E].
    + assert (Hk : ulp_exp q = 971%Z) by (unfold ulp_exp; lia).
      unfold round_pos. rewrite Hk, <- Htop.
      apply Qmult_le_compat_r; [|apply Qlt_le_weak, pow2_pos].
      rewrite <- Zle_Qle. apply rne_ge_half_even; [reflexivity|].
      apply Qle_shift_div_l; [apply pow2_pos|]. by rewrite <- HL.
    + eapply Qle_trans; [|apply round_pos_ge_binade; [done|lia]].
      apply pow2_le. lia.
Qed.

Lemma round_fin_opp (q : Q) : (round_fin (- q) == - round_fin q)%Q.
Proof.
  unfold round_fin.
  destruct (Qcompare_spec q 0) as [E|E|E], (Qcompare_spec (- q) 0) as [E'|E'|E'];
    try lra.
  rewrite (round_pos_comp (- - q) q); [reflexivity|lra|ring].
Qed.

(** [round64] gives an infinity exactly from [2^1024 - 2^970] on in
    magnitude: the bound at which [float] refuses an [int] is the bound at
    which a float result overflows. *)
Lemma round64_overflow (q : Q) :
  round64 q
  = if Qle_bool (inject_Z float_int_limit) q then PosInf
    else if Qle_bool q (- inject_Z float_int_limit) then NegInf
    else Finite (Q2Qc (round_fin q)).
Proof.
  unfold round64.
  assert (Hup : Qle_bool (pow2 1024) (round_fin q)
                = Qle_bool (inject_Z float_int_limit) q).
  { apply eq_true_iff_eq. rewrite !Qle_bool_iff. apply round_fin_overflow. }
  assert (Hdown : Qle_bool (round_fin q) (- pow2 1024)
                  = Qle_bool q (- inject_Z float_int_limit)).
  { apply eq_true_iff_eq. rewrite !Qle_bool_iff.
    pose proof (round_fin_overflow (- q)) as Ho. rewrite round_fin_opp in Ho.
    split; intros Hle.
    - assert (inject_Z float_int_limit <= - q)%Q; [apply Ho|]; lra.
    - assert (pow2 1024 <= - round_fin q)%Q; [apply Ho|]; lra. }
  rewrite Hup, Hdown. reflexivity.
Qed.

End RoundFacts.

(** ** Properties of the extractor *)

Section CodecFacts.
Context `{Builtins}.

Lemma number_not_seq v f : number v f -> seq_items v = None.
Proof. intros [Hn _]. by destruct v. Qed.

Lemma number_float v f : number v f -> py_float v = Ok f.
Proof. by intros [_ Hf]. Qed.

Lemma number_is v f : number v f -> is_int_or_float v = true.
Proof. by intros [Hn _]. Qed.

Lemma position_rules_none pos :
  position_shape pos = false -> position_rules pos = None.
Proof.
  unfold position_shape, list_shape, position_rules.
  destruct (seq_items pos) as [items|]; [|done].
  destruct (Nat.eqb (length items) 2), (Nat.eqb (length items) 4),
    (forallb is_int_or_float items), (forallb is_pair items); simpl; congruence.
Qed.

Lemma position_rules_absent (out : pydict) :
  no_position out ->
  position_rules (default VNone (out !! "position")) = None.
Proof.
  intros Hno. destruct (out !! "position") as [pos|] eqn:E; simpl; [|done].
  by apply position_rules_none, Hno.
Qed.


Lemma list_point_main_rules v items p :
  seq_items v = Some items -> list_point items p ->
  GuiMain.list_rules v = Some (Ok p).
Proof.
  intros Hs Hp. unfold GuiMain.list_rules. rewrite Hs.
  destruct Hp as [a b fa fb Ha Hb|x1 y1 x2 y2 fx1 fy1 fx2 fy2 H1 H2 H3 H4]; simpl.
  - rewrite (number_is _ _ Ha), (number_is _ _ Hb). simpl.
    unfold float_pair. by rewrite (number_float _ _ Ha), (number_float _ _ Hb).
  - rewrite (number_is _ _ H1), (number_is _ _ H2), (number_is _ _ H3),
      (number_is _ _ H4). simpl. unfold _center_from_bbox. simpl.
    by rewrite (number_float _ _ H1), (number_float _ _ H2),
      (number_float _ _ H3), (number_float _ _ H4).
Qed.

Lemma list_point_position_rules v items p :
  seq_items v = Some items -> list_point items p ->
  position_rules v = Some (Ok p).
Proof.
  intros Hs Hp. unfold position_rules. rewrite Hs.
  destruct Hp as [a b fa fb Ha Hb|x1 y1 x2 y2 fx1 fy1 fx2 fy2 H1 H2 H3 H4]; simpl.
  - rewrite (number_is _ _ Ha), (number_is _ _ Hb). simpl.
    unfold float_pair. by rewrite (number_float _ _ Ha), (number_float _ _ Hb).
  - rewrite (number_is _ _ H1), (number_is _ _ H2), (number_is _ _ H3),
      (number_is _ _ H4). simpl. unfold _center_from_bbox. simpl.
    by rewrite (number_float _ _ H1), (number_float _ _ H2),
      (number_float _ _ H3), (number_float _ _ H4).
Qed.

Lemma seq_not_number v items : seq_items v = Some items -> is_int_or_float v = false.
Proof. by destruct v. Qed.

Lemma seq_pair_is_pair v a b : seq_items v = Some [a; b] -> is_pair v = true.
Proof. unfold is_pair. by intros ->. Qed.

(** A sum within the float range does not overflow. *)
(** A sum leaves the floats where its rounded value does: [overflow] gives
    the infinities of [round64], at the same bound. *)
Lemma overflow_round64 (s : Qc) :
  overflow s
  = match round64 (this s) with
    | PosInf => PosInf
    | NegInf => NegInf
    | _ => Finite s
    end.
Proof.
  rewrite RoundFacts.round64_overflow. unfold overflow.
  by repeat case_match.
Qed.

(** [float(n)] raises where the rounded value is not finite. *)
Lemma float_of_int_round64 (n : Z) :
  Preview.float_of_int n
  = match round64 (inject_Z n) with
    | Finite q => Ok (Finite q)
    | _ => Raise OverflowError
    end.
Proof.
  rewrite RoundFacts.round64_overflow. unfold Preview.float_of_int.
  assert (Hlim : (0 < float_int_limit)%Z) by reflexivity.
  destruct (Z.ltb_spec (Z.abs n) float_int_limit) as [Hn|Hn].
  - destruct (Qle_bool (inject_Z float_int_limit) (inject_Z n)) eqn:E1.
    { apply Qle_bool_iff in E1. rewrite <- Zle_Qle in E1. lia. }
    destruct (Qle_bool (inject_Z n) (- inject_Z float_int_limit)) eqn:E2; [|done].
    apply Qle_bool_iff in E2. rewrite <- inject_Z_opp, <- Zle_Qle in E2. lia.
  - destruct (Qle_bool (inject_Z float_int_limit) (inject_Z n)) eqn:E1; [done|].
    destruct (Qle_bool (inject_Z n) (- inject_Z float_int_limit)) eqn:E2; [done|].
    exfalso.
    assert (H1 : ~ (inject_Z float_int_limit <= inject_Z n)%Q)
      by (intros Hle; apply Qle_bool_iff in Hle; congruence).
    assert (H2 : ~ (inject_Z n <= - inject_Z float_int_limit)%Q)
      by (intros Hle; apply Qle_bool_iff in Hle; congruence).
    rewrite <- Zle_Qle in H1. rewrite <- inject_Z_opp, <- Zle_Qle in H2. lia.
Qed.

Lemma overflow_in_range (s : Qc) : in_float_range s -> overflow s = Finite s.
Proof.
  intros [Hlo Hhi]. unfold overflow.
  destruct (Qle_bool (inject_Z float_int_limit) (this s)) eqn:E1.
  { apply Qle_bool_iff in E1. lra. }
  destruct (Qle_bool (this s) (- inject_Z float_int_limit)) eqn:E2; [|done].
  apply Qle_bool_iff in E2. lra.
Qed.

(** Within the float range the midpoint the code computes is the mean. *)
Lemma midpoint_mean (a c : Qc) :
  in_float_range (a + c) -> midpoint (Finite a) (Finite c) = Finite (mean a c).
Proof.
  intros Hr. unfold midpoint, fadd. rewrite (overflow_in_range _ Hr). simpl.
  unfold mean, Qcdiv. do 2 f_equal; by apply Qc_is_canon.
Qed.

Lemma centre_from_bbox x1 y1 x2 y2 p :
  centre x1 y1 x2 y2 p -> _center_from_bbox [x1; y1; x2; y2] = Ok p.
Proof.
  intros (a & b & c & d & H1 & H2 & H3 & H4 & Hx & Hy & ->).
  unfold _center_from_bbox. simpl.
  rewrite (number_float _ _ H1), (number_float _ _ H2),
    (number_float _ _ H3), (number_float _ _ H4). simpl.
  by rewrite (midpoint_mean _ _ Hx), (midpoint_mean _ _ Hy).
Qed.

Lemma centre_numbers x1 y1 x2 y2 p :
  centre x1 y1 x2 y2 p -> forallb is_int_or_float [x1; y1; x2; y2] = true.
Proof.
  intros (a & b & c & d & H1 & H2 & H3 & H4 & _). simpl.
  by rewrite (number_is _ _ H1), (number_is _ _ H2), (number_is _ _ H3),
    (number_is _ _ H4).
Qed.


Lemma list_encoding_position_rules v items p :
  seq_items v = Some items -> list_encoding items p ->
  position_rules v = Some (Ok p).
Proof.
  intros Hs Hp. unfold position_rules. rewrite Hs.
  destruct Hp as [a b fa fb Ha Hb|x1 y1 x2 y2 p Hc].
  - simpl. rewrite (number_is _ _ Ha), (number_is _ _ Hb). simpl.
    unfold float_pair. by rewrite (number_float _ _ Ha), (number_float _ _ Hb).
  - rewrite (centre_numbers _ _ _ _ _ Hc). cbn [length Nat.eqb andb].
    by rewrite (centre_from_bbox _ _ _ _ _ Hc).
Qed.

Lemma position_encoding_rules v items p :
  seq_items v = Some items -> position_encoding items p ->
  position_rules v = Some (Ok p).
Proof.
  intros Hs Hp.
  destruct Hp as [items p Hl|p1 p2 x1 y1 x2 y2 p Hp1 Hp2 Hc].
  - by eapply list_encoding_position_rules.
  - unfold position_rules. rewrite Hs. simpl.
    rewrite (seq_not_number _ _ Hp1). simpl.
    rewrite (seq_pair_is_pair _ _ _ Hp1), (seq_pair_is_pair _ _ _ Hp2). simpl.
    rewrite Hp1, Hp2.
    destruct Hc as (a & b & c & d & H1 & H2 & H3 & H4 & Hx & Hy & ->).
    rewrite (number_float _ _ H1), (number_float _ _ H3),
      (number_float _ _ H2), (number_float _ _ H4). simpl.
    by rewrite (midpoint_mean _ _ Hx), (midpoint_mean _ _ Hy).
Qed.

Lemma main_no_list_rule v : no_list_rule v -> GuiMain.list_rules v = None.
Proof.
  intros Hv. unfold GuiMain.list_rules.
  destruct (seq_items v) as [items|] eqn:Hs; [|done].
  destruct (Hv items Hs) as [H2 H4].
  apply Nat.eqb_neq in H2, H4. by rewrite H2, H4.
Qed.

Lemma mission_no_list_rule v : no_list_rule v -> MissionControl.list_rules v = None.
Proof.
  intros Hv. unfold MissionControl.list_rules.
  destruct (seq_items v) as [items|] eqn:Hs; [|done].
  destruct (Hv items Hs) as [H2 H4].
  apply Nat.eqb_neq in H2, H4. by rewrite H2, H4.
Qed.

Lemma float_pair_raises x y e : conversion_raises x y e -> float_pair x y = Raise e.
Proof.
  unfold float_pair. intros [Hx|(fx & Hx & Hy)]; rewrite Hx; [done|].
  simpl. by rewrite Hy.
Qed.

End CodecFacts.

(** C1, as amended.  With no well-formed [position]: when [x] and [y] are
    absent both extractors return exactly (0.5, 0.5); and when neither the
    value read for [x] nor the one read for [y] is a list or tuple of two or
    four items, a failing conversion [float(x)], or [float(y)] after it,
    makes both extractors raise the error of that conversion. *)
Theorem extract_xy_default `{Builtins} (out : pydict) :
  no_position out ->
  (out !! "x" = None -> out !! "y" = None ->
   GuiMain._extract_xy out = Ok (Finite half, Finite half)
   /\ MissionControl._extract_xy out = Ok (Finite half, Finite half))
  /\ (forall e,
        no_list_rule (coordinate_value out "x") ->
        no_list_rule (coordinate_value out "y") ->
        conversion_raises (coordinate_value out "x") (coordinate_value out "y") e ->
        GuiMain._extract_xy out = Raise e
        /\ MissionControl._extract_xy out = Raise e).
Proof.
  intros Hpos. split.
  - intros Hx Hy.
    unfold GuiMain._extract_xy, MissionControl._extract_xy.
    rewrite Hx, Hy, (position_rules_absent _ Hpos). by split.
  - intros e Hlx Hly He.
    unfold GuiMain._extract_xy, MissionControl._extract_xy.
    rewrite (position_rules_absent _ Hpos).
    fold (coordinate_value out "x"). fold (coordinate_value out "y").
    rewrite (main_no_list_rule _ Hlx), (main_no_list_rule _ Hly),
      (mission_no_list_rule _ Hlx), (mission_no_list_rule _ Hly).
    by rewrite (float_pair_raises _ _ _ He).
Qed.

Lemma extract_xy_default_witness :
  (GuiMain._extract_xy (H:=ascii_builtins) out_odd_position
     = Ok (Finite half, Finite half)
   /\ MissionControl._extract_xy (H:=ascii_builtins) out_odd_position
     = Ok (Finite half, Finite half))
  /\ (GuiMain._extract_xy (H:=ascii_builtins) out_y_text = Raise ValueError
      /\ MissionControl._extract_xy (H:=ascii_builtins) out_y_text = Raise ValueError).
Proof.
  split.
  - destruct (extract_xy_default (H:=ascii_builtins) out_odd_position) as [Hdefault _].
    + intros pos Hpos. vm_compute in Hpos. by inversion Hpos.
    + apply Hdefault; reflexivity.
  - destruct (extract_xy_default (H:=ascii_builtins) out_y_text) as [_ Hraise].
    + intros pos Hpos. vm_compute in Hpos. by inversion Hpos.
    + apply Hraise.
      * intros items Hs. vm_compute in Hs. by inversion Hs.
      * intros items Hs. vm_compute in Hs. by inversion Hs.
      * right. exists (Finite (Q2Qc (1 # 4))). split; reflexivity.
Defined.

(** C1, as stated, fails: [{"x": None}] makes [float(None)] raise. *)
Lemma extract_xy_raises_on_none :
  GuiMain._extract_xy (H:=ascii_builtins) out_x_none = Raise TypeError
  /\ MissionControl._extract_xy (H:=ascii_builtins) out_x_none = Raise TypeError.
Proof. split; reflexivity. Qed.

(** The same holds whatever the builtins are. *)
Lemma extract_xy_none_raises `{Builtins} :
  GuiMain._extract_xy out_x_none = Raise TypeError.
Proof. reflexivity. Qed.


(** The centre of the box (1/4, 1/2, 3/4, 1) is the point (1/2, 3/4). *)
Lemma bbox_centre :
  (Finite (mean (Q2Qc (1#4)) (Q2Qc (3#4))),
   Finite (mean (Q2Qc (1#2)) (Q2Qc (inject_Z 1))))
  = pt (1#2) (3#4).
Proof. unfold pt, mean. f_equal; f_equal; by apply Qc_is_canon. Qed.


(** Two nested points are read as their centre, and a well-formed
    [position] wins over [x] and [y]. *)
Example extract_xy_nested_pairs :
  GuiMain._extract_xy (H:=ascii_builtins) out_two_points = Ok (pt (1#2) (3#4)).
Proof.
  rewrite <- bbox_centre. unfold GuiMain._extract_xy.
  change (default VNone (out_two_points !! "position"))
    with (VList [VList [fl (1#4); fl (1#2)]; VTuple [fl (3#4); VInt 1]]).
  erewrite (position_encoding_rules (H:=ascii_builtins)); [reflexivity|reflexivity|].
  eapply position_pairs; [reflexivity | reflexivity |].
  exists (Q2Qc (1#4)), (Q2Qc (1#2)), (Q2Qc (3#4)), (Q2Qc (inject_Z 1)).
  repeat split; vm_compute; reflexivity.
Qed.

(** Beyond the float range the sum of two corners overflows, and the centre
    comes back as an infinity: the box from [2^1023] to [2^1023]. *)
Example bbox_overflows :
  exists cy, GuiMain._extract_xy (H:=ascii_builtins) out_huge_bbox = Ok (PosInf, cy).
Proof. eexists. vm_compute. reflexivity. Qed.

(** C9 fails: the [x] rules of [gui_mission_control.py] lost the type guard of
    [gui_main.py].  On [{"x": [None, 1], "y": [0.2, 0.3]}] the first file
    skips [x] and reads [y]; the second converts [x[0]] and raises. *)
Theorem extract_xy_copies_differ :
  GuiMain._extract_xy (H:=ascii_builtins) out_x_unguarded
    = Ok (pt (1#5) (3#10))
  /\ MissionControl._extract_xy (H:=ascii_builtins) out_x_unguarded
    = Raise TypeError.
Proof. split; reflexivity. Qed.

(** With strings that convert, both copies return, and return different
    points. *)
Lemma extract_xy_copies_differ_on_strings `{Builtins} (s1 s2 : string) (f1 f2 : pyfloat) :
  float_of_str s1 = Some f1 -> float_of_str s2 = Some f2 ->
  let out : pydict :=
    <["x" := VList [VStr s1; VStr s2]]> {[ "y" := VList [fl (3#10); fl (2#5)] ]} in
  GuiMain._extract_xy out = Ok (pt (3#10) (2#5))
  /\ MissionControl._extract_xy out = Ok (f1, f2).
Proof.
  intros H1 H2 out. split; [reflexivity|].
  unfold MissionControl._extract_xy, out.
  rewrite lookup_insert_eq. simpl. unfold float_pair. simpl. by rewrite H1, H2.
Qed.

Lemma list_rules_agree `{Builtins} (v : pyval) :
  guarded v -> GuiMain.list_rules v = MissionControl.list_rules v.
Proof.
  intros Hg. unfold GuiMain.list_rules, MissionControl.list_rules.
  destruct (seq_items v) as [items|] eqn:Hs; [|done].
  specialize (Hg items Hs).
  destruct (Nat.eqb (length items) 2), (Nat.eqb (length items) 4); simpl in *;
    try rewrite Hg; done.
Qed.

(** X3: where [x] and [y] are guarded (neither is a sequence of two or four
    items with an item that is no number) the two copies agree, in value and
    in failure. *)
Theorem extract_xy_agree `{Builtins} (out : pydict) :
  guarded (default (VFloat (Finite half)) (out !! "x")) ->
  guarded (default (VFloat (Finite half)) (out !! "y")) ->
  GuiMain._extract_xy out = MissionControl._extract_xy out.
Proof.
  intros Hx Hy. unfold GuiMain._extract_xy, MissionControl._extract_xy.
  by rewrite (list_rules_agree _ Hx), (list_rules_agree _ Hy).
Qed.

Lemma extract_xy_agree_witness :
  GuiMain._extract_xy (H:=ascii_builtins) out_x_pair
  = MissionControl._extract_xy (H:=ascii_builtins) out_x_pair.
Proof.
  apply (extract_xy_agree (H:=ascii_builtins) out_x_pair).
  - intros items Hs _. vm_compute in Hs. by inversion Hs.
  - intros items Hs _. vm_compute in Hs. by inversion Hs.
Defined.

(** On that response both return (1/4, 3/4), read from the list under [x]. *)
Example extract_xy_x_pair :
  GuiMain._extract_xy (H:=ascii_builtins) out_x_pair = Ok (pt (1#4) (3#4))
  /\ MissionControl._extract_xy (H:=ascii_builtins) out_x_pair = Ok (pt (1#4) (3#4)).
Proof. split; reflexivity. Qed.

(** ** Properties of the history window *)

Section Trim.
Context {A : Type}.
Implicit Types (h : list A) (k : Z).

(** The two files trim alike. *)
Lemma trim_history_same h k :
  MissionControl.trim_history h k = GuiMain.trim_history h k.
Proof.
  unfold MissionControl.trim_history, GuiMain.trim_history.
  destruct (Z.ltb_spec k (Z.of_nat (length h))), (Z.leb_spec (Z.of_nat (length h)) k);
    (done || lia).
Qed.

(** With a window of at least one entry the result is the tail of the history
    that starts [k] entries before its end. *)
Lemma trim_history_drop h k :
  (1 <= k)%Z -> GuiMain.trim_history h k = drop (length h - Z.to_nat k) h.
Proof.
  intros Hk. unfold GuiMain.trim_history, slice_from.
  destruct (Z.leb_spec (Z.of_nat (length h)) k) as [Hle|Hgt].
  - replace (length h - Z.to_nat k) with 0 by lia. done.
  - destruct (Z.ltb_spec (- k) 0) as [_|Hneg]; [|lia].
    f_equal. lia.
Qed.

Lemma trim_history_length h k :
  (1 <= k)%Z -> length (GuiMain.trim_history h k) = min (length h) (Z.to_nat k).
Proof. intros Hk. rewrite trim_history_drop by done. rewrite length_drop. lia. Qed.

Lemma trim_history_suffix h k :
  (1 <= k)%Z -> GuiMain.trim_history h k `suffix_of` h.
Proof. intros Hk. rewrite trim_history_drop by done. apply suffix_drop. Qed.

Lemma trim_history_short h k :
  (Z.of_nat (length h) <= k)%Z -> GuiMain.trim_history h k = h.
Proof.
  intros Hle. unfold GuiMain.trim_history.
  by destruct (Z.leb_spec (Z.of_nat (length h)) k); [|lia].
Qed.

Lemma trim_history_idempotent h k :
  (1 <= k)%Z ->
  GuiMain.trim_history (GuiMain.trim_history h k) k = GuiMain.trim_history h k.
Proof.
  intros Hk. apply trim_history_short.
  rewrite trim_history_length by done. lia.
Qed.

End Trim.

(** X1: the history window on windows of at least one entry: the result is the
    trailing [min (len h) k] entries in their order, the history itself when
    it is short enough, and trimming twice is trimming once; in both files. *)
Theorem trim_history_positive_window {A} (h : list A) (k : Z) :
  (1 <= k)%Z ->
  GuiMain.trim_history h k = drop (length h - Z.to_nat k) h
  /\ length (GuiMain.trim_history h k) = min (length h) (Z.to_nat k)
  /\ ((Z.of_nat (length h) <= k)%Z -> GuiMain.trim_history h k = h)
  /\ GuiMain.trim_history (GuiMain.trim_history h k) k = GuiMain.trim_history h k
  /\ MissionControl.trim_history h k = GuiMain.trim_history h k.
Proof.
  intros Hk. split; [by apply trim_history_drop|].
  split; [by apply trim_history_length|].
  split; [apply trim_history_short|].
  split; [by apply trim_history_idempotent|apply trim_history_same].
Qed.

Lemma trim_history_positive_window_witness :
  GuiMain.trim_history [1; 2; 3; 4; 5] 2 = drop (5 - Z.to_nat 2) [1; 2; 3; 4; 5]
  /\ length (GuiMain.trim_history [1; 2; 3; 4; 5] 2) = min 5 (Z.to_nat 2)
  /\ ((Z.of_nat 5 <= 2)%Z -> GuiMain.trim_history [1; 2; 3; 4; 5] 2 = [1; 2; 3; 4; 5])
  /\ GuiMain.trim_history (GuiMain.trim_history [1; 2; 3; 4; 5] 2) 2
     = GuiMain.trim_history [1; 2; 3; 4; 5] 2
  /\ MissionControl.trim_history [1; 2; 3; 4; 5] 2
     = GuiMain.trim_history [1; 2; 3; 4; 5] 2.
Proof. apply (trim_history_positive_window [1; 2; 3; 4; 5] 2). lia. Defined.

(** C8 fails at the window 0: [history[-0:]] is the whole history, so a
    non-empty history is returned whole where the claim asks for no entry.
    (A negative window drops entries from the front, and trimming twice
    then drops more.) *)
Theorem trim_history_zero_window :
  GuiMain.trim_history ["a"; "b"; "c"] 0 = ["a"; "b"; "c"]
  /\ MissionControl.trim_history ["a"; "b"; "c"] 0 = ["a"; "b"; "c"]
  /\ length (GuiMain.trim_history ["a"; "b"; "c"] 0) <> min 3 (Z.to_nat 0)
  /\ GuiMain.trim_history [1; 2; 3; 4; 5] (-2) = [3; 4; 5]
  /\ GuiMain.trim_history (GuiMain.trim_history [1; 2; 3; 4; 5] (-2)) (-2) = [5].
Proof.
  split; [reflexivity|]. split; [reflexivity|].
  split; [vm_compute; lia|]. split; reflexivity.
Qed.

(** At the window 0 every history is returned whole. *)
Lemma trim_history_zero {A} (h : list A) : GuiMain.trim_history h 0 = h.
Proof.
  unfold GuiMain.trim_history, slice_from.
  destruct (Z.leb_spec (Z.of_nat (length h)) 0); [done|].
  change (- 0)%Z with 0%Z. change (0 <? 0)%Z with false.
  by rewrite Z.min_l by lia.
Qed.

(** ** Properties of the live view *)

Module ViewFacts.
Import VMView Pointer.

Lemma inject_Z_nonzero (b : Z) : b <> 0%Z -> ~ (inject_Z b == 0)%Q.
Proof. intros Hb Heq. apply Hb. unfold Qeq in Heq. simpl in Heq. lia. Qed.

(** The quotient of two ints is exact. *)
Lemma int_truediv_exact (a b : Z) :
  b <> 0%Z ->
  exists q, int_truediv a b = Finite q
    /\ (q * Q2Qc (inject_Z b))%Qc = Q2Qc (inject_Z a).
Proof.
  intros Hb. eexists. split; [reflexivity|].
  apply Qc_is_canon. simpl. rewrite !Qred_correct.
  field. by apply inject_Z_nonzero.
Qed.

(** A quotient [a / b] with [0 <= a < b] lies in [0, 1). *)
Lemma int_truediv_unit (a b : Z) :
  (0 <= a < b)%Z ->
  exists q, int_truediv a b = Finite q
    /\ (Q2Qc 0 <= q)%Qc /\ (q < Q2Qc 1)%Qc.
Proof.
  intros [Ha Hb]. eexists. split; [reflexivity|].
  assert (Hq : (inject_Z a / inject_Z b == a # Z.to_pos b)%Q).
  { rewrite Qmake_Qdiv. by rewrite Z2Pos.id by lia. }
  unfold Qcle, Qclt. simpl. rewrite !Qred_correct, Hq.
  unfold Qle, Qlt. simpl. rewrite Z2Pos.id by lia. lia.
Qed.

Lemma int_truediv_in_unit (a b : Z) :
  (0 <= a < b)%Z -> in_unit (int_truediv a b).
Proof.
  intros Hab. destruct (int_truediv_unit a b Hab) as (q & -> & H0 & H1).
  split; [done|]. by apply Qclt_le_weak.
Qed.

(** What [_pos_to_norm] returns is decided by the frame, the rectangle and
    the four comparisons. *)
Lemma pos_to_norm_some (v : view) (x y : Z) (p : point) :
  _pos_to_norm v x y = Some p ->
  exists dx dy dw dh,
    _pm v <> None /\ _draw_rect v = Some (dx, dy, dw, dh)
    /\ (0 < dw)%Z /\ (0 < dh)%Z
    /\ (dx <= x < dx + dw)%Z /\ (dy <= y < dy + dh)%Z
    /\ p = (int_truediv (x - dx) dw, int_truediv (y - dy) dh).
Proof.
  unfold _pos_to_norm.
  destruct (_pm v) as [pm|]; [|done].
  destruct (_draw_rect v) as [[[[dx dy] dw] dh]|]; [|done].
  destruct (Z.leb_spec dw 0), (Z.leb_spec dh 0); simpl; try done.
  destruct (Z.ltb_spec x dx), (Z.ltb_spec y dy), (Z.geb_spec x (dx + dw)),
    (Z.geb_spec y (dy + dh)); simpl; try done.
  intros [= <-]. exists dx, dy, dw, dh. repeat split; (done || lia).
Qed.

Lemma pos_to_norm_in_unit (v : view) (x y : Z) (nx ny : pyfloat) :
  _pos_to_norm v x y = Some (nx, ny) -> in_unit nx /\ in_unit ny.
Proof.
  intros Hp. apply pos_to_norm_some in Hp
    as (dx & dy & dw & dh & _ & _ & Hw & Hh & Hx & Hy & [= -> ->]).
  split; apply int_truediv_in_unit; lia.
Qed.

Lemma handle_calls_in_unit (v : view) (e : event) :
  Forall call_in_unit (snd (handle v e)).
Proof.
  destruct e as [x y b|x y now|]; simpl.
  - unfold mousePressEvent. destruct (input_enabled v); simpl; [|constructor].
    destruct (_pos_to_norm v x y) as [[nx ny]|] eqn:Hp; [|constructor].
    destruct (button_number b); simpl; [|constructor].
    constructor; [by eapply pos_to_norm_in_unit|].
    constructor; [done|constructor].
  - unfold mouseMoveEvent. destruct (input_enabled v); simpl; [|constructor].
    destruct (_pos_to_norm v x y) as [[nx ny]|] eqn:Hp; [|constructor].
    destruct (too_soon _ _); [constructor|]. simpl.
    destruct (_pressed_btn v);
      (constructor; [by eapply pos_to_norm_in_unit|constructor]).
  - unfold mouseReleaseEvent. destruct (input_enabled v); simpl; [|constructor].
    destruct (_pressed_btn v); [|constructor].
    constructor; [done|constructor].
Qed.

Lemma handle_all_calls_in_unit (es : list event) (v : view) :
  Forall call_in_unit (snd (handle_all v es)).
Proof.
  revert v. induction es as [|e es IH]; intros v; simpl; [constructor|].
  pose proof (handle_calls_in_unit v e) as He.
  destruct (handle v e) as [v1 c1]. specialize (IH v1).
  destruct (handle_all v1 es) as [v2 c2]. simpl in *.
  by apply Forall_app.
Qed.

Lemma handle_all_app (es1 es2 : list event) (v : view) :
  handle_all v (es1 ++ es2)
  = let '(v1, c1) := handle_all v es1 in
    let '(v2, c2) := handle_all v1 es2 in
    (v2, c1 ++ c2).
Proof.
  revert v. induction es1 as [|e es1 IH]; intros v; simpl.
  - by destruct (handle_all v es2).
  - destruct (handle v e) as [v1 c1]. rewrite IH.
    destruct (handle_all v1 es1) as [v2 c2].
    destruct (handle_all v2 es2) as [v3 c3]. by rewrite app_assoc.
Qed.

End ViewFacts.

(** C6: with a drawn rectangle of positive width and height, [_pos_to_norm]
    returns [None] when no frame is set or the pixel lies outside
    [dx, dx+dw) x [dy, dy+dh), and otherwise the point
    ((px-dx)/dw, (py-dy)/dh). *)
Theorem pos_to_norm_drawn_region (v : VMView.view) (px py dx dy dw dh : Z) :
  VMView._draw_rect v = Some (dx, dy, dw, dh) -> (0 < dw)%Z -> (0 < dh)%Z ->
  ((VMView._pm v = None
    \/ ~ ((dx <= px < dx + dw)%Z /\ (dy <= py < dy + dh)%Z)) ->
   VMView._pos_to_norm v px py = None)
  /\ (VMView._pm v <> None ->
      (dx <= px < dx + dw)%Z -> (dy <= py < dy + dh)%Z ->
      exists nx ny,
        VMView._pos_to_norm v px py = Some (Finite nx, Finite ny)
        /\ (nx * Q2Qc (inject_Z dw))%Qc = Q2Qc (inject_Z (px - dx))
        /\ (ny * Q2Qc (inject_Z dh))%Qc = Q2Qc (inject_Z (py - dy))).
Proof.
  intros Hrect Hw Hh. unfold VMView._pos_to_norm. rewrite Hrect.
  destruct (Z.leb_spec dw 0), (Z.leb_spec dh 0); try lia. simpl.
  split.
  - intros [Hpm|Hout]; [by rewrite Hpm|].
    destruct (VMView._pm v); [|done].
    destruct (Z.ltb_spec px dx), (Z.ltb_spec py dy), (Z.geb_spec px (dx + dw)),
      (Z.geb_spec py (dy + dh)); simpl; try done.
    exfalso. apply Hout. lia.
  - intros Hpm Hx Hy. destruct (VMView._pm v); [|done].
    destruct (Z.ltb_spec px dx), (Z.ltb_spec py dy), (Z.geb_spec px (dx + dw)),
      (Z.geb_spec py (dy + dh)); simpl; try lia.
    destruct (ViewFacts.int_truediv_exact (px - dx) dw) as (nx & Enx & Hnx); [lia|].
    destruct (ViewFacts.int_truediv_exact (py - dy) dh) as (ny & Eny & Hny); [lia|].
    exists nx, ny. by rewrite Enx, Eny.
Qed.

Lemma pos_to_norm_drawn_region_witness :
  ((VMView._pm view_100x50 = None
    \/ ~ ((10 <= 35 < 10 + 100)%Z /\ (20 <= 45 < 20 + 50)%Z)) ->
   VMView._pos_to_norm view_100x50 35 45 = None)
  /\ (VMView._pm view_100x50 <> None ->
      (10 <= 35 < 10 + 100)%Z -> (20 <= 45 < 20 + 50)%Z ->
      exists nx ny,
        VMView._pos_to_norm view_100x50 35 45 = Some (Finite nx, Finite ny)
        /\ (nx * Q2Qc (inject_Z 100))%Qc = Q2Qc (inject_Z (35 - 10))
        /\ (ny * Q2Qc (inject_Z 50))%Qc = Q2Qc (inject_Z (45 - 20))).
Proof.
  apply (pos_to_norm_drawn_region view_100x50 35 45 10 20 100 50);
    [reflexivity | lia | lia].
Defined.

(** On that view the pixel (35, 45) maps to (1/4, 1/2), and a pixel in the
    padding maps to nothing. *)
Example pos_to_norm_inside :
  VMView._pos_to_norm view_100x50 35 45 = Some (pt (1#4) (1#2)).
Proof.
  change (VMView._pos_to_norm view_100x50 35 45)
    with (Some (VMView.int_truediv 25 100, VMView.int_truediv 25 50)).
  unfold pt, VMView.int_truediv. do 2 f_equal; f_equal; by apply Qc_is_canon.
Qed.

Example pos_to_norm_padding : VMView._pos_to_norm view_100x50 5 45 = None.
Proof. reflexivity. Qed.

(** ** Properties of the pointer-event translator *)

Module TranslatorFacts.
Import VMView Pointer.

Lemma Qc_ltb_lt (a b : Qc) : Qc_ltb a b = true <-> (a < b)%Qc.
Proof.
  unfold Qc_ltb. rewrite Qclt_alt.
  destruct (a ?= b)%Qc; split; congruence.
Qed.

Lemma Qc_sub_this (a b : Qc) : (this (a - b)%Qc == this a - this b)%Q.
Proof.
  unfold Qcminus, Qcplus, Qcopp. simpl. rewrite !Qred_correct. reflexivity.
Qed.

(** The debounce literal and the float below it are binary64 values. *)
Lemma debounce_representable :
  representable (8646911284551352 # 288230376151711744).
Proof. exists 8646911284551352%Z. vm_compute. reflexivity. Qed.

Lemma below_debounce_representable :
  representable (8646911284551351 # 288230376151711744).
Proof. exists 8646911284551351%Z. vm_compute. reflexivity. Qed.

Lemma debounce_this :
  (this debounce == 8646911284551352 # 288230376151711744)%Q.
Proof. unfold debounce. simpl. apply Qred_correct. Qed.

(** A move 30 ms or more after the last forwarded one passes the test. *)
Lemma too_soon_far (now last : Qc) :
  (Q2Qc (3 # 100) <= now - last)%Qc -> too_soon now last = false.
Proof.
  unfold Qcle. rewrite Qc_sub_this. simpl. rewrite Qred_correct. intros Hd.
  unfold too_soon, round64. set (d := (this now - this last)%Q) in *.
  assert (Hr : (8646911284551352 # 288230376151711744 <= round_fin d)%Q).
  { apply RoundFacts.round_fin_ge_repr; [done|lra|apply debounce_representable]. }
  destruct (Qle_bool (pow2 1024) (round_fin d)); [done|].
  destruct (Qle_bool (round_fin d) (- pow2 1024)) eqn:E.
  { apply Qle_bool_iff in E. pose proof (RoundFacts.pow2_pos 1024). lra. }
  destruct (Qc_ltb (Q2Qc (round_fin d)) debounce) eqn:Hlt; [|done].
  apply Qc_ltb_lt in Hlt. unfold Qclt in Hlt. simpl in Hlt.
  rewrite !Qred_correct in Hlt. lra.
Qed.

(** A move that passes the test comes more than [least_gap] after the last
    forwarded one. *)
Lemma too_soon_near (now last : Qc) :
  too_soon now last = false -> (least_gap < now - last)%Qc.
Proof.
  intros Hpass. unfold Qclt, least_gap. rewrite Qc_sub_this. simpl.
  rewrite Qred_correct.
  apply Qnot_le_lt. intros Hd.
  unfold too_soon, round64 in Hpass. set (d := (this now - this last)%Q) in *.
  assert (Hr : (round_fin d <= 8646911284551351 # 288230376151711744)%Q).
  { destruct (Qlt_le_dec d 0) as [Hneg|Hpos].
    - pose proof (RoundFacts.round_fin_nonpos d). lra.
    - apply RoundFacts.round_fin_le_repr;
        [done|lra|apply below_debounce_representable]. }
  destruct (Qle_bool (pow2 1024) (round_fin d)) eqn:E.
  { apply Qle_bool_iff in E.
    pose proof (RoundFacts.pow2_le 0 1024). change (pow2 0) with 1%Q in *.
    assert (1 <= pow2 1024)%Q by (apply H; lia). lra. }
  destruct (Qle_bool (round_fin d) (- pow2 1024)); [done|].
  assert (Hlt : Qc_ltb (Q2Qc (round_fin d)) debounce = true); [|congruence].
  apply Qc_ltb_lt. unfold Qclt. simpl. rewrite !Qred_correct. lra.
Qed.

Lemma pos_to_norm_frame (v v' : view) (x y : Z) :
  _pm v' = _pm v -> _draw_rect v' = _draw_rect v ->
  _pos_to_norm v' x y = _pos_to_norm v x y.
Proof. intros Hpm Hr. unfold _pos_to_norm. by rewrite Hpm, Hr. Qed.

Lemma forwarded_frame (v v' : view) (moves : list (Z * Z * Qc)) (last : Qc) :
  _pm v' = _pm v -> _draw_rect v' = _draw_rect v ->
  forwarded v' last moves = forwarded v last moves.
Proof.
  intros Hpm Hr. revert last.
  induction moves as [|[[x y] now] moves IH]; intros last; [done|].
  simpl. rewrite (pos_to_norm_frame v v' x y Hpm Hr).
  destruct (_pos_to_norm v x y); [|done].
  destruct (too_soon now last); by rewrite ?IH.
Qed.

(** Moves while a button is held: the forwarded ones go out as drags with
    that button, in order, and the others are dropped. *)
Lemma moves_while_held (moves : list (Z * Z * Qc)) (v : view) (btn : Z) :
  input_enabled v = true -> _pressed_btn v = Some btn ->
  exists v',
    handle_all v (map move_event moves)
    = (v', map (drag_call btn) (forwarded v (_last_move_ts v) moves))
    /\ input_enabled v' = true /\ _pressed_btn v' = Some btn.
Proof.
  revert v. induction moves as [|[[x y] now] moves IH]; intros v Hen Hbtn.
  - by exists v.
  - simpl. unfold mouseMoveEvent. rewrite Hen. simpl.
    destruct (_pos_to_norm v x y) as [[nx ny]|] eqn:Hp.
    + destruct (too_soon now (_last_move_ts v)) eqn:Hd.
      * destruct (IH v Hen Hbtn) as (v' & Hrun & ? & ?).
        exists v'. by rewrite Hrun.
      * simpl. rewrite Hbtn.
        destruct (IH (set_last_move v now)) as (v' & Hrun & ? & ?); [done|done|].
        exists v'. rewrite Hrun. simpl.
        by rewrite (forwarded_frame v (set_last_move v now)).
    + destruct (IH v Hen Hbtn) as (v' & Hrun & ? & ?).
      exists v'. by rewrite Hrun.
Qed.

Lemma forwarded_sublist (v : view) (moves : list (Z * Z * Qc)) (last : Qc) :
  forwarded v last moves `sublist_of` mapped v moves.
Proof.
  revert last. induction moves as [|[[x y] now] moves IH]; intros last; [done|].
  unfold mapped. simpl. fold (mapped v moves).
  destruct (_pos_to_norm v x y) as [p|]; [|apply IH].
  destruct (too_soon now last).
  - apply sublist_cons, IH.
  - apply sublist_skip, IH.
Qed.

Lemma forwarded_spaced (v : view) (moves : list (Z * Z * Qc)) (last : Qc) :
  spaced last (map snd (forwarded v last moves)).
Proof.
  revert last. induction moves as [|[[x y] now] moves IH]; intros last; [done|].
  simpl. destruct (_pos_to_norm v x y) as [p|]; [|apply IH].
  destruct (too_soon now last) eqn:Hd; [apply IH|].
  simpl. split; [by apply too_soon_near|apply IH].
Qed.

Lemma last_reading_cons (f : point * Qc) (fw : list (point * Qc)) (since : Qc) :
  last_reading (f :: fw) since = last_reading fw (snd f).
Proof.
  unfold last_reading. destruct fw as [|f' l]; [done|].
  change (last (f :: f' :: l)) with (last (f' :: l)).
  destruct (last (f' :: l)) eqn:E; [done|]. by apply last_None in E.
Qed.

Lemma forwarded_app (v : view) (pre post : list (Z * Z * Qc)) (last : Qc) :
  forwarded v last (pre ++ post)
  = forwarded v last pre
      ++ forwarded v (last_reading (forwarded v last pre) last) post.
Proof.
  revert last. induction pre as [|[[x y] now] pre IH]; intros last; [done|].
  simpl. destruct (_pos_to_norm v x y) as [p|]; [|apply IH].
  destruct (too_soon now last); [apply IH|].
  rewrite last_reading_cons. simpl. by rewrite IH.
Qed.

Lemma forwarded_none_lost (v : view) (moves : list (Z * Z * Qc)) (last : Qc) :
  none_lost v last moves.
Proof.
  intros pre x y now post p -> Hp Hfar.
  rewrite forwarded_app. f_equal. simpl. rewrite Hp.
  by rewrite (too_soon_far _ _ Hfar).
Qed.

End TranslatorFacts.

(** C7: a pointer-down at a mapped position with one of the three buttons,
    any number of moves, then a pointer-up.  The calls are one move and one
    button-down, then one drag with the held button for each forwarded
    move, then one button-up for that button.  The forwarded moves are
    moves on the frame, in their order and at their normalized points;
    every one comes more than 30 ms less [10^-17] s after the one before it
    (the code compares floats with the literal [0.03]); and none is lost: a
    move on the frame that comes 30 ms or more after the move forwarded
    before it is forwarded. *)
Theorem press_moves_release_order
    (v : VMView.view) (x y : Z) (button : VMView.MouseButton) (btn : Z)
    (nx ny : pyfloat) (moves : list (Z * Z * Qc)) :
  VMView.input_enabled v = true ->
  VMView._pos_to_norm v x y = Some (nx, ny) ->
  VMView.button_number button = Some btn ->
  snd (VMView.handle_all v
         (VMView.Press x y button
            :: map Pointer.move_event moves ++ [VMView.Release]))
  = [VMView.mouse_move_norm nx ny; VMView.mouse_down btn]
      ++ map (Pointer.drag_call btn)
           (Pointer.forwarded v (VMView._last_move_ts v) moves)
      ++ [VMView.mouse_up btn]
  /\ Pointer.forwarded v (VMView._last_move_ts v) moves
       `sublist_of` Pointer.mapped v moves
  /\ Pointer.spaced (VMView._last_move_ts v)
       (map snd (Pointer.forwarded v (VMView._last_move_ts v) moves))
  /\ Pointer.none_lost v (VMView._last_move_ts v) moves.
Proof.
  intros Hen Hp Hb.
  split; [|split; [apply TranslatorFacts.forwarded_sublist|
           split; [apply TranslatorFacts.forwarded_spaced|
                   apply TranslatorFacts.forwarded_none_lost]]].
  destruct (TranslatorFacts.moves_while_held moves (VMView.set_pressed v (Some btn)) btn)
    as (v' & Hrun & Hen' & Hbtn'); [done|done|].
  rewrite (TranslatorFacts.forwarded_frame v (VMView.set_pressed v (Some btn))) in Hrun
    by done.
  cbn [VMView.handle_all VMView.handle]. unfold VMView.mousePressEvent.
  rewrite Hen, Hp, Hb. cbn [negb].
  rewrite ViewFacts.handle_all_app, Hrun.
  cbn [VMView.handle_all VMView.handle]. unfold VMView.mouseReleaseEvent.
  rewrite Hen', Hbtn'. cbn [negb snd]. by rewrite app_nil_r.
Qed.

Lemma press_moves_release_order_witness :
  snd (VMView.handle_all view_100x50
         (VMView.Press 35 45 VMView.LeftButton
            :: map Pointer.move_event four_moves ++ [VMView.Release]))
  = [VMView.mouse_move_norm (VMView.int_truediv 25 100) (VMView.int_truediv 25 50);
     VMView.mouse_down 1;
     VMView.drag_to_norm (VMView.int_truediv 50 100) (VMView.int_truediv 25 50) 1;
     VMView.drag_to_norm (VMView.int_truediv 75 100) (VMView.int_truediv 25 50) 1;
     VMView.mouse_up 1].
Proof.
  destruct (press_moves_release_order view_100x50 35 45 VMView.LeftButton 1
              (VMView.int_truediv 25 100) (VMView.int_truediv 25 50) four_moves)
    as [Hcalls _]; [reflexivity | reflexivity | reflexivity |].
  rewrite Hcalls. reflexivity.
Defined.

(** The debounce compares floats: a move at the clock reading 0.03 (the
    float, which lies below 3/100) after a move at 0.0 passes, and one at
    [least_gap] does not. *)
Example debounce_on_floats :
  VMView.too_soon VMView.debounce (Q2Qc 0) = false
  /\ VMView.too_soon Pointer.least_gap (Q2Qc 0) = true
  /\ (VMView.debounce < Q2Qc (3 # 100))%Qc.
Proof. vm_compute. by repeat split. Qed.

(** ** Properties of the execution loop *)

Section LoopFacts.
Context `{Builtins}.
Variable trim : list pydict -> Z -> list pydict.
Variable extract : pydict -> res point.
Variable C : collaborators.

Lemma pointer_not_bitti (k : string) :
  is_pointer_kind k = true -> String.eqb k "BITTI" = false.
Proof.
  unfold is_pointer_kind. intros Hk.
  destruct (String.eqb_spec k "BITTI") as [->|]; [|done].
  by vm_compute in Hk.
Qed.

Lemma action_of_store_xy (dflt : string) (out : pydict) (x y : pyfloat) :
  action_of dflt (store_xy out x y) = action_of dflt out.
Proof.
  unfold action_of, store_xy. by rewrite !lookup_insert_ne.
Qed.

Lemma action_of_default (d1 d2 : string) (out : pydict) (k : string) :
  action_of d1 out = Ok k -> exists k', action_of d2 out = Ok k'.
Proof.
  unfold action_of. destruct (out !! "action") as [v|]; [|by eauto].
  destruct (truthy v); [|by eauto].
  destruct v; try done. eauto.
Qed.

(** One pass of the retry block. *)
Lemma attempt_rejected (n q : nat) (history : list pydict) :
  let out := ask_next_action C q (trim history 6) in
  rejected extract C out ->
  attempt_loop trim extract C (S n) q history
  = attempt_loop trim extract C n (S q) (history ++ [invalid_entry out]).
Proof.
  intros out (k & x & y & Hk & Hp & Hxy & Hv). simpl. fold out.
  by rewrite Hk, (pointer_not_bitti _ Hp), Hp, Hxy, Hv.
Qed.

Lemma attempt_valid (n q : nat) (history : list pydict) (x y : pyfloat) :
  let out := ask_next_action C q (trim history 6) in
  valid_pointer extract C out x y ->
  attempt_loop trim extract C (S n) q history
  = (Accepted (store_xy out x y), history, S q).
Proof.
  intros out (k & Hk & Hp & Hxy & Hv). simpl. fold out.
  by rewrite Hk, (pointer_not_bitti _ Hp), Hp, Hxy, Hv.
Qed.

Lemma attempt_other (n q : nat) (history : list pydict) :
  let out := ask_next_action C q (trim history 6) in
  other_kind out ->
  attempt_loop trim extract C (S n) q history = (Accepted out, history, S q).
Proof.
  intros out (k & Hk & Hb & Hp). simpl. fold out. by rewrite Hk, Hb, Hp.
Qed.

Lemma attempt_terminal (n q : nat) (history : list pydict) :
  terminal (ask_next_action C q (trim history 6)) ->
  attempt_loop trim extract C (S n) q history = (Finished, history, S q).
Proof. intros Hk. simpl. by rewrite Hk. Qed.

(** The retry block as a whole: the history grows by one tagged entry for
    each rejected response, in order, and by nothing else; the block makes
    one query for each of them and at most one more, and never more than
    [attempts] in all. *)
Lemma attempt_loop_spec (attempts q : nat) (history : list pydict) :
  exists raws,
    let '(d, history', q') := attempt_loop trim extract C attempts q history in
    history' = history ++ map invalid_entry raws
    /\ Forall (rejected extract C) raws
    /\ q' = q + length raws + last_query d
    /\ q' <= q + attempts
    /\ (d = NoValidAction -> length raws = attempts).
Proof.
  revert q history. induction attempts as [|n IH]; intros q history.
  - exists []. simpl. rewrite app_nil_r. repeat split; (done || lia || constructor).
  - simpl. set (out := ask_next_action C q (trim history 6)).
    destruct (action_of "NOOP" out) as [k|e] eqn:Hk.
    2:{ exists []. simpl. rewrite app_nil_r. repeat split; (done || lia || constructor). }
    destruct (String.eqb k "BITTI") eqn:Hb.
    { exists []. simpl. rewrite app_nil_r. repeat split; (done || lia || constructor). }
    destruct (is_pointer_kind k) eqn:Hp.
    2:{ exists []. simpl. rewrite app_nil_r. repeat split; (done || lia || constructor). }
    destruct (extract out) as [[x y]|e] eqn:Hxy.
    2:{ exists []. simpl. rewrite app_nil_r. repeat split; (done || lia || constructor). }
    destruct (fst (validate_xy C x y)) eqn:Hv.
    { exists []. simpl. rewrite app_nil_r. repeat split; (done || lia || constructor). }
    destruct (IH (S q) (history ++ [invalid_entry out])) as [raws IHr].
    exists (out :: raws).
    destruct (attempt_loop trim extract C n (S q) (history ++ [invalid_entry out]))
      as [[d history'] q'].
    destruct IHr as (Hh & Hr & Hq & Hle & Hno).
    split; [by rewrite Hh, <- app_assoc|].
    split; [constructor; [by exists k, x, y|done]|].
    split; [simpl; lia|]. split; [lia|].
    intros Hd. simpl. by rewrite Hno.
Qed.

(** The entry the code appends is the tagged one. *)
Lemma invalid_entry_tagged (out : pydict) : tagged_invalid out (invalid_entry out).
Proof.
  unfold tagged_invalid, invalid_entry. split; [by rewrite lookup_insert_eq|].
  split; [by rewrite lookup_insert_ne, lookup_insert_eq|].
  rewrite map_size_insert_None by (by rewrite lookup_insert_ne, lookup_empty).
  rewrite map_size_insert_None by apply lookup_empty.
  by rewrite map_size_empty.
Qed.

(** The retry block as a whole, answer by answer: every rejected answer
    leaves its tagged entry, every query after the first is asked on the
    history with the entries so far, and the block is left on the first
    answer that is not rejected, or when the attempts run out. *)
Lemma attempt_loop_block (attempts q : nat) (history : list pydict) :
  exists raws entries,
    let '(d, history', q') := attempt_loop trim extract C attempts q history in
    history' = history ++ entries
    /\ Forall2 tagged_invalid raws entries
    /\ Forall (rejected extract C) raws
    /\ (forall i raw, raws !! i = Some raw ->
          raw = ask_next_action C (q + i) (trim (history ++ take i entries) 6))
    /\ q' = q + length raws + last_query d
    /\ q' <= q + attempts
    /\ match d with
       | NoValidAction => length raws = attempts
       | _ => block_left extract C
                (ask_next_action C (q + length raws) (trim history' 6)) d
       end.
Proof.
  assert (Hbase : forall (q' q attempts : nat) (history h' : list pydict) (P : Prop),
            h' = history -> q' = q + 0 + 1 -> q' <= q + S attempts -> P ->
            h' = history ++ []
            /\ Forall2 tagged_invalid [] []
            /\ Forall (rejected extract C) []
            /\ (forall i raw, ([] : list pydict) !! i = Some raw ->
                  raw = ask_next_action C (q + i) (trim (history ++ take i []) 6))
            /\ q' = q + 0 + 1 /\ q' <= q + S attempts /\ P).
  { intros q1 q0 a0 h0 h1 P -> Hq Hle HP. rewrite app_nil_r.
    repeat split; try (done || constructor).
    all: intros i raw Hi; by rewrite lookup_nil in Hi. }
  revert q history. induction attempts as [|n IH]; intros q history.
  - exists [], []. simpl. rewrite app_nil_r.
    repeat split; try (done || lia || constructor).
    all: intros i raw Hi; by rewrite lookup_nil in Hi.
  - simpl. set (out := ask_next_action C q (trim history 6)).
    assert (Hout : ask_next_action C (q + 0) (trim history 6) = out).
    { by rewrite Nat.add_0_r. }
    destruct (action_of "NOOP" out) as [k|e] eqn:Hk.
    2:{ exists [], []. simpl. rewrite Hout. apply Hbase; [done|lia|lia|by left]. }
    destruct (String.eqb k "BITTI") eqn:Hb.
    { exists [], []. simpl. rewrite Hout. apply String.eqb_eq in Hb. subst k.
      apply Hbase; [done|lia|lia|done]. }
    destruct (is_pointer_kind k) eqn:Hp.
    2:{ exists [], []. simpl. rewrite Hout. apply Hbase; [done|lia|lia|].
        left. split; [by exists k|done]. }
    destruct (extract out) as [[x y]|e] eqn:Hxy.
    2:{ exists [], []. simpl. rewrite Hout. apply Hbase; [done|lia|lia|].
        right. by exists k. }
    destruct (fst (validate_xy C x y)) eqn:Hv.
    { exists [], []. simpl. rewrite Hout. apply Hbase; [done|lia|lia|].
      right. exists x, y. split; [by exists k|done]. }
    destruct (IH (S q) (history ++ [invalid_entry out])) as (raws & entries & IHr).
    exists (out :: raws), (invalid_entry out :: entries).
    destruct (attempt_loop trim extract C n (S q) (history ++ [invalid_entry out]))
      as [[d history'] q'].
    destruct IHr as (Hh & Ht & Hr & Hasked & Hq & Hle & Hleft).
    split; [by rewrite Hh, <- app_assoc|].
    split; [constructor; [apply invalid_entry_tagged|done]|].
    split; [constructor; [by exists k, x, y|done]|].
    split.
    { intros [|i] raw Hi; simpl in Hi.
      - injection Hi as <-. simpl. by rewrite Nat.add_0_r, app_nil_r.
      - rewrite (Hasked i raw Hi). simpl.
        by rewrite <- app_assoc, Nat.add_succ_r. }
    split; [simpl; lia|]. split; [lia|].
    replace (q + length (out :: raws)) with (S q + length raws) by (simpl; lia).
    destruct d; simpl; (done || lia).
Qed.

Lemma attempt_loop_validated (attempts q : nat) (history : list pydict)
    (e : pydict) (history' : list pydict) (q' : nat) :
  attempt_loop trim extract C attempts q history = (Accepted e, history', q') ->
  validated C e.
Proof.
  revert q history. induction attempts as [|n IH]; intros q history; [done|].
  simpl. set (out := ask_next_action C q (trim history 6)).
  destruct (action_of "NOOP" out) as [k|err] eqn:Hk; [|done].
  destruct (String.eqb k "BITTI") eqn:Hb; [done|].
  destruct (is_pointer_kind k) eqn:Hp.
  - destruct (extract out) as [[x y]|err] eqn:Hxy; [|done].
    destruct (fst (validate_xy C x y)) eqn:Hv.
    + intros [= <- <- <-] _. exists x, y. unfold store_xy.
      rewrite lookup_insert_ne by done. by rewrite !lookup_insert_eq.
    + apply IH.
  - intros [= <- <- <-] (k' & Hk' & Hp'). congruence.
Qed.

(** Every action handed to [execute_action] is a validated one. *)
Lemma steps_validated (fuel : nat) (step : Z) (q : nat) (history acts : list pydict) :
  Forall (validated C) acts ->
  Forall (validated C) (executed (steps trim extract C fuel step q history acts)).
Proof.
  revert step q history acts.
  induction fuel as [|fuel IH]; intros step q history acts Hdone; [done|].
  simpl. destruct (stop_is_set C step); [done|].
  destruct (attempt_loop trim extract C (Z.to_nat (MODEL_RETRY C + 1)) q history)
    as [[d history1] q1] eqn:Hd.
  destruct d as [out| | |e]; try done.
  destruct (fst (should_stop_on_repeat C history1 out)); [done|].
  destruct (action_of "" out); [|done].
  assert (Forall (validated C) (acts ++ [out])) as Hdone2.
  { apply Forall_app. split; [done|]. constructor; [|constructor].
    by eapply attempt_loop_validated. }
  destruct (step + 1 >? MAX_STEPS C)%Z; [done|]. by apply IH.
Qed.

(** The run ends by itself, and executes no more than the steps left. *)
Lemma steps_total (fuel : nat) (step : Z) (q : nat) (history acts : list pydict) :
  steps_left C step <= fuel ->
  let r := steps trim extract C fuel step q history acts in
  ended r <> OutOfFuel /\ length (executed r) <= length acts + steps_left C step.
Proof.
  revert step q history acts.
  induction fuel as [|fuel IH]; intros step q history acts Hfuel.
  { unfold steps_left in Hfuel. lia. }
  simpl. destruct (stop_is_set C step); [simpl; split; [done|lia]|].
  destruct (attempt_loop trim extract C (Z.to_nat (MODEL_RETRY C + 1)) q history)
    as [[d history1] q1].
  destruct d as [out| | |e]; try (simpl; split; [done|lia]).
  destruct (fst (should_stop_on_repeat C history1 out)); [simpl; split; [done|lia]|].
  destruct (action_of "" out); [|simpl; split; [done|lia]].
  destruct (Z.gtb_spec (step + 1) (MAX_STEPS C)) as [Hgt|Hle].
  - simpl. rewrite length_app. simpl. unfold steps_left. split; [done|lia].
  - assert (steps_left C (step + 1) <= fuel) as Hfuel'.
    { unfold steps_left in *. lia. }
    destruct (IH (step + 1)%Z q1 (history1 ++ [out]) (acts ++ [out]) Hfuel')
      as [Hend Hlen].
    split; [done|]. rewrite length_app in Hlen. simpl in Hlen.
    unfold steps_left in *. lia.
Qed.

End LoopFacts.

Section LoopScenarios.
Context `{Builtins}.
Variable trim : list pydict -> Z -> list pydict.
Variable extract : pydict -> res point.
Variable C : collaborators.

(** Three rejected pointer actions in a row, with two retries. *)
Lemma run_three_rejected :
  MODEL_RETRY C = 2%Z ->
  stop_is_set C 1 = false ->
  (forall q h, q < 3 -> rejected extract C (ask_next_action C q h)) ->
  let r := run_loop trim extract C in
  ended r = Returned "ERROR(no valid action)"
  /\ executed r = [] /\ queries r = 3
  /\ exists o0 o1 o2,
       final_history r = [invalid_entry o0; invalid_entry o1; invalid_entry o2].
Proof.
  intros Hretry Hstop Hrej. unfold run_loop, run_fuel.
  destruct (Z.to_nat (Z.max 1 (MAX_STEPS C))) as [|fuel] eqn:Hfuel; [lia|].
  cbn [steps]. rewrite Hstop, Hretry.
  change (Z.to_nat (2 + 1)) with 3.
  rewrite attempt_rejected by (apply Hrej; lia).
  rewrite attempt_rejected by (apply Hrej; lia).
  rewrite attempt_rejected by (apply Hrej; lia).
  cbn [attempt_loop ended executed queries final_history].
  repeat split; try done. eauto.
Qed.

(** The terminal kind in the first response. *)
Lemma run_terminal_first :
  (0 <= MODEL_RETRY C)%Z ->
  stop_is_set C 1 = false ->
  (forall h, terminal (ask_next_action C 0 h)) ->
  run_loop trim extract C = Run (Returned "DONE(BITTI)") [] [] 1.
Proof.
  intros Hretry Hstop Hterm. unfold run_loop, run_fuel.
  destruct (Z.to_nat (Z.max 1 (MAX_STEPS C))) as [|fuel] eqn:Hfuel; [lia|].
  cbn [steps]. rewrite Hstop.
  destruct (Z.to_nat (MODEL_RETRY C + 1)) as [|n] eqn:Hn; [lia|].
  by rewrite attempt_terminal by apply Hterm.
Qed.

(** A run in which nothing ends the loop early runs every step. *)
Lemma steps_to_the_maximum (fuel : nat) (step : Z) (q : nat) (history acts : list pydict) :
  (0 <= MODEL_RETRY C)%Z ->
  (forall s, stop_is_set C s = false) ->
  (forall q h, accepted_first extract C (ask_next_action C q h)) ->
  (forall h o, fst (should_stop_on_repeat C h o) = false) ->
  steps_left C step <= fuel ->
  let r := steps trim extract C fuel step q history acts in
  ended r = Returned "DONE(max-steps)"
  /\ length (executed r) = length acts + steps_left C step.
Proof.
  intros Hretry Hstop Hacc Hguard.
  revert step q history acts.
  induction fuel as [|fuel IH]; intros step q history acts Hfuel.
  { unfold steps_left in Hfuel. lia. }
  cbn [steps]. rewrite Hstop.
  destruct (Z.to_nat (MODEL_RETRY C + 1)) as [|n] eqn:Hn; [lia|].
  assert (exists e, attempt_loop trim extract C (S n) q history = (Accepted e, history, S q)
                    /\ exists k, action_of "" e = Ok k) as (e & -> & k & Hk).
  { destruct (Hacc q (trim history 6)) as [Ho|(x & y & Hv)].
    - eexists. split; [by apply attempt_other|].
      destruct Ho as (k & Hk & _). by eapply action_of_default.
    - eexists. split; [by apply attempt_valid|].
      destruct Hv as (k & Hk & _). rewrite action_of_store_xy.
      by eapply action_of_default. }
  rewrite Hguard, Hk.
  destruct (Z.gtb_spec (step + 1) (MAX_STEPS C)) as [Hgt|Hle].
  - cbn [ended executed]. rewrite length_app. simpl.
    unfold steps_left. split; [done|lia].
  - assert (steps_left C (step + 1) <= fuel) as Hfuel'.
    { unfold steps_left in *. lia. }
    destruct (IH (step + 1)%Z (S q) (history ++ [e]) (acts ++ [e]) Hfuel')
      as [Hend Hlen].
    split; [done|]. rewrite Hlen, length_app. simpl.
    unfold steps_left. lia.
Qed.

End LoopScenarios.

(** ** The claims about the loop, for the loop of each file *)

(** C2: in both files, with two retries three rejected pointer actions in a
    row end the run with the error result; the terminal kind in the first
    response ends it as completed at step 1 with no action executed; and a
    run that nothing else ends runs [max 1 MAX_STEPS] steps and ends with
    the max-steps result (no run ever executes more). *)
Theorem loop_terminal_outcomes `{Builtins} :
  loop_outcomes GuiMain._extract_xy GuiMainLoop.run_single_command
  /\ loop_outcomes MissionControl._extract_xy MissionControlLoop.run_single_command.
Proof.
  assert (forall trim extract, loop_outcomes extract (run_loop trim extract))
    as Hloop.
  { intros trim extract.
    intros C. split; [|split; [|split]].
    - intros Hretry Hstop Hrej.
      destruct (run_three_rejected trim extract C Hretry Hstop Hrej)
        as (? & ? & ? & _). by repeat split.
    - apply run_terminal_first.
    - intros Hretry Hstop Hacc Hguard.
      destruct (steps_to_the_maximum trim extract C (run_fuel C) 1 0 [] []
                  Hretry Hstop Hacc Hguard) as [Hend Hlen].
      { unfold steps_left, run_fuel. lia. }
      split; [done|]. unfold run_loop. rewrite Hlen. unfold steps_left. simpl. lia.
    - destruct (steps_total trim extract C (run_fuel C) 1 0 [] []) as [Hend Hlen].
      { unfold steps_left, run_fuel. lia. }
      split; [done|]. unfold run_loop. unfold steps_left in Hlen. simpl in Hlen. lia. }
  split; apply Hloop.
Qed.

Lemma bad_click_rejected (extract : pydict -> res point) :
  extract (click_at (6#5) (3#10)) = Ok (pt (6#5) (3#10)) ->
  forall (q : nat) (h : list pydict),
    q < 3 ->
    rejected (H:=ascii_builtins) extract bad_clicks (ask_next_action bad_clicks q h).
Proof. intros He q h _. exists "CLICK", (Finite (Q2Qc (6#5))), (Finite (Q2Qc (3#10))). by repeat split. Qed.

Lemma loop_terminal_outcomes_witness :
  ended (GuiMainLoop.run_single_command (H:=ascii_builtins) bad_clicks)
    = Returned "ERROR(no valid action)"
  /\ executed (GuiMainLoop.run_single_command (H:=ascii_builtins) bad_clicks) = []
  /\ queries (GuiMainLoop.run_single_command (H:=ascii_builtins) bad_clicks) = 3.
Proof.
  destruct (loop_terminal_outcomes (H:=ascii_builtins)) as [Hmain _].
  destruct (Hmain bad_clicks) as [Herr _].
  apply Herr; [reflexivity | reflexivity |].
  apply bad_click_rejected. reflexivity.
Defined.

(** The terminal kind is the string BITTI alone: an action DONE is executed
    like any other, step after step. *)
Example run_done_answers :
  let r := GuiMainLoop.run_single_command (H:=ascii_builtins) done_answers in
  ended r = Returned "DONE(max-steps)" /\ length (executed r) = 2 /\ queries r = 2.
Proof. vm_compute. by repeat split. Qed.

(** C3: in both files, a pointer action that fails validation adds exactly
    one entry to the history, the dict tagged INVALID_COORDS that holds the
    raw response and nothing else, and the model is asked again on the
    history with that entry; the block asks at most [MODEL_RETRY + 1]
    times, the history grows by the tagged entries of the rejected answers
    only, and the block is left on the first answer that is not rejected;
    an action of any other kind is accepted as it is on the first response,
    with the history untouched. *)
Theorem retry_scoped_to_invalid_coords `{Builtins} :
  retry_is_scoped (@GuiMain.trim_history pydict) GuiMain._extract_xy
  /\ retry_is_scoped (@MissionControl.trim_history pydict) MissionControl._extract_xy.
Proof.
  assert (forall trim extract, retry_is_scoped trim extract) as Hblock.
  { intros trim extract.
    intros C. split; [|split].
    - intros n q history out Hrej. exists (invalid_entry out).
      split; [apply invalid_entry_tagged|by apply attempt_rejected].
    - intros n q history. apply attempt_other.
    - intros q history.
      destruct (attempt_loop_block trim extract C (Z.to_nat (MODEL_RETRY C + 1)) q history)
        as (raws & entries & Hspec).
      exists raws, entries.
      destruct (attempt_loop trim extract C (Z.to_nat (MODEL_RETRY C + 1)) q history)
        as [[d history'] q'].
      destruct Hspec as (Hh & Ht & Hr & Hasked & Hq & Hle & Hleft).
      repeat split; try done. lia. }
  split; apply Hblock.
Qed.

Lemma retry_scoped_to_invalid_coords_witness :
  exists e,
    (e !! "action" = Some (VStr "INVALID_COORDS")
     /\ e !! "raw" = Some (VDict (click_at (6#5) (3#10)))
     /\ size e = 2)
    /\ attempt_loop (H:=ascii_builtins) (@GuiMain.trim_history pydict)
         (GuiMain._extract_xy (H:=ascii_builtins)) bad_clicks 3 0 []
       = attempt_loop (H:=ascii_builtins) (@GuiMain.trim_history pydict)
           (GuiMain._extract_xy (H:=ascii_builtins)) bad_clicks 2 1 ([] ++ [e]).
Proof.
  destruct (retry_scoped_to_invalid_coords (H:=ascii_builtins)) as [Hmain _].
  destruct (Hmain bad_clicks) as [Hrej _].
  apply (Hrej 2 0 []).
  apply bad_click_rejected; [reflexivity | lia].
Defined.

(** The whole block on the rejected clicks: three queries, three tagged
    entries, no action. *)
Example attempt_loop_bad_clicks :
  attempt_loop (H:=ascii_builtins) (@GuiMain.trim_history pydict)
    (GuiMain._extract_xy (H:=ascii_builtins)) bad_clicks 3 0 []
  = (NoValidAction,
     [invalid_entry (click_at (6#5) (3#10));
      invalid_entry (click_at (6#5) (3#10));
      invalid_entry (click_at (6#5) (3#10))], 3).
Proof. reflexivity. Qed.

Lemma run_loop_unit_points `{Builtins} trim extract (C : collaborators) :
  meets_validator_contract (validate_xy C) ->
  Forall carries_unit_point (executed (run_loop trim extract C)).
Proof.
  intros Hv.
  eapply Forall_impl; [apply (steps_validated trim extract C); constructor|].
  intros e He Hp. destruct (He Hp) as (x & y & Hx & Hy & Hok).
  exists x, y. apply Hv in Hok. by destruct Hok.
Qed.

Lemma Qc_leb_le (a b : Qc) : Qc_leb a b = true <-> (a <= b)%Qc.
Proof.
  unfold Qc_leb. rewrite negb_true_iff, Qcle_ngt.
  rewrite <- TranslatorFacts.Qc_ltb_lt. by destruct (VMView.Qc_ltb b a).
Qed.

Lemma in_unit_b_spec (f : pyfloat) : in_unit_b f = true <-> in_unit f.
Proof.
  destruct f as [q| | |]; simpl; try (split; [done|tauto]).
  by rewrite andb_true_iff, !Qc_leb_le.
Qed.

Lemma unit_validator_contract : meets_validator_contract unit_validator.
Proof.
  intros x y. unfold unit_validator.
  rewrite <- !in_unit_b_spec, <- andb_true_iff.
  by destruct (in_unit_b x && in_unit_b y).
Qed.

(** C5: with a validator that meets its contract, every pointer action that
    a run of either file hands to [execute_action] carries a point of
    [0,1] x [0,1], and so does every call of the pointer-event handlers that
    carries a point; a point outside is never passed on. *)
Theorem actuation_points_in_unit_square `{Builtins} :
  (forall C : collaborators,
     meets_validator_contract (validate_xy C) ->
     Forall carries_unit_point (executed (GuiMainLoop.run_single_command C))
     /\ Forall carries_unit_point (executed (MissionControlLoop.run_single_command C)))
  /\ (forall (v : VMView.view) (es : list VMView.event),
        Forall Pointer.call_in_unit (snd (VMView.handle_all v es))).
Proof.
  split.
  - intros C Hv. split; by apply run_loop_unit_points.
  - intros v es. apply ViewFacts.handle_all_calls_in_unit.
Qed.

Lemma actuation_points_in_unit_square_witness :
  Forall (carries_unit_point (H:=ascii_builtins))
    (executed (GuiMainLoop.run_single_command (H:=ascii_builtins) good_clicks))
  /\ Forall (carries_unit_point (H:=ascii_builtins))
       (executed (MissionControlLoop.run_single_command (H:=ascii_builtins) good_clicks)).
Proof.
  destruct (actuation_points_in_unit_square (H:=ascii_builtins)) as [Hloop _].
  apply (Hloop good_clicks). apply unit_validator_contract.
Defined.

(** The run on the accepted clicks executes two actions, each with the
    validated point stored, and ends with the max-steps result. *)
Example run_good_clicks :
  let r := GuiMainLoop.run_single_command (H:=ascii_builtins) good_clicks in
  ended r = Returned "DONE(max-steps)" /\ length (executed r) = 2 /\ queries r = 2.
Proof. vm_compute. by repeat split. Qed.

(** ** Properties of the down-scaler *)

Module VisionFacts.
Import Vision.

(** [int] of a float that is not negative rounds down. *)
Lemma py_int_floor (q : Qc) :
  (Q2Qc 0 <= q)%Qc -> py_int (Finite q) = Ok (Qfloor (this q)).
Proof.
  intros Hq. simpl. f_equal. destruct q as [[n d] Hc]. simpl in *.
  unfold Qcle, Qle in Hq. simpl in Hq.
  rewrite Z.quot_div_nonneg by lia. done.
Qed.

(** [int(a / b)] on ints below [2^53] with [0 <= a] and [0 < b] is the
    integer quotient: the rounding of the quotient to binary64 never
    reaches the next integer. *)
Lemma int_of_quotient (a b : Z) :
  (0 <= a < 2 ^ 53)%Z -> (0 < b < 2 ^ 53)%Z ->
  exists f, py_truediv a b = Ok f /\ py_int f = Ok (a / b)%Z.
Proof.
  intros Ha Hb. unfold py_truediv.
  destruct (Z.eqb_spec b 0) as [->|_]; [lia|].
  pose proof (RoundFacts.floor_round_quotient a b Ha Hb) as Hfl.
  set (q := (inject_Z a / inject_Z b)%Q) in *.
  assert (Hq : (0 <= q)%Q).
  { unfold q. apply Qle_shift_div_l; [apply RoundFacts.inject_Z_pos; lia|].
    rewrite Qmult_0_l. change 0%Q with (inject_Z 0). rewrite <- Zle_Qle. lia. }
  assert (H0 : (0 <= round_fin q)%Q) by (by apply RoundFacts.round_fin_nonneg).
  assert (H1 : (round_fin q <= inject_Z (2 ^ 53))%Q).
  { apply Qlt_le_weak. eapply Qlt_le_trans; [apply Qlt_floor|].
    rewrite Hfl, <- Zle_Qle.
    assert (a / b <= a)%Z by (apply Z.div_le_upper_bound; nia). lia. }
  rewrite (RoundFacts.round64_finite_small q H0 H1).
  eexists. split; [reflexivity|].
  rewrite py_int_floor.
  - f_equal. rewrite <- Hfl. apply Qfloor_comp. simpl. apply Qred_correct.
  - unfold Qcle. simpl. by rewrite !Qred_correct.
Qed.

(** The size computed for an image with sides of at least one pixel and a
    bound of at least one, as long as a side times the bound stays below
    [2^53]: no side exceeds the bound and the longer side takes it, but the
    shorter side is the rounded-down quotient, which is zero when the image
    is more than [max_dim] times longer than wide (or wider than long). *)
Lemma target_size_spec (w h max_dim : Z) :
  (1 <= w)%Z -> (1 <= h)%Z -> (1 <= max_dim)%Z ->
  (w * max_dim < 2 ^ 53)%Z -> (h * max_dim < 2 ^ 53)%Z ->
  target_size w h max_dim
  = Ok (if (w <=? max_dim)%Z && (h <=? max_dim)%Z then None
        else if (w >=? h)%Z then Some (max_dim, (h * max_dim / w)%Z)
        else Some ((w * max_dim / h)%Z, max_dim)).
Proof.
  intros Hw Hh Hm Hwm Hhm. unfold target_size.
  destruct ((w <=? max_dim)%Z && (h <=? max_dim)%Z); [done|].
  destruct (w >=? h)%Z.
  - destruct (int_of_quotient (h * max_dim) w) as (f & -> & Hf); [nia|nia|].
    simpl. by rewrite Hf.
  - destruct (int_of_quotient (w * max_dim) h) as (f & -> & Hf); [nia|nia|].
    simpl. by rewrite Hf.
Qed.

Lemma target_size_bounds (w h max_dim : Z) (new_w new_h : Z) :
  (1 <= w)%Z -> (1 <= h)%Z -> (1 <= max_dim)%Z ->
  (w * max_dim < 2 ^ 53)%Z -> (h * max_dim < 2 ^ 53)%Z ->
  target_size w h max_dim = Ok (Some (new_w, new_h)) ->
  (0 <= new_w <= max_dim)%Z /\ (0 <= new_h <= max_dim)%Z
  /\ ((1 <= new_w)%Z /\ (1 <= new_h)%Z
      <-> (Z.max w h <= Z.min w h * max_dim)%Z).
Proof.
  intros Hw Hh Hm Hwm Hhm. rewrite target_size_spec by done.
  destruct ((w <=? max_dim)%Z && (h <=? max_dim)%Z); [done|].
  destruct (Z.geb_spec w h) as [Hge|Hlt]; intros [= <- <-].
  - assert (0 <= h * max_dim / w)%Z by (apply Z.div_pos; lia).
    assert (h * max_dim / w <= max_dim)%Z.
    { apply Z.div_le_upper_bound; [lia|nia]. }
    rewrite Z.max_l, Z.min_r by lia.
    split; [lia|]. split; [lia|]. split.
    + intros [_ Hpos]. destruct (Z.le_gt_cases w (h * max_dim)) as [|Hsmall]; [done|].
      rewrite Z.div_small in Hpos by lia. lia.
    + intros Hle. split; [lia|]. apply Z.div_le_lower_bound; lia.
  - assert (0 <= w * max_dim / h)%Z by (apply Z.div_pos; lia).
    assert (w * max_dim / h <= max_dim)%Z.
    { apply Z.div_le_upper_bound; [lia|nia]. }
    rewrite Z.max_r, Z.min_l by lia.
    split; [lia|]. split; [lia|]. split.
    + intros [Hpos _]. destruct (Z.le_gt_cases h (w * max_dim)) as [|Hsmall]; [done|].
      rewrite Z.div_small in Hpos by lia. lia.
    + intros Hle. split; [|lia]. apply Z.div_le_lower_bound; lia.
Qed.

End VisionFacts.

(** C10 fails on a screenshot 1000 pixels wide and 1 pixel high with a bound
    of 100: [new_h = int(1 * 100 / 1000) = 0], and the image is resized to
    (100, 0). *)
Theorem resize_keep_aspect_flat_image :
  Vision.resize_keep_aspect (Z * Z) id sized_resize (1000, 1)%Z 100
  = Ok (100, 0)%Z.
Proof. vm_compute. reflexivity. Qed.

(** X2: what holds of the down-scaler on sides and a bound of at least one,
    as long as a side times the bound stays below [2^53].  The image is
    returned as it is when both sides are within the bound.  Otherwise
    [img.resize] is asked for a size with no side above the bound, whose
    sides are both at least one exactly when the longer side is at most
    [max_dim] times the shorter; and then the resized image is returned. *)
Theorem resize_keep_aspect_bounds
    (Image : Type) (size : Image -> Z * Z) (resize : Image -> Z * Z -> Image)
    (img : Image) (max_dim : Z) :
  (1 <= fst (size img))%Z -> (1 <= snd (size img))%Z -> (1 <= max_dim)%Z ->
  (fst (size img) * max_dim < 2 ^ 53)%Z -> (snd (size img) * max_dim < 2 ^ 53)%Z ->
  ((fst (size img) <= max_dim)%Z /\ (snd (size img) <= max_dim)%Z ->
   Vision.resize_keep_aspect Image size resize img max_dim = Ok img)
  /\ (~ ((fst (size img) <= max_dim)%Z /\ (snd (size img) <= max_dim)%Z) ->
      exists new_w new_h,
        Vision.target_size (fst (size img)) (snd (size img)) max_dim
        = Ok (Some (new_w, new_h))
        /\ (0 <= new_w <= max_dim)%Z /\ (0 <= new_h <= max_dim)%Z
        /\ ((1 <= new_w)%Z /\ (1 <= new_h)%Z
            <-> (Z.max (fst (size img)) (snd (size img))
                 <= Z.min (fst (size img)) (snd (size img)) * max_dim)%Z)
        /\ ((1 <= new_w)%Z /\ (1 <= new_h)%Z ->
            Vision.resize_keep_aspect Image size resize img max_dim
            = Ok (resize img (new_w, new_h)))).
Proof.
  intros Hw Hh Hm Hwm Hhm. unfold Vision.resize_keep_aspect.
  destruct (size img) as [w h]. simpl in *.
  split.
  - intros [Hfw Hfh]. rewrite VisionFacts.target_size_spec by done.
    destruct (Z.leb_spec w max_dim); [|lia].
    by destruct (Z.leb_spec h max_dim); [|lia].
  - intros Hnot.
    assert (exists new_w new_h,
              Vision.target_size w h max_dim = Ok (Some (new_w, new_h)))
      as (new_w & new_h & Ht).
    { rewrite VisionFacts.target_size_spec by done.
      destruct (Z.leb_spec w max_dim), (Z.leb_spec h max_dim); simpl;
        try (exfalso; apply Hnot; lia); destruct (w >=? h)%Z; by eexists _, _. }
    exists new_w, new_h. split; [done|].
    destruct (VisionFacts.target_size_bounds w h max_dim new_w new_h)
      as (Hbw & Hbh & Hiff); try done.
    split; [done|]. split; [done|]. split; [done|].
    intros _. by rewrite Ht.
Qed.

Lemma resize_keep_aspect_bounds_witness :
  exists new_w new_h,
    Vision.target_size 1920 1080 640 = Ok (Some (new_w, new_h))
    /\ (0 <= new_w <= 640)%Z /\ (0 <= new_h <= 640)%Z
    /\ ((1 <= new_w)%Z /\ (1 <= new_h)%Z <-> (Z.max 1920 1080 <= Z.min 1920 1080 * 640)%Z)
    /\ ((1 <= new_w)%Z /\ (1 <= new_h)%Z ->
        Vision.resize_keep_aspect (Z * Z) id sized_resize (1920, 1080)%Z 640
        = Ok (sized_resize (1920, 1080)%Z (new_w, new_h))).
Proof.
  destruct (resize_keep_aspect_bounds (Z * Z) id sized_resize (1920, 1080)%Z 640)
    as [_ Hresize]; [simpl; lia | simpl; lia | lia | simpl; lia | simpl; lia |].
  apply Hresize. simpl. lia.
Defined.

Example resize_keep_aspect_hd :
  Vision.resize_keep_aspect (Z * Z) id sized_resize (1920, 1080)%Z 640
  = Ok (640, 360)%Z.
Proof. vm_compute. reflexivity. Qed.

(** Beyond [2^53] the rounding of the quotient shows: for an image of
    [10^17] by [10^17 - 1] pixels and the bound [10^17 - 1] the height asked
    for is [10^17], above the bound. *)
Example resize_keep_aspect_huge :
  Vision.target_size (10 ^ 17) (10 ^ 17 - 1) (10 ^ 17 - 1)
  = Ok (Some (10 ^ 17 - 1, 10 ^ 17))%Z.
Proof. vm_compute. reflexivity. Qed.

(** * Part IV: further properties of the code *)

(** ** The extractor *)

(** X4: each coordinate defaults on its own.  With no well-formed [position],
    a missing [x] or [y] is read as 0.5 and a number under the key is read
    as that number, in both files. *)
Theorem extract_xy_coordinate_defaults `{Builtins} (out : pydict) (fx fy : pyfloat) :
  no_position out ->
  coordinate (out !! "x") fx -> coordinate (out !! "y") fy ->
  GuiMain._extract_xy out = Ok (fx, fy)
  /\ MissionControl._extract_xy out = Ok (fx, fy).
Proof.
  intros Hpos Hx Hy.
  assert (exists vx, default (VFloat (Finite half)) (out !! "x") = vx
                     /\ number vx fx) as (vx & Ex & Hvx).
  { destruct (out !! "x") as [v|]; simpl in *; [by eauto|].
    subst fx. eexists. by repeat split. }
  assert (exists vy, default (VFloat (Finite half)) (out !! "y") = vy
                     /\ number vy fy) as (vy & Ey & Hvy).
  { destruct (out !! "y") as [v|]; simpl in *; [by eauto|].
    subst fy. eexists. by repeat split. }
  unfold GuiMain._extract_xy, MissionControl._extract_xy.
  rewrite (position_rules_absent _ Hpos), Ex, Ey.
  unfold GuiMain.list_rules, MissionControl.list_rules.
  rewrite (number_not_seq _ _ Hvx), (number_not_seq _ _ Hvy).
  unfold float_pair. rewrite (number_float _ _ Hvx), (number_float _ _ Hvy).
  by split.
Qed.

Lemma extract_xy_coordinate_defaults_witness :
  GuiMain._extract_xy (H:=ascii_builtins) {[ "x" := fl (1#4) ]}
    = Ok (Finite (Q2Qc (1#4)), Finite half)
  /\ MissionControl._extract_xy (H:=ascii_builtins) {[ "x" := fl (1#4) ]}
    = Ok (Finite (Q2Qc (1#4)), Finite half).
Proof.
  apply (extract_xy_coordinate_defaults (H:=ascii_builtins) {[ "x" := fl (1#4) ]}).
  - intros pos Hpos. vm_compute in Hpos. by inversion Hpos.
  - split; reflexivity.
  - reflexivity.
Defined.

(** The mean of two floats of the unit interval lies in it. *)
Lemma midpoint_in_unit (a b : pyfloat) :
  in_unit a -> in_unit b -> in_unit (midpoint a b).
Proof.
  destruct a as [p| | |], b as [q| | |]; simpl; try tauto.
  unfold Qcle. simpl. intros [Hp0 Hp1] [Hq0 Hq1].
  rewrite ?Qred_correct in *.
  assert (Hr : in_float_range (p + q)).
  { unfold in_float_range. simpl. rewrite Qred_correct.
    assert (2 < inject_Z float_int_limit)%Q.
    { change 2%Q with (inject_Z 2). rewrite <- Zlt_Qlt. reflexivity. }
    split; lra. }
  rewrite (midpoint_mean _ _ Hr). unfold mean. simpl.
  unfold Qcle. simpl. rewrite !Qred_correct. split; lra.
Qed.

Lemma fadd_comm (a b : pyfloat) : fadd a b = fadd b a.
Proof.
  destruct a as [p| | |], b as [q| | |]; simpl; try reflexivity.
  by rewrite Qcplus_comm.
Qed.

Lemma number_unique `{Builtins} (v : pyval) (f f' : pyfloat) :
  number v f -> number v f' -> f = f'.
Proof. intros [_ Hf] [_ Hf']. congruence. Qed.

Lemma list_point_in_unit `{Builtins} (items : list pyval) (p : point) :
  list_point items p -> Forall unit_number items ->
  in_unit (fst p) /\ in_unit (snd p).
Proof.
  intros Hp Hu.
  destruct Hp as [a b fa fb Ha Hb|x1 y1 x2 y2 fx1 fy1 fx2 fy2 H1 H2 H3 H4].
  - apply Forall_cons in Hu as [(f1 & Hf1 & U1) Hu].
    apply Forall_cons in Hu as [(f2 & Hf2 & U2) _].
    rewrite (number_unique _ _ _ Ha Hf1), (number_unique _ _ _ Hb Hf2). by split.
  - apply Forall_cons in Hu as [(f1 & Hf1 & U1) Hu].
    apply Forall_cons in Hu as [(f2 & Hf2 & U2) Hu].
    apply Forall_cons in Hu as [(f3 & Hf3 & U3) Hu].
    apply Forall_cons in Hu as [(f4 & Hf4 & U4) _].
    rewrite (number_unique _ _ _ H1 Hf1), (number_unique _ _ _ H2 Hf2),
      (number_unique _ _ _ H3 Hf3), (number_unique _ _ _ H4 Hf4).
    split; by apply midpoint_in_unit.
Qed.

(** X5: a [position] that is a pair or a bounding box of numbers of [0,1] is
    read by both files as a point of the unit square: the pair itself or
    the centre of the box. *)
Theorem position_in_unit_square `{Builtins}
    (out : pydict) (pos : pyval) (items : list pyval) (p : point) :
  out !! "position" = Some pos -> seq_items pos = Some items ->
  list_point items p -> Forall unit_number items ->
  GuiMain._extract_xy out = Ok p /\ MissionControl._extract_xy out = Ok p
  /\ in_unit (fst p) /\ in_unit (snd p).
Proof.
  intros Hpos Hs Hp Hu.
  unfold GuiMain._extract_xy, MissionControl._extract_xy. rewrite Hpos. simpl.
  rewrite (list_point_position_rules _ _ _ Hs Hp).
  split; [done|]. split; [done|]. by eapply list_point_in_unit.
Qed.

Lemma position_in_unit_square_witness :
  GuiMain._extract_xy (H:=ascii_builtins) out_bbox
    = Ok (midpoint (Finite (Q2Qc (1#4))) (Finite (Q2Qc (3#4))),
          midpoint (Finite (Q2Qc (1#2))) (Finite (Q2Qc (inject_Z 1))))
  /\ MissionControl._extract_xy (H:=ascii_builtins) out_bbox
    = Ok (midpoint (Finite (Q2Qc (1#4))) (Finite (Q2Qc (3#4))),
          midpoint (Finite (Q2Qc (1#2))) (Finite (Q2Qc (inject_Z 1))))
  /\ in_unit (midpoint (Finite (Q2Qc (1#4))) (Finite (Q2Qc (3#4))))
  /\ in_unit (midpoint (Finite (Q2Qc (1#2))) (Finite (Q2Qc (inject_Z 1)))).
Proof.
  refine (position_in_unit_square (H:=ascii_builtins) out_bbox _ _ (_, _) _ _ _ _).
  - reflexivity.
  - reflexivity.
  - apply point_of_bbox; split; reflexivity.
  - repeat constructor; eexists; (split; [split; reflexivity|]);
      split; by vm_compute.
Defined.

(** X6: the centre of a bounding box does not depend on the order of its
    two corners, whenever the four items convert. *)
Theorem center_from_bbox_corner_order `{Builtins} (x1 y1 x2 y2 : pyval) (fs : list pyfloat) :
  map_float [x1; y1; x2; y2] = Ok fs ->
  _center_from_bbox [x2; y2; x1; y1] = _center_from_bbox [x1; y1; x2; y2]
  /\ exists p, _center_from_bbox [x1; y1; x2; y2] = Ok p.
Proof.
  unfold _center_from_bbox. simpl.
  destruct (py_float x1) as [f1|]; [|done]. destruct (py_float y1) as [g1|]; [|done].
  destruct (py_float x2) as [f2|]; [|done]. destruct (py_float y2) as [g2|]; [|done].
  simpl. intros _. unfold midpoint. rewrite (fadd_comm f2 f1), (fadd_comm g2 g1).
  split; [done|]. eauto.
Qed.

Lemma center_from_bbox_corner_order_witness :
  _center_from_bbox (H:=ascii_builtins) [fl (3#4); VInt 1; fl (1#4); fl (1#2)]
  = _center_from_bbox (H:=ascii_builtins) [fl (1#4); fl (1#2); fl (3#4); VInt 1]
  /\ exists p, _center_from_bbox (H:=ascii_builtins)
                 [fl (1#4); fl (1#2); fl (3#4); VInt 1] = Ok p.
Proof.
  eapply (center_from_bbox_corner_order (H:=ascii_builtins)). reflexivity.
Defined.

(** ** The execution loop *)

Section LoopAccounts.
Context `{Builtins}.
Variable trim : list pydict -> Z -> list pydict.
Variable extract : pydict -> res point.
Variable C : collaborators.

Lemma attempt_unreadable (n q : nat) (history : list pydict) (e : exn) :
  breaks extract (ask_next_action C q (trim history 6)) e ->
  attempt_loop trim extract C (S n) q history = (Failed e, history, S q).
Proof.
  intros [Ha|(k & Hk & Hp & Hx)]; simpl.
  - by rewrite Ha.
  - by rewrite Hk, (pointer_not_bitti _ Hp), Hp, Hx.
Qed.

Lemma steps_accounts (fuel : nat) (step : Z) (q : nat) (history acts : list pydict) :
  exists new raws added,
    executed (steps trim extract C fuel step q history acts) = acts ++ new
    /\ final_history (steps trim extract C fuel step q history acts)
       = history ++ added
    /\ new `sublist_of` added
    /\ added ≡ₚ new ++ map invalid_entry raws
    /\ Forall (rejected extract C) raws
    /\ queries (steps trim extract C fuel step q history acts)
       = q + length new + length raws
         + ending_query (ended (steps trim extract C fuel step q history acts)).
Proof.
  revert step q history acts.
  induction fuel as [|fuel IH]; intros step q history acts.
  { exists [], [], []. simpl. rewrite !app_nil_r. repeat split; (done || lia || constructor). }
  cbn [steps]. destruct (stop_is_set C step).
  { exists [], [], []. simpl. rewrite !app_nil_r. repeat split; (done || lia || constructor). }
  destruct (attempt_loop_spec trim extract C (Z.to_nat (MODEL_RETRY C + 1)) q history)
    as [raws0 Hspec].
  destruct (attempt_loop trim extract C (Z.to_nat (MODEL_RETRY C + 1)) q history)
    as [[d history1] q1].
  destruct Hspec as (Hh & Hr & Hq & _ & _).
  assert (forall e : ending,
            ending_query e = last_query d ->
            exists new raws added,
              acts = acts ++ new /\ history1 = history ++ added
              /\ new `sublist_of` added
              /\ added ≡ₚ new ++ map invalid_entry raws
              /\ Forall (rejected extract C) raws
              /\ q1 = q + length new + length raws + ending_query e) as Hstay.
  { intros e He. exists [], raws0, (map invalid_entry raws0).
    rewrite app_nil_r, He. simpl. repeat split; try done.
    - apply sublist_nil_l.
    - lia. }
  destruct d as [out| | |e]; try (by apply Hstay).
  destruct (fst (should_stop_on_repeat C history1 out)); [by apply Hstay|].
  destruct (action_of "" out); [|by apply Hstay].
  destruct (step + 1 >? MAX_STEPS C)%Z.
  - exists [out], raws0, (map invalid_entry raws0 ++ [out]).
    cbn [executed final_history queries ended]. subst history1.
    rewrite <- app_assoc. repeat split; try done.
    + apply sublist_inserts_l. done.
    + by rewrite Permutation_app_comm.
    + simpl in *. lia.
  - destruct (IH (step + 1)%Z q1 (history1 ++ [out]) (acts ++ [out]))
      as (new & raws & added & He & Hf & Hsub & Hperm & Hrej & Hqs).
    exists (out :: new), (raws0 ++ raws), (map invalid_entry raws0 ++ out :: added).
    rewrite He, Hf, Hqs. subst history1.
    rewrite <- !app_assoc. simpl. repeat split; try done.
    + apply sublist_inserts_l. by constructor.
    + rewrite map_app, Hperm.
      rewrite (Permutation_app_comm (map invalid_entry raws0)). simpl.
      constructor. rewrite <- !app_assoc. apply Permutation_app_head.
      apply Permutation_app_comm.
    + by apply Forall_app.
    + rewrite length_app. simpl in *. lia.
Qed.

Lemma steps_query_budget (fuel : nat) (step : Z) (q : nat) (history acts : list pydict) :
  queries (steps trim extract C fuel step q history acts)
  <= q + steps_left C step * Z.to_nat (MODEL_RETRY C + 1).
Proof.
  revert step q history acts.
  induction fuel as [|fuel IH]; intros step q history acts; [simpl; lia|].
  cbn [steps]. destruct (stop_is_set C step); [simpl; lia|].
  destruct (attempt_loop_spec trim extract C (Z.to_nat (MODEL_RETRY C + 1)) q history)
    as [raws0 Hspec].
  destruct (attempt_loop trim extract C (Z.to_nat (MODEL_RETRY C + 1)) q history)
    as [[d history1] q1].
  destruct Hspec as (_ & _ & _ & Hle & _).
  assert (1 <= steps_left C step) as Hone by (unfold steps_left; lia).
  assert (q1 <= q + steps_left C step * Z.to_nat (MODEL_RETRY C + 1)) as Hq1 by nia.
  destruct d as [out| | |e]; try done.
  destruct (fst (should_stop_on_repeat C history1 out)); [done|].
  destruct (action_of "" out); [|done].
  destruct (Z.gtb_spec (step + 1) (MAX_STEPS C)) as [Hgt|Hnext]; [done|].
  specialize (IH (step + 1)%Z q1 (history1 ++ [out]) (acts ++ [out])).
  assert (steps_left C step = S (steps_left C (step + 1))) as ->.
  { unfold steps_left. lia. }
  lia.
Qed.

Lemma steps_stopped (fuel : nat) (step : Z) (q : nat) (history acts : list pydict) :
  ended (steps trim extract C fuel step q history acts) = Returned "STOPPED" ->
  exists new,
    executed (steps trim extract C fuel step q history acts) = acts ++ new
    /\ stop_is_set C (step + Z.of_nat (length new)) = true
    /\ forall i, (0 <= i < Z.of_nat (length new))%Z -> stop_is_set C (step + i) = false.
Proof.
  revert step q history acts.
  induction fuel as [|fuel IH]; intros step q history acts; [done|].
  cbn [steps]. destruct (stop_is_set C step) eqn:Hstop.
  { intros _. exists []. rewrite app_nil_r, Z.add_0_r. simpl.
    repeat split; try done. lia. }
  destruct (attempt_loop trim extract C (Z.to_nat (MODEL_RETRY C + 1)) q history)
    as [[d history1] q1].
  destruct d as [out| | |e]; try done.
  destruct (fst (should_stop_on_repeat C history1 out)); [done|].
  destruct (action_of "" out); [|done].
  destruct (step + 1 >? MAX_STEPS C)%Z; [done|].
  intros Hend.
  destruct (IH _ _ _ _ Hend) as (new & He & Hset & Hclear).
  exists (out :: new). rewrite He, <- app_assoc. simpl length.
  split; [done|]. split.
  - rewrite <- Hset. f_equal. lia.
  - intros i Hi. destruct (decide (i = 0%Z)) as [->|Hne].
    + by rewrite Z.add_0_r.
    + replace (step + i)%Z with (step + 1 + (i - 1))%Z by lia. apply Hclear. lia.
Qed.

End LoopAccounts.

(** X7: in both files every query of a run is accounted for.  The executed
    actions stand in the history in the order they were executed, the rest
    of the history is one tagged entry for each rejected response, and the
    queries made are the executed actions, the rejected responses and, when
    the run ends on a response (the terminal kind, the repeat guard or a
    raise), that one response. *)
Theorem run_history_accounted `{Builtins} :
  run_accounted GuiMain._extract_xy GuiMainLoop.run_single_command
  /\ run_accounted MissionControl._extract_xy MissionControlLoop.run_single_command.
Proof.
  assert (forall trim extract, run_accounted extract (run_loop trim extract)) as Hgen.
  { intros trim extract C. unfold run_loop.
    destruct (steps_accounts trim extract C (run_fuel C) 1 0 [] [])
      as (new & raws & added & He & Hf & Hsub & Hperm & Hrej & Hq).
    exists raws. rewrite He, Hf, Hq. simpl. by rewrite <- Hperm. }
  split; apply Hgen.
Qed.

(** X8: in both files a run asks the model at most
    [max 1 MAX_STEPS * (MODEL_RETRY + 1)] times, and not at all when
    [MODEL_RETRY] is negative. *)
Theorem run_query_budget `{Builtins} :
  query_budget GuiMainLoop.run_single_command
  /\ query_budget MissionControlLoop.run_single_command.
Proof.
  assert (forall trim extract, query_budget (run_loop trim extract)) as Hgen.
  { intros trim extract C. unfold run_loop.
    pose proof (steps_query_budget trim extract C (run_fuel C) 1 0 [] []) as Hb.
    unfold steps_left in Hb. replace (MAX_STEPS C - 1 + 1)%Z with (MAX_STEPS C) in Hb by lia.
    lia. }
  split; apply Hgen.
Qed.

(** X9: in both files the stop event is read at the head of a step and
    nowhere else.  A run without a stop event never returns STOPPED; a run
    that returns STOPPED read the event set at the head of the step after
    its last executed action and clear at the head of every step before;
    and an event set from the start stops the run before any query. *)
Theorem run_stop_observed `{Builtins} :
  stop_observed GuiMainLoop.run_single_command
  /\ stop_observed MissionControlLoop.run_single_command.
Proof.
  assert (forall trim extract, stop_observed (run_loop trim extract)) as Hgen.
  { intros trim extract C. unfold run_loop.
    assert (ended (steps trim extract C (run_fuel C) 1 0 [] []) = Returned "STOPPED" ->
            stop_is_set C (Z.of_nat (length (executed (steps trim extract C (run_fuel C) 1 0 [] []))) + 1) = true
            /\ forall s, (1 <= s <= Z.of_nat (length (executed (steps trim extract C (run_fuel C) 1 0 [] []))))%Z ->
                         stop_is_set C s = false) as Hstopped.
    { intros Hend. destruct (steps_stopped _ _ _ _ _ _ _ _ Hend) as (new & He & Hset & Hclear).
      rewrite He. simpl. split.
      - rewrite <- Hset. f_equal. lia.
      - intros s Hs. replace s with (1 + (s - 1))%Z by lia. apply Hclear. lia. }
    split; [|split].
    - intros Hnone Hend. destruct (Hstopped Hend) as [Hset _].
      unfold stop_is_set in Hset. by rewrite Hnone in Hset.
    - exact Hstopped.
    - intros Hset. unfold run_fuel.
      destruct (Z.to_nat (Z.max 1 (MAX_STEPS C))) as [|fuel] eqn:Hfuel; [lia|].
      cbn [steps]. by rewrite Hset. }
  split; apply Hgen.
Qed.

Lemma run_stop_observed_witness :
  GuiMainLoop.run_single_command (H:=ascii_builtins) stopped_at_three
  = Run (Returned "STOPPED")
      [store_xy (click_at (1#4) (1#2)) (Finite (Q2Qc (1#4))) (Finite (Q2Qc (1#2)));
       store_xy (click_at (1#4) (1#2)) (Finite (Q2Qc (1#4))) (Finite (Q2Qc (1#2)))]
      [store_xy (click_at (1#4) (1#2)) (Finite (Q2Qc (1#4))) (Finite (Q2Qc (1#2)));
       store_xy (click_at (1#4) (1#2)) (Finite (Q2Qc (1#4))) (Finite (Q2Qc (1#2)))]
      2
  /\ stop_is_set stopped_at_three
       (Z.of_nat (length (executed (GuiMainLoop.run_single_command (H:=ascii_builtins) stopped_at_three))) + 1)
     = true.
Proof.
  split; [reflexivity|].
  destruct (run_stop_observed (H:=ascii_builtins)) as [Hmain _].
  destruct (Hmain stopped_at_three) as (_ & Hstopped & _).
  apply Hstopped. reflexivity.
Defined.

(** X10: in both files a response on which the code raises ends the run with
    that exception on the spot.  A pointer action that [_extract_xy] cannot
    read, or an action that is no string, is not retried whatever
    [MODEL_RETRY] is, and leaves no entry in the history. *)
Theorem run_raise_ends_run `{Builtins} :
  raise_ends_run GuiMain._extract_xy GuiMainLoop.run_single_command
  /\ raise_ends_run MissionControl._extract_xy MissionControlLoop.run_single_command.
Proof.
  assert (forall trim extract, raise_ends_run extract (run_loop trim extract)) as Hgen.
  { intros trim extract C e Hretry Hstop Hbreak. unfold run_loop, run_fuel.
    destruct (Z.to_nat (Z.max 1 (MAX_STEPS C))) as [|fuel] eqn:Hfuel; [lia|].
    cbn [steps]. rewrite Hstop.
    destruct (Z.to_nat (MODEL_RETRY C + 1)) as [|n] eqn:Hn; [lia|].
    by rewrite (attempt_unreadable trim extract C n 0 [] e) by apply Hbreak. }
  split; apply Hgen.
Qed.

Lemma run_raise_ends_run_witness :
  GuiMainLoop.run_single_command (H:=ascii_builtins) null_clicks
  = Run (Raised TypeError) [] [] 1.
Proof.
  destruct (run_raise_ends_run (H:=ascii_builtins)) as [Hmain _].
  apply (Hmain null_clicks TypeError); [simpl; lia | reflexivity |].
  intros h. right. exists "CLICK". by repeat split.
Defined.

(** ** The history window *)

(** X11: the window slides.  For a window of at least one entry, trimming
    after an append keeps the appended entry as the last one, and gives the
    same as trimming, appending and trimming again; in both files. *)
Theorem trim_history_slides {A} (h : list A) (e : A) (k : Z) :
  (1 <= k)%Z ->
  last (GuiMain.trim_history (h ++ [e]) k) = Some e
  /\ GuiMain.trim_history (h ++ [e]) k
     = GuiMain.trim_history (GuiMain.trim_history h k ++ [e]) k
  /\ MissionControl.trim_history (h ++ [e]) k
     = MissionControl.trim_history (MissionControl.trim_history h k ++ [e]) k.
Proof.
  intros Hk.
  assert (GuiMain.trim_history (h ++ [e]) k
          = drop (S (length h) - Z.to_nat k) h ++ [e]) as Hsnoc.
  { rewrite trim_history_drop by done. rewrite length_app. simpl.
    replace (length h + 1 - Z.to_nat k) with (S (length h) - Z.to_nat k) by lia.
    rewrite drop_app_le by lia. done. }
  assert (GuiMain.trim_history (h ++ [e]) k
          = GuiMain.trim_history (GuiMain.trim_history h k ++ [e]) k) as Hslide.
  { rewrite Hsnoc. rewrite (trim_history_drop (_ ++ [e])) by done.
    rewrite (trim_history_drop h) by done.
    rewrite length_app, length_drop. simpl.
    rewrite drop_app_le by (rewrite length_drop; lia).
    rewrite drop_drop. f_equal. f_equal. lia. }
  split; [by rewrite Hsnoc, last_snoc|]. split; [done|].
  by rewrite !trim_history_same.
Qed.

Lemma trim_history_slides_witness :
  last (GuiMain.trim_history ([1; 2; 3] ++ [4]) 2) = Some 4
  /\ GuiMain.trim_history ([1; 2; 3] ++ [4]) 2
     = GuiMain.trim_history (GuiMain.trim_history [1; 2; 3] 2 ++ [4]) 2
  /\ MissionControl.trim_history ([1; 2; 3] ++ [4]) 2
     = MissionControl.trim_history (MissionControl.trim_history [1; 2; 3] 2 ++ [4]) 2.
Proof. apply (trim_history_slides [1; 2; 3] 4 2). lia. Defined.

(** ** The preview marker *)

Module PreviewFacts.
Import Preview.

(** The clamp of [draw_preview]: a float of the unit interval whatever the
    argument is; NaN and everything from 1 up give 1, everything up to 0
    gives 0. *)
Lemma clamp_in_unit (x : pyfloat) :
  exists c, py_max (Finite (Q2Qc 0)) (py_min (Finite (Q2Qc 1)) x) = Finite c
    /\ (Q2Qc 0 <= c)%Qc /\ (c <= Q2Qc 1)%Qc.
Proof.
  unfold py_max, py_min.
  destruct x as [q| | |]; simpl.
  - destruct (VMView.Qc_ltb q (Q2Qc 1)) eqn:H1; simpl.
    + destruct (VMView.Qc_ltb (Q2Qc 0) q) eqn:H0.
      * exists q. split; [done|]. apply TranslatorFacts.Qc_ltb_lt in H0, H1.
        split; by apply Qclt_le_weak.
      * exists (Q2Qc 0). by repeat split.
    + exists (Q2Qc 1). by repeat split.
  - exists (Q2Qc 1). by repeat split.
  - exists (Q2Qc 1). by repeat split.
  - exists (Q2Qc 0). by repeat split.
Qed.

Lemma clamp_id (q : Qc) :
  (Q2Qc 0 <= q)%Qc -> (q <= Q2Qc 1)%Qc ->
  py_max (Finite (Q2Qc 0)) (py_min (Finite (Q2Qc 1)) (Finite q)) = Finite q.
Proof.
  intros H0 H1. unfold py_max, py_min. simpl.
  destruct (VMView.Qc_ltb q (Q2Qc 1)) eqn:E1; simpl.
  - destruct (VMView.Qc_ltb (Q2Qc 0) q) eqn:E0; [done|].
    f_equal. apply Qcle_antisym; [done|].
    apply Qcle_ngt. intros Hlt. apply TranslatorFacts.Qc_ltb_lt in Hlt. congruence.
  - f_equal. apply Qcle_antisym; [|done].
    apply Qcle_ngt. intros Hlt. apply TranslatorFacts.Qc_ltb_lt in Hlt. congruence.
Qed.

(** The pixel of a clamped coordinate [c] on a side of [side] pixels: the
    rounded product, rounded down.  It lies on the side, and it is the
    exact product rounded down or one more. *)
Lemma scaled_pixel (c : Qc) (side : Z) :
  (Q2Qc 0 <= c)%Qc -> (c <= Q2Qc 1)%Qc -> (1 <= side <= 2 ^ 53)%Z ->
  (f <-! float_times_int (Finite c) (Z.max 0 (side - 1)); Vision.py_int f)
  = Ok (Qfloor (round_fin (this c * inject_Z (side - 1))))
  /\ (0 <= Qfloor (round_fin (this c * inject_Z (side - 1))) <= side - 1)%Z
  /\ (Qfloor (this c * inject_Z (side - 1))
      <= Qfloor (round_fin (this c * inject_Z (side - 1)))
      <= Qfloor (this c * inject_Z (side - 1)) + 1)%Z.
Proof.
  intros H0 H1 Hside. rewrite Z.max_r by lia. set (n := (side - 1)%Z) in *.
  assert (Hn : (0 <= n < 2 ^ 53)%Z) by lia.
  unfold Qcle in H0, H1. simpl in H0, H1.
  set (q := (this c * inject_Z n)%Q).
  assert (Hn' : (0 <= inject_Z n)%Q).
  { change 0%Q with (inject_Z 0). rewrite <- Zle_Qle. lia. }
  assert (Hq0 : (0 <= q)%Q) by (by apply Qmult_le_0_compat).
  assert (Hqn : (q <= inject_Z n)%Q).
  { unfold q. rewrite <- (Qmult_1_l (inject_Z n)) at 2. by apply Qmult_le_compat_r. }
  assert (Hr0 : (0 <= round_fin q)%Q) by (by apply RoundFacts.round_fin_nonneg).
  assert (Hrn : (round_fin q <= inject_Z n)%Q).
  { destruct (Z.eq_dec n 0%Z) as [Hz|Hnz].
    - rewrite RoundFacts.round_fin_zero; [done|]. unfold q. rewrite Hz.
      change (inject_Z 0) with 0%Q. ring.
    - apply RoundFacts.round_fin_le_repr; [done|done|].
      apply RoundFacts.representable_int. lia. }
  assert (Hfl : (0 <= Qfloor q <= n)%Z).
  { split.
    - change 0%Z with (Qfloor 0). by apply Qfloor_resp_le.
    - rewrite <- (Qfloor_Z n). by apply Qfloor_resp_le. }
  assert (Hlo : (inject_Z (Qfloor q) <= round_fin q)%Q).
  { destruct (Z.eq_dec (Qfloor q) 0%Z) as [->|Hnz]; [done|].
    apply RoundFacts.round_fin_ge_repr.
    - apply RoundFacts.inject_Z_pos. lia.
    - apply Qfloor_le.
    - apply RoundFacts.representable_int. lia. }
  assert (Hhi : (round_fin q <= inject_Z (Qfloor q + 1))%Q).
  { destruct (Z.lt_ge_cases (Qfloor q + 1) (2 ^ 53)) as [Hsmall|Hbig].
    - apply RoundFacts.round_fin_le_repr; [done| |].
      + apply Qlt_le_weak, Qlt_floor.
      + apply RoundFacts.representable_int. lia.
    - eapply Qle_trans; [exact Hrn|]. rewrite <- Zle_Qle. lia. }
  split; [|split; [split|split]].
  - unfold float_times_int, float_of_int. rewrite Z.abs_eq by lia.
    destruct (Z.ltb_spec n float_int_limit) as [_|Hbig];
      [|unfold float_int_limit in Hbig; lia].
    unfold res_bind, fmul.
    assert (E : (this c * this (Q2Qc (round_fin (inject_Z n))) == q)%Q).
    { unfold q. simpl. rewrite Qred_correct.
      by rewrite (RoundFacts.round_fin_int n Hn). }
    pose proof (RoundFacts.round_fin_comp _ _ E) as Er.
    rewrite RoundFacts.round64_finite_small.
    + rewrite VisionFacts.py_int_floor.
      * f_equal. apply Qfloor_comp. simpl. by rewrite Qred_correct.
      * unfold Qcle. simpl. rewrite !Qred_correct. by rewrite Er.
    + by rewrite Er.
    + rewrite Er. eapply Qle_trans; [exact Hrn|]. rewrite <- Zle_Qle. lia.
  - change 0%Z with (Qfloor 0). by apply Qfloor_resp_le.
  - rewrite <- (Qfloor_Z n). by apply Qfloor_resp_le.
  - rewrite <- (Qfloor_Z (Qfloor q)). by apply Qfloor_resp_le.
  - rewrite <- (Qfloor_Z (Qfloor q + 1)). by apply Qfloor_resp_le.
Qed.

Lemma marker_pixel_inside (x : pyfloat) (side : Z) :
  (1 <= side <= 2 ^ 53)%Z ->
  exists px, marker_pixel x side = Ok px /\ (0 <= px <= side - 1)%Z.
Proof.
  intros Hside. unfold marker_pixel.
  destruct (clamp_in_unit x) as (c & -> & H0 & H1).
  destruct (scaled_pixel c side H0 H1 Hside) as (Hpx & Hb & _).
  eexists. split; [exact Hpx|exact Hb].
Qed.

Lemma marker_pixel_unit (q : Qc) (side : Z) :
  in_unit (Finite q) -> (1 <= side <= 2 ^ 53)%Z ->
  marker_pixel (Finite q) side
  = Ok (Qfloor (round_fin (this q * inject_Z (side - 1)))).
Proof.
  intros [H0 H1] Hside. unfold marker_pixel. rewrite clamp_id by done.
  by destruct (scaled_pixel q side H0 H1 Hside) as (Hpx & _).
Qed.

End PreviewFacts.

(** X12: [draw_preview] puts the marker inside the image whatever the
    coordinates are.  For every pair of floats, NaN and the infinities
    included, and every image with sides from 1 to [2^53] pixels, the
    function reaches [d.ellipse] without raising, and the box it draws is
    centred on a pixel of the image; what follows is what the drawing and
    the saving do. *)
Theorem draw_preview_marker_inside
    (ellipse : Z * Z * Z * Z -> res unit) (save : res unit)
    (w h : Z) (x y : pyfloat) (r : Z) :
  (1 <= w <= 2 ^ 53)%Z -> (1 <= h <= 2 ^ 53)%Z ->
  exists px py,
    (0 <= px <= w - 1)%Z /\ (0 <= py <= h - 1)%Z
    /\ Preview.draw_preview ellipse save (w, h) x y r
       = (_ <-! ellipse (px - r, py - r, px + r, py + r)%Z; save).
Proof.
  intros Hw Hh. unfold Preview.draw_preview.
  destruct (PreviewFacts.marker_pixel_inside x w Hw) as (px & -> & Hpx).
  destruct (PreviewFacts.marker_pixel_inside y h Hh) as (py & -> & Hpy).
  exists px, py. split; [done|]. split; [done|]. reflexivity.
Qed.

Lemma draw_preview_marker_inside_witness :
  exists px py,
    (0 <= px <= 640 - 1)%Z /\ (0 <= py <= 360 - 1)%Z
    /\ Preview.draw_preview recorded_ellipse (Ok tt) (640, 360)%Z
         NaN (Finite (Q2Qc (1#2))) 10
       = (_ <-! recorded_ellipse (px - 10, py - 10, px + 10, py + 10)%Z; Ok tt).
Proof.
  apply (draw_preview_marker_inside recorded_ellipse (Ok tt) 640 360
           NaN (Finite (Q2Qc (1#2))) 10); lia.
Defined.

(** The marker pixels of that call: a NaN abscissa is drawn in the last
    column. *)
Example draw_preview_nan :
  Preview.marker_pixel NaN 640 = Ok 639%Z
  /\ Preview.marker_pixel (Finite (Q2Qc (1#2))) 360 = Ok 179%Z.
Proof. vm_compute. by split. Qed.

(** X13: the marker pixel of a coordinate of the unit interval on a side of
    1 to [2^53] pixels.  It is the coordinate times the last pixel index,
    rounded down, or one more where that product rounds up to the next
    integer; 0 gives the first pixel and 1 the last; and a larger
    coordinate never gives a smaller pixel. *)
Theorem draw_preview_pixel_of_point (side : Z) (q : Qc) :
  (1 <= side <= 2 ^ 53)%Z -> in_unit (Finite q) ->
  exists px,
    Preview.marker_pixel (Finite q) side = Ok px
    /\ (Qfloor (this q * inject_Z (side - 1)) <= px
        <= Qfloor (this q * inject_Z (side - 1)) + 1)%Z
    /\ (0 <= px <= side - 1)%Z
    /\ Preview.marker_pixel (Finite (Q2Qc 0)) side = Ok 0%Z
    /\ Preview.marker_pixel (Finite (Q2Qc 1)) side = Ok (side - 1)%Z
    /\ (forall q' px',
          in_unit (Finite q') -> (q <= q')%Qc ->
          Preview.marker_pixel (Finite q') side = Ok px' -> (px <= px')%Z).
Proof.
  intros Hside Hq. pose proof Hq as [H0 H1].
  destruct (PreviewFacts.scaled_pixel q side H0 H1 Hside) as (_ & Hin & Hfl).
  exists (Qfloor (round_fin (this q * inject_Z (side - 1)))).
  assert (Hn : (0 <= inject_Z (side - 1))%Q).
  { change 0%Q with (inject_Z 0). rewrite <- Zle_Qle. lia. }
  split; [by apply PreviewFacts.marker_pixel_unit|].
  split; [done|]. split; [done|]. split; [|split].
  - rewrite PreviewFacts.marker_pixel_unit by done.
    rewrite RoundFacts.round_fin_zero; [done|].
    assert (E : (this (Q2Qc 0) == 0)%Q) by reflexivity. rewrite E. ring.
  - rewrite PreviewFacts.marker_pixel_unit by done. f_equal.
    rewrite <- (Qfloor_Z (side - 1)) at 2. apply Qfloor_comp.
    rewrite <- (RoundFacts.round_fin_int (side - 1)) at 2 by lia.
    apply RoundFacts.round_fin_comp.
    assert (E : (this (Q2Qc 1) == 1)%Q) by reflexivity. rewrite E. ring.
  - intros q' px' Hq' Hle. rewrite PreviewFacts.marker_pixel_unit by done.
    intros [= <-]. apply Qfloor_resp_le, RoundFacts.round_fin_mono.
    + apply Qmult_le_0_compat; [|done]. unfold Qcle in H0. simpl in H0. done.
    + apply Qmult_le_compat_r; [|done]. by unfold Qcle in Hle.
Qed.

Lemma draw_preview_pixel_of_point_witness :
  exists px,
    Preview.marker_pixel (Finite third_as_float) 4 = Ok px
    /\ (Qfloor (this third_as_float * inject_Z (4 - 1)) <= px
        <= Qfloor (this third_as_float * inject_Z (4 - 1)) + 1)%Z
    /\ (0 <= px <= 4 - 1)%Z
    /\ Preview.marker_pixel (Finite (Q2Qc 0)) 4 = Ok 0%Z
    /\ Preview.marker_pixel (Finite (Q2Qc 1)) 4 = Ok (4 - 1)%Z
    /\ (forall q' px',
          in_unit (Finite q') -> (third_as_float <= q')%Qc ->
          Preview.marker_pixel (Finite q') 4 = Ok px' -> (px <= px')%Z).
Proof.
  apply (draw_preview_pixel_of_point 4 third_as_float); [lia|].
  split; by vm_compute.
Defined.

(** The product does round up: the float nearest to 1/3, times 3, is the
    float 1.0, so on a side of four pixels the marker falls on pixel 1 and
    not on pixel 0. *)
Example marker_pixel_rounds_up :
  Preview.marker_pixel (Finite third_as_float) 4 = Ok 1%Z
  /\ Qfloor (this third_as_float * inject_Z (4 - 1)) = 0%Z.
Proof. vm_compute. by split. Qed.

(** ** The view: busy signal, keys, painting *)

Module InputFacts.
Import VMView VMInput.

(** A disabled view forwards nothing and keeps its pointer state, whatever
    the event, until the busy signal changes. *)
Lemma dispatch_disabled `{Toolkit} (v : view) (e : gui_event) :
  input_enabled v = false -> not_busy_signal e ->
  snd (dispatch v e) = []
  /\ input_enabled (fst (dispatch v e)) = false
  /\ _pressed_btn (fst (dispatch v e)) = _pressed_btn v
  /\ _last_move_ts (fst (dispatch v e)) = _last_move_ts v.
Proof.
  intros Hoff Hnb. destruct e as [p|delta|key mods txt|pm|w h|busy]; simpl.
  - destruct p as [x y b|x y now|]; simpl;
      unfold mousePressEvent, mouseMoveEvent, mouseReleaseEvent;
      rewrite Hoff; simpl; by repeat split.
  - unfold wheelEvent. rewrite Hoff. by repeat split.
  - unfold keyPressEvent. rewrite Hoff. by repeat split.
  - by repeat split.
  - unfold paintEvent. destruct (_pm v); by repeat split.
  - done.
Qed.

Lemma dispatch_all_disabled `{Toolkit} (es : list gui_event) (v : view) :
  input_enabled v = false -> Forall not_busy_signal es ->
  snd (dispatch_all v es) = []
  /\ input_enabled (fst (dispatch_all v es)) = false
  /\ _pressed_btn (fst (dispatch_all v es)) = _pressed_btn v
  /\ _last_move_ts (fst (dispatch_all v es)) = _last_move_ts v.
Proof.
  revert v. induction es as [|e es IH]; intros v Hoff Hes; [done|].
  apply Forall_cons in Hes as [He Hes]. simpl.
  destruct (dispatch_disabled v e Hoff He) as (Hc & Hoff' & Hb & Ht).
  destruct (dispatch v e) as [v1 c1]. simpl in *.
  destruct (IH v1 Hoff' Hes) as (Hc2 & Hoff2 & Hb2 & Ht2).
  destruct (dispatch_all v1 es) as [v2 c2]. simpl in *.
  subst c1 c2. repeat split; congruence.
Qed.

Lemma dispatch_all_app `{Toolkit} (es1 es2 : list gui_event) (v : view) :
  dispatch_all v (es1 ++ es2)
  = let '(v1, c1) := dispatch_all v es1 in
    let '(v2, c2) := dispatch_all v1 es2 in
    (v2, c1 ++ c2).
Proof.
  revert v. induction es1 as [|e es1 IH]; intros v; simpl.
  - by destruct (dispatch_all v es2).
  - destruct (dispatch v e) as [v1 c1]. rewrite IH.
    destruct (dispatch_all v1 es1) as [v2 c2].
    destruct (dispatch_all v2 es2) as [v3 c3]. by rewrite app_assoc.
Qed.

(** Before the first paint the view has no rectangle and no held button, and
    no event but a paint changes that. *)
Lemma dispatch_unpainted `{Toolkit} (v : view) (e : gui_event) :
  _draw_rect v = None -> _pressed_btn v = None -> not_paint e ->
  Forall from_keys (snd (dispatch v e))
  /\ _draw_rect (fst (dispatch v e)) = None
  /\ _pressed_btn (fst (dispatch v e)) = None.
Proof.
  intros Hr Hb Hnp.
  assert (forall x y, _pos_to_norm v x y = None) as Hmap.
  { intros x y. unfold _pos_to_norm. rewrite Hr. by destruct (_pm v). }
  destruct e as [p|delta|key mods txt|pm|w h|busy]; simpl; try done.
  - destruct p as [x y b|x y now|]; simpl;
      unfold mousePressEvent, mouseMoveEvent, mouseReleaseEvent;
      rewrite ?Hmap, ?Hb; destruct (input_enabled v); simpl; by repeat split.
  - split; [|done]. apply Forall_forall. intros c Hc.
    apply list_elem_of_fmap in Hc as (s & -> & _). done.
  - split; [|done]. apply Forall_forall. intros c Hc.
    apply list_elem_of_fmap in Hc as (s & -> & _). done.
Qed.

End InputFacts.

(** X14: while a command runs no human input reaches the sandbox.  After the
    busy signal, and until the next one, every pointer, wheel and key event
    is dropped: no call is made, and the held button and the debounce clock
    of the view stay as they were. *)
Theorem busy_view_forwards_nothing `{VMInput.Toolkit}
    (v : VMView.view) (es : list VMInput.gui_event) :
  Forall not_busy_signal es ->
  snd (VMInput.dispatch_all v (VMInput.Busy true :: es)) = []
  /\ VMView._pressed_btn (fst (VMInput.dispatch_all v (VMInput.Busy true :: es)))
     = VMView._pressed_btn v
  /\ VMView._last_move_ts (fst (VMInput.dispatch_all v (VMInput.Busy true :: es)))
     = VMView._last_move_ts v.
Proof.
  intros Hes. cbn [VMInput.dispatch_all VMInput.dispatch negb].
  destruct (InputFacts.dispatch_all_disabled es (VMInput.set_input_enabled v false))
    as (Hc & _ & Hb & Ht); [done|done|].
  destruct (VMInput.dispatch_all (VMInput.set_input_enabled v false) es) as [v2 c2].
  simpl in *. by subst c2.
Qed.

Lemma busy_view_forwards_nothing_witness :
  snd (VMInput.dispatch_all (H:=ascii_toolkit) view_100x50
         (VMInput.Busy true
            :: [VMInput.Pointer (VMView.Press 35 45 VMView.LeftButton);
                VMInput.Wheel 120;
                VMInput.KeyPress VMInput.Key_Return no_modifiers "a"])) = []
  /\ VMView._pressed_btn
       (fst (VMInput.dispatch_all (H:=ascii_toolkit) view_100x50
               (VMInput.Busy true
                  :: [VMInput.Pointer (VMView.Press 35 45 VMView.LeftButton);
                      VMInput.Wheel 120;
                      VMInput.KeyPress VMInput.Key_Return no_modifiers "a"])))
     = VMView._pressed_btn view_100x50
  /\ VMView._last_move_ts
       (fst (VMInput.dispatch_all (H:=ascii_toolkit) view_100x50
               (VMInput.Busy true
                  :: [VMInput.Pointer (VMView.Press 35 45 VMView.LeftButton);
                      VMInput.Wheel 120;
                      VMInput.KeyPress VMInput.Key_Return no_modifiers "a"])))
     = VMView._last_move_ts view_100x50.
Proof.
  apply (busy_view_forwards_nothing (H:=ascii_toolkit) view_100x50).
  repeat constructor.
Defined.

(** X15: a button released while a command runs stays held.  After a press
    at a mapped pixel, a busy signal, any events but a busy signal (a
    release among them) and the end of the run, the sandbox has received
    the move and the button-down and no button-up, and the view still
    records the button as pressed. *)
Theorem release_lost_while_busy `{VMInput.Toolkit}
    (v : VMView.view) (x y : Z) (button : VMView.MouseButton) (btn : Z)
    (nx ny : pyfloat) (during : list VMInput.gui_event) :
  VMView.input_enabled v = true ->
  VMView._pos_to_norm v x y = Some (nx, ny) ->
  VMView.button_number button = Some btn ->
  Forall not_busy_signal during ->
  snd (VMInput.dispatch_all v
         (VMInput.Pointer (VMView.Press x y button)
            :: VMInput.Busy true :: during ++ [VMInput.Busy false]))
  = [VMInput.PointerCall (VMView.mouse_move_norm nx ny);
     VMInput.PointerCall (VMView.mouse_down btn)]
  /\ VMView._pressed_btn
       (fst (VMInput.dispatch_all v
               (VMInput.Pointer (VMView.Press x y button)
                  :: VMInput.Busy true :: during ++ [VMInput.Busy false])))
     = Some btn
  /\ VMView.input_enabled
       (fst (VMInput.dispatch_all v
               (VMInput.Pointer (VMView.Press x y button)
                  :: VMInput.Busy true :: during ++ [VMInput.Busy false])))
     = true.
Proof.
  intros Hen Hp Hb Hdur.
  cbn [VMInput.dispatch_all VMInput.dispatch VMView.handle negb].
  unfold VMView.mousePressEvent. rewrite Hen, Hp, Hb. cbn [negb map].
  rewrite InputFacts.dispatch_all_app.
  set (v1 := VMInput.set_input_enabled (VMView.set_pressed v (Some btn)) false).
  destruct (InputFacts.dispatch_all_disabled during v1) as (Hc & _ & Hbtn & _);
    [done|done|].
  destruct (VMInput.dispatch_all v1 during) as [v2 c2]. simpl in *.
  subst c2. by repeat split.
Qed.

Lemma release_lost_while_busy_witness :
  snd (VMInput.dispatch_all (H:=ascii_toolkit) view_100x50
         (VMInput.Pointer (VMView.Press 35 45 VMView.LeftButton)
            :: VMInput.Busy true
            :: [VMInput.Pointer VMView.Release] ++ [VMInput.Busy false]))
  = [VMInput.PointerCall
       (VMView.mouse_move_norm (VMView.int_truediv 25 100) (VMView.int_truediv 25 50));
     VMInput.PointerCall (VMView.mouse_down 1)]
  /\ VMView._pressed_btn
       (fst (VMInput.dispatch_all (H:=ascii_toolkit) view_100x50
               (VMInput.Pointer (VMView.Press 35 45 VMView.LeftButton)
                  :: VMInput.Busy true
                  :: [VMInput.Pointer VMView.Release] ++ [VMInput.Busy false])))
     = Some 1%Z
  /\ VMView.input_enabled
       (fst (VMInput.dispatch_all (H:=ascii_toolkit) view_100x50
               (VMInput.Pointer (VMView.Press 35 45 VMView.LeftButton)
                  :: VMInput.Busy true
                  :: [VMInput.Pointer VMView.Release] ++ [VMInput.Busy false])))
     = true.
Proof.
  apply (release_lost_while_busy (H:=ascii_toolkit) view_100x50 35 45
           VMView.LeftButton 1 (VMView.int_truediv 25 100) (VMView.int_truediv 25 50)
           [VMInput.Pointer VMView.Release]);
    try reflexivity.
  repeat constructor.
Defined.

(** After such a release the next move is forwarded as a drag. *)
Example release_while_busy_calls :
  snd (VMInput.dispatch_all (H:=ascii_toolkit) view_100x50 release_while_busy)
  = [VMInput.PointerCall
       (VMView.mouse_move_norm (VMView.int_truediv 25 100) (VMView.int_truediv 25 50));
     VMInput.PointerCall (VMView.mouse_down 1);
     VMInput.PointerCall
       (VMView.drag_to_norm (VMView.int_truediv 50 100) (VMView.int_truediv 25 50) 1)].
Proof. reflexivity. Qed.

(** X16: until the first paint no pointer event reaches the sandbox.  From
    the view as it is created, whatever frames, busy signals and events
    arrive, every call made before a paint comes from the wheel or the
    keyboard. *)
Theorem no_pointer_call_before_paint `{VMInput.Toolkit} (es : list VMInput.gui_event) :
  Forall not_paint es ->
  Forall from_keys (snd (VMInput.dispatch_all VMInput.init_view es)).
Proof.
  assert (forall (es : list VMInput.gui_event) (v : VMView.view),
            VMView._draw_rect v = None -> VMView._pressed_btn v = None ->
            Forall not_paint es ->
            Forall from_keys (snd (VMInput.dispatch_all v es))) as Hgen.
  { clear es. induction es as [|e es IH]; intros v Hr Hb Hes; [constructor|].
    apply Forall_cons in Hes as [He Hes]. simpl.
    destruct (InputFacts.dispatch_unpainted v e Hr Hb He) as (Hc & Hr' & Hb').
    destruct (VMInput.dispatch v e) as [v1 c1]. simpl in *.
    specialize (IH v1 Hr' Hb' Hes).
    destruct (VMInput.dispatch_all v1 es) as [v2 c2]. simpl in *.
    by apply Forall_app. }
  intros Hes. by apply Hgen.
Qed.

Lemma no_pointer_call_before_paint_witness :
  Forall from_keys
    (snd (VMInput.dispatch_all (H:=ascii_toolkit) VMInput.init_view
            [VMInput.Frame (VMView.Pixmap 200 100);
             VMInput.Pointer (VMView.Press 35 45 VMView.LeftButton);
             VMInput.Wheel 120;
             VMInput.Pointer VMView.Release])).
Proof.
  apply (no_pointer_call_before_paint (H:=ascii_toolkit)). repeat constructor.
Defined.

(** X17: a paint centres the frame and the mapping follows it.  When the
    scaled frame fits the widget, the rectangle that [paintEvent] records
    lies inside the widget with margins that differ by at most one pixel on
    each axis, and afterwards [_pos_to_norm] maps exactly the pixels of
    that rectangle; the padding around it maps to nothing. *)
Theorem paint_centres_the_frame `{VMInput.Toolkit}
    (v : VMView.view) (pm : VMView.QPixmap) (width height : Z) :
  VMView._pm v = Some pm ->
  (0 < VMInput.pixmap_width (VMInput.scaled_keep_aspect pm (width, height)) <= width)%Z ->
  (0 < VMInput.pixmap_height (VMInput.scaled_keep_aspect pm (width, height)) <= height)%Z ->
  exists x y sw sh,
    VMView._draw_rect (VMInput.paintEvent v width height) = Some (x, y, sw, sh)
    /\ sw = VMInput.pixmap_width (VMInput.scaled_keep_aspect pm (width, height))
    /\ sh = VMInput.pixmap_height (VMInput.scaled_keep_aspect pm (width, height))
    /\ (0 <= x)%Z /\ (x + sw <= width)%Z /\ (0 <= y)%Z /\ (y + sh <= height)%Z
    /\ (0 <= (width - (x + sw)) - x <= 1)%Z
    /\ (0 <= (height - (y + sh)) - y <= 1)%Z
    /\ forall px py,
         is_Some (VMView._pos_to_norm (VMInput.paintEvent v width height) px py)
         <-> (x <= px < x + sw)%Z /\ (y <= py < y + sh)%Z.
Proof.
  intros Hpm Hw Hh. unfold VMInput.paintEvent. rewrite Hpm.
  set (sw := VMInput.pixmap_width (VMInput.scaled_keep_aspect pm (width, height))) in *.
  set (sh := VMInput.pixmap_height (VMInput.scaled_keep_aspect pm (width, height))) in *.
  exists ((width - sw) / 2)%Z, ((height - sh) / 2)%Z, sw, sh.
  split; [done|]. split; [done|]. split; [done|].
  assert (0 <= (width - sw) / 2 /\ 2 * ((width - sw) / 2) <= width - sw
          /\ width - sw <= 2 * ((width - sw) / 2) + 1)%Z as (Hx0 & Hx1 & Hx2).
  { pose proof (Z.div_mod (width - sw) 2). pose proof (Z.mod_pos_bound (width - sw) 2).
    assert (0 <= (width - sw) / 2)%Z by (apply Z.div_pos; lia). lia. }
  assert (0 <= (height - sh) / 2 /\ 2 * ((height - sh) / 2) <= height - sh
          /\ height - sh <= 2 * ((height - sh) / 2) + 1)%Z as (Hy0 & Hy1 & Hy2).
  { pose proof (Z.div_mod (height - sh) 2). pose proof (Z.mod_pos_bound (height - sh) 2).
    assert (0 <= (height - sh) / 2)%Z by (apply Z.div_pos; lia). lia. }
  split; [done|]. split; [lia|]. split; [done|]. split; [lia|].
  split; [lia|]. split; [lia|].
  intros px py. unfold VMView._pos_to_norm. cbn [VMView._pm VMView._draw_rect].
  rewrite ?Hpm.
  destruct (Z.leb_spec sw 0), (Z.leb_spec sh 0); try lia. cbn [orb].
  destruct (Z.ltb_spec px ((width - sw) / 2)), (Z.ltb_spec py ((height - sh) / 2)),
    (Z.geb_spec px ((width - sw) / 2 + sw)), (Z.geb_spec py ((height - sh) / 2 + sh));
    cbn [orb]; split; intros Hin; try lia; try (by eexists);
    by (destruct Hin as [? Hin]; inversion Hin).
Qed.

Lemma paint_centres_the_frame_witness :
  exists x y sw sh,
    VMView._draw_rect
      (VMInput.paintEvent (H:=ascii_toolkit)
         (VMInput.set_frame VMInput.init_view (VMView.Pixmap 200 100)) 121 90)
    = Some (x, y, sw, sh)
    /\ sw = VMInput.pixmap_width (fit_keep_aspect (VMView.Pixmap 200 100) (121, 90)%Z)
    /\ sh = VMInput.pixmap_height (fit_keep_aspect (VMView.Pixmap 200 100) (121, 90)%Z)
    /\ (0 <= x)%Z /\ (x + sw <= 121)%Z /\ (0 <= y)%Z /\ (y + sh <= 90)%Z
    /\ (0 <= (121 - (x + sw)) - x <= 1)%Z
    /\ (0 <= (90 - (y + sh)) - y <= 1)%Z
    /\ forall px py,
         is_Some (VMView._pos_to_norm
                    (VMInput.paintEvent (H:=ascii_toolkit)
                       (VMInput.set_frame VMInput.init_view (VMView.Pixmap 200 100))
                       121 90) px py)
         <-> (x <= px < x + sw)%Z /\ (y <= py < y + sh)%Z.
Proof.
  apply (paint_centres_the_frame (H:=ascii_toolkit)
           (VMInput.set_frame VMInput.init_view (VMView.Pixmap 200 100))
           (VMView.Pixmap 200 100) 121 90);
    [reflexivity | by vm_compute | by vm_compute].
Defined.

(** The rectangle of that witness: a frame of 200 x 100 in a widget of
    121 x 90 is drawn 121 x 60 at (0, 15). *)
Example paint_200x100_in_121x90 :
  VMView._draw_rect
    (VMInput.paintEvent (H:=ascii_toolkit)
       (VMInput.set_frame VMInput.init_view (VMView.Pixmap 200 100)) 121 90)
  = Some (0, 15, 121, 60)%Z.
Proof. reflexivity. Qed.

(** X18: what a key event becomes.  The handler makes at most one call on
    the sandbox and none for F11 or on a disabled view; a key is sent by
    its name only when its text is not one printable character, so the
    space bar with its text is typed and not pressed; and text is typed
    only without the control modifier. *)
Theorem key_press_precedence `{VMInput.Toolkit}
    (v : VMView.view) (key : VMInput.Key) (mods : VMInput.KeyboardModifiers)
    (txt : string) :
  length (fst (VMInput.keyPressEvent v key mods txt)) <= 1
  /\ (VMView.input_enabled v = false \/ key = VMInput.Key_F11 ->
      fst (VMInput.keyPressEvent v key mods txt) = [])
  /\ (forall name,
        VMInput.press_key name ∈ fst (VMInput.keyPressEvent v key mods txt) ->
        VMInput.special key = Some name /\ typeable txt = false)
  /\ (forall s,
        VMInput.type_text s ∈ fst (VMInput.keyPressEvent v key mods txt) ->
        s = txt /\ typeable txt = true /\ VMInput.ControlModifier mods = false)
  /\ (snd (VMInput.keyPressEvent v key mods txt) = true ->
      key = VMInput.Key_F11 /\ VMView.input_enabled v = true).
Proof.
  unfold VMInput.keyPressEvent, typeable.
  destruct (VMView.input_enabled v) eqn:Hen, key;
    cbn [negb VMInput.is_F11];
    destruct (VMInput.ControlModifier mods), (String.eqb txt ""),
      (VMInput.str_isprintable txt), (Nat.eqb (VMInput.str_len txt) 1),
      (VMInput.AltModifier mods);
    cbn [negb andb VMInput.is_Tab VMInput.special fst snd length].
  all: split; [lia|].
  all: split; [try done; intros [?|?]; congruence|].
  all: split; [intros ? Hin; first
                 [ by apply elem_of_nil in Hin
                 | apply list_elem_of_singleton in Hin; by inversion Hin ]|].
  all: split; [intros ? Hin; first
                 [ by apply elem_of_nil in Hin
                 | apply list_elem_of_singleton in Hin; by inversion Hin ]|].
  all: by intros ?.
Qed.

(** The space bar with its text, and the return key with an unprintable
    one. *)
Example key_press_space_and_return :
  VMInput.keyPressEvent (H:=ascii_toolkit) view_100x50 VMInput.Key_Space no_modifiers " "
    = ([VMInput.type_text " "], false)
  /\ VMInput.keyPressEvent (H:=ascii_toolkit) view_100x50 VMInput.Key_Return no_modifiers
       (String (ascii_of_nat 13) "")
     = ([VMInput.press_key "enter"], false).
Proof. split; reflexivity. Qed.

(** ** The signals and counters of gui_mission_control.py *)

Module SignalFacts.

Lemma counters_after_snoc (emitted : list MissionControlSignals.signal)
    (out : pydict) (step : Z) (action : string) (detail : pyval) :
  MissionControlSignals.counters_after
    (emitted ++ [MissionControlSignals.action_update out;
                 MissionControlSignals.step_update step action detail])
  = MissionControlSignals._on_step
      (MissionControlSignals.counters_after emitted) step action.
Proof. unfold MissionControlSignals.counters_after. by rewrite foldl_app. Qed.

Lemma pointer_not_type (action : string) :
  is_pointer_kind action = true -> String.eqb action "TYPE" = false.
Proof.
  unfold is_pointer_kind. intros Hk.
  destruct (String.eqb_spec action "TYPE") as [->|]; [|done].
  by vm_compute in Hk.
Qed.

(** The action of an accepted response reads as a string under either
    default, so the second reading of the action never raises. *)
Lemma accepted_action_reads `{Builtins}
    (trim : list pydict -> Z -> list pydict) (extract : pydict -> res point)
    (C : collaborators)
    (attempts q : nat) (history : list pydict)
    (out : pydict) (history' : list pydict) (q' : nat) :
  attempt_loop trim extract C attempts q history = (Accepted out, history', q') ->
  exists k, action_of "" out = Ok k.
Proof.
  revert q history. induction attempts as [|n IH]; intros q history; [done|].
  simpl. set (o := ask_next_action C q (trim history 6%Z)).
  destruct (action_of "NOOP" o) as [k|err] eqn:Hk; [|done].
  destruct (String.eqb k "BITTI"); [done|].
  destruct (is_pointer_kind k).
  - destruct (extract o) as [[x y]|err]; [|done].
    destruct (fst (validate_xy C x y)).
    + intros [= <- <- <-]. rewrite action_of_store_xy. by eapply action_of_default.
    + apply IH.
  - intros [= <- <- <-]. by eapply action_of_default.
Qed.

(** The loop with signals runs as the loop without them, and the counters
    follow the steps. *)
Lemma steps_counters `{Builtins} (C : collaborators) (fuel : nat) (step : Z) (q : nat)
    (history acts : list pydict) (emitted : list MissionControlSignals.signal) :
  let m0 := MissionControlSignals.counters_after emitted in
  step = (Z.of_nat (length acts) + 1)%Z ->
  MissionControlSignals._step_count m0 = Z.of_nat (length acts) ->
  (0 <= MissionControlSignals._click_count m0)%Z ->
  (0 <= MissionControlSignals._type_count m0)%Z ->
  (MissionControlSignals._click_count m0 + MissionControlSignals._type_count m0
   <= MissionControlSignals._step_count m0)%Z ->
  let r := MissionControlSignals.steps C fuel step q history acts emitted in
  let m := MissionControlSignals.counters_after (snd r) in
  fst r = steps (@MissionControl.trim_history pydict) MissionControl._extract_xy C
            fuel step q history acts
  /\ MissionControlSignals._step_count m
     = (Z.of_nat (length (executed (fst r))) + guard_stopped (ended (fst r)))%Z
  /\ (0 <= MissionControlSignals._click_count m)%Z
  /\ (0 <= MissionControlSignals._type_count m)%Z
  /\ (MissionControlSignals._click_count m + MissionControlSignals._type_count m
      <= MissionControlSignals._step_count m)%Z.
Proof.
  revert step q history acts emitted.
  induction fuel as [|fuel IH]; intros step q history acts emitted m0 Hstep Hs Hc Ht Hsum.
  { subst m0. cbn -[MissionControlSignals.counters_after Z.of_nat Z.add].
    repeat split; try done. lia. }
  cbn [MissionControlSignals.steps steps].
  destruct (stop_is_set C step).
  { subst m0. cbn -[MissionControlSignals.counters_after Z.of_nat Z.add].
    repeat split; try done. lia. }
  destruct (attempt_loop (@MissionControl.trim_history pydict) MissionControl._extract_xy C
              (Z.to_nat (MODEL_RETRY C + 1)) q history) as [[d history1] q1] eqn:Hd.
  destruct d as [out| | |e];
    try (subst m0; cbn -[MissionControlSignals.counters_after Z.of_nat Z.add];
         repeat split; try done; lia).
  destruct (accepted_action_reads _ _ _ _ _ _ _ _ _ Hd) as [action Ha]. rewrite Ha.
  set (emitted1 := emitted ++ [MissionControlSignals.action_update out;
                               MissionControlSignals.step_update step action
                                 (MissionControlSignals.detail_of out)]).
  assert (MissionControlSignals._step_count (MissionControlSignals.counters_after emitted1)
          = step
          /\ (0 <= MissionControlSignals._click_count (MissionControlSignals.counters_after emitted1))%Z
          /\ (0 <= MissionControlSignals._type_count (MissionControlSignals.counters_after emitted1))%Z
          /\ (MissionControlSignals._click_count (MissionControlSignals.counters_after emitted1)
               + MissionControlSignals._type_count (MissionControlSignals.counters_after emitted1)
               <= step)%Z) as (Hs1 & Hc1 & Ht1 & Hsum1).
  { unfold emitted1. rewrite counters_after_snoc.
    unfold MissionControlSignals._on_step.
    cbn [MissionControlSignals._step_count MissionControlSignals._click_count
         MissionControlSignals._type_count].
    subst m0. destruct (is_pointer_kind action) eqn:Hp.
    - rewrite (pointer_not_type _ Hp). repeat split; lia.
    - destruct (String.eqb action "TYPE"); repeat split; lia. }
  clearbody emitted1.
  destruct (fst (should_stop_on_repeat C history1 out)).
  { cbn -[MissionControlSignals.counters_after Z.of_nat Z.add].
    rewrite Hs1. repeat split; try done; lia. }
  destruct (step + 1 >? MAX_STEPS C)%Z.
  { cbn -[MissionControlSignals.counters_after Z.of_nat Z.add].
    rewrite Hs1, length_app. simpl length. repeat split; try done; lia. }
  apply IH; rewrite ?Hs1, ?length_app; simpl length; try done; lia.
Qed.

End SignalFacts.

(** X19: the counters of the mission-control window after a run.  The loop
    with its signals runs exactly as the loop without them; the step
    counter ends at the number of executed actions, plus one when the
    repeat guard ended the run, since the step is signalled before the
    guard is asked; and clicks and typed texts together never exceed the
    steps. *)
Theorem counters_follow_the_run `{Builtins} (C : collaborators) :
  fst (MissionControlSignals.run_single_command C)
  = MissionControlLoop.run_single_command C
  /\ MissionControlSignals._step_count
       (MissionControlSignals.counters_after
          (snd (MissionControlSignals.run_single_command C)))
     = (Z.of_nat (length (executed (MissionControlLoop.run_single_command C)))
        + guard_stopped (ended (MissionControlLoop.run_single_command C)))%Z
  /\ (0 <= MissionControlSignals._click_count
             (MissionControlSignals.counters_after
                (snd (MissionControlSignals.run_single_command C))))%Z
  /\ (0 <= MissionControlSignals._type_count
             (MissionControlSignals.counters_after
                (snd (MissionControlSignals.run_single_command C))))%Z
  /\ (MissionControlSignals._click_count
        (MissionControlSignals.counters_after
           (snd (MissionControlSignals.run_single_command C)))
      + MissionControlSignals._type_count
          (MissionControlSignals.counters_after
             (snd (MissionControlSignals.run_single_command C)))
      <= MissionControlSignals._step_count
           (MissionControlSignals.counters_after
              (snd (MissionControlSignals.run_single_command C))))%Z.
Proof.
  unfold MissionControlSignals.run_single_command, MissionControlLoop.run_single_command,
    run_loop.
  destruct (SignalFacts.steps_counters C (run_fuel C) 1 0 [] [] [])
    as (Hrun & Hs & Hc & Ht & Hsum); try done.
  rewrite <- Hrun. by repeat split.
Qed.

(** A run that the repeat guard ends on the third click: two actions are
    executed, and the counters show three steps and three clicks. *)
Example counters_guarded_clicks :
  ended (MissionControlLoop.run_single_command (H:=ascii_builtins) guarded_clicks)
    = Returned "DONE(repeat-guard)"
  /\ length (executed (MissionControlLoop.run_single_command (H:=ascii_builtins) guarded_clicks)) = 2
  /\ MissionControlSignals.counters_after
       (snd (MissionControlSignals.run_single_command (H:=ascii_builtins) guarded_clicks))
     = MissionControlSignals.Counters 3 3 0.
Proof. vm_compute. by repeat split. Qed.

(** ** Starting and stopping a run from the window *)

Module WindowFacts.
Import Window.

Lemma inv_init (g : gui) : window_inv (init g).
Proof.
  destruct g; split; simpl; try done; try set_solver; try constructor;
    intros *; by rewrite ?elem_of_nil.
Qed.

Lemma not_running_empty (w : state) :
  window_inv w -> worker_running w = false -> alive w = ∅.
Proof.
  intros Hinv Hrun. apply set_eq. intros t. split; [|set_solver].
  intros Ht. pose proof (inv_alive w Hinv t Ht) as Hw.
  unfold worker_running in Hrun. rewrite Hw in Hrun.
  by rewrite bool_decide_eq_false in Hrun.
Qed.

Lemma inv_start_worker (w : state) (objective : string) :
  window_inv w -> worker_running w = false -> window_inv (start_worker w objective).
Proof.
  intros Hinv Hrun. pose proof (not_running_empty w Hinv Hrun) as Hempty.
  destruct Hinv as [Ha Hl Hs Hset Hnd Hh].
  split; simpl.
  - intros t. rewrite Hempty, elem_of_union, elem_of_singleton.
    intros [->|Hin]; [done|]. by apply elem_of_empty in Hin.
  - done.
  - intros t ev o [[= -> -> ->]|Hin]%elem_of_cons; [lia|].
    destruct (Hs _ _ _ Hin). lia.
  - intros ev Hin. specialize (Hset _ Hin). lia.
  - constructor; [|done]. intros Hin.
    apply list_elem_of_fmap in Hin as ([[t ev] o] & Heq & Hin).
    unfold run_event in Heq. simpl in Heq. subst ev.
    destruct (Hs _ _ _ Hin). lia.
  - intros t oev Hin. destruct (Hh _ _ Hin) as (ev & o & -> & Hin').
    exists ev, o. split; [done|]. by right.
Qed.

Lemma inv_step `{Text} (g : gui) (w : state) (e : event) :
  window_inv w -> window_inv (step g w e).
Proof.
  intros Hinv. unfold step. destruct (quit w); [done|].
  destruct e as [text| |t|t| |].
  - destruct g; simpl.
    + unfold agent_on_run.
      destruct (String.eqb _ ""); [done|].
      destruct (is_shutdown_word _); [by destruct Hinv|].
      destruct (worker_running w) eqn:Hrun; [done|].
      by apply inv_start_worker.
    + unfold mission_on_run.
      destruct (String.eqb _ ""); [done|].
      destruct (worker_running w) eqn:Hrun; [done|].
      destruct (negb (llm w)); [done|].
      destruct (negb (sandbox w)); [done|].
      by apply inv_start_worker.
  - unfold _on_stop. destruct (stop_event w) as [ev|] eqn:Hev; [|done].
    destruct Hinv as [Ha Hl Hs Hset Hnd Hh].
    split; simpl; [exact Ha|by rewrite Hev in Hl|exact Hs| |exact Hnd|exact Hh].
    intros ev' [->%elem_of_singleton|Hin]%elem_of_union; [|by apply Hset].
    destruct (started w) as [|[[t ev0] o] rest] eqn:Hst.
    + destruct Hl as [_ Hl]. congruence.
    + destruct Hl as [_ Hl]. rewrite Hev in Hl. injection Hl as ->.
      apply (Hs t ev0 o). by left.
  - unfold worker_begins. destruct (bool_decide_reflect (t ∈ alive w)) as [Ht|]; [|done].
    destruct Hinv as [Ha Hl Hs Hset Hnd Hh].
    split; simpl; [exact Ha|exact Hl|exact Hs|exact Hset|exact Hnd|].
    intros t' oev [[= -> ->]|Hin]%elem_of_cons; [|by apply Hh].
    pose proof (Ha _ Ht) as Hw.
    destruct (started w) as [|[[t0 ev0] o] rest] eqn:Hst.
    + destruct Hl as [Hl _]. congruence.
    + destruct Hl as [Hl Hev]. rewrite Hw in Hl. injection Hl as ->.
      exists ev0, o. split; [done|]. left.
  - destruct Hinv as [Ha Hl Hs Hset Hnd Hh].
    split; simpl; [|exact Hl|exact Hs|exact Hset|exact Hnd|exact Hh].
    intros t' [Hin _]%elem_of_difference. by apply Ha.
  - by destruct Hinv.
  - by destruct Hinv.
Qed.

Lemma inv_run_events `{Text} (g : gui) (es : list event) (w : state) :
  window_inv w -> window_inv (run_events g w es).
Proof.
  revert w. induction es as [|e es IH]; intros w Hinv; [done|].
  simpl. apply IH. by apply inv_step.
Qed.

Lemma started_grows `{Text} (g : gui) (w : state) (text : string) :
  started (step g w (OnRun text)) <> started w ->
  exists objective,
    step g w (OnRun text) = start_worker w objective /\ worker_running w = false.
Proof.
  unfold step. destruct (quit w); [done|]. destruct g; simpl.
  - unfold agent_on_run.
    destruct (String.eqb _ ""); [done|].
    destruct (is_shutdown_word _); [done|].
    destruct (worker_running w); [done|]. by eexists.
  - unfold mission_on_run.
    destruct (String.eqb _ ""); [done|].
    destruct (worker_running w); [done|].
    destruct (negb (llm w)); [done|].
    destruct (negb (sandbox w)); [done|]. by eexists.
Qed.

End WindowFacts.

(** X20: at most one worker.  Whatever run requests, stop requests and
    thread events reach either window, in any order, a thread that is alive
    is the thread the window holds, so no two workers are ever alive
    together. *)
Theorem one_worker_at_a_time `{Window.Text} (g : Window.gui) (es : list Window.event) :
  one_worker (Window.run_events g (Window.init g) es).
Proof.
  pose proof (WindowFacts.inv_run_events g es _ (WindowFacts.inv_init g)) as Hinv.
  set (w := Window.run_events g (Window.init g) es) in *.
  split; [apply (inv_alive w Hinv)|].
  destruct (Window.worker_thread w) as [t|] eqn:Hw.
  - transitivity (size ({[ t ]} : gset nat)); [|by rewrite size_singleton].
    apply subseteq_size. intros t' Ht'.
    pose proof (inv_alive w Hinv t' Ht') as Heq. rewrite Hw in Heq.
    injection Heq as ->. set_solver.
  - assert (Window.alive w = ∅) as ->; [|by rewrite size_empty; lia].
    apply set_eq. intros t. split; [|set_solver].
    intros Ht. pose proof (inv_alive w Hinv t Ht). congruence.
Qed.

(** X21: every worker is handed the stop event of its own run.  The worker
    reads [self.stop_event] only when its thread runs, yet what it reads is
    always the event created in the [_on_run] that started it; and no two
    runs share an event. *)
Theorem worker_reads_own_stop_event `{Window.Text} (g : Window.gui)
    (es : list Window.event) :
  own_stop_event (Window.run_events g (Window.init g) es).
Proof.
  pose proof (WindowFacts.inv_run_events g es _ (WindowFacts.inv_init g)) as Hinv.
  split; [apply (inv_handed _ Hinv) | apply (inv_nodup _ Hinv)].
Qed.

(** X22: a run starts with a clear stop event.  After whatever came before,
    stop requests included, a run request that starts a run leaves the
    window with an event that has not been set. *)
Theorem run_starts_with_clear_stop_event `{Window.Text} (g : Window.gui)
    (es : list Window.event) (text : string) :
  let w := Window.run_events g (Window.init g) es in
  Window.started (Window.step g w (Window.OnRun text)) <> Window.started w ->
  stop_event_clear (Window.step g w (Window.OnRun text)).
Proof.
  intros w Hgrows.
  pose proof (WindowFacts.inv_run_events g es _ (WindowFacts.inv_init g)) as Hinv.
  fold w in Hinv.
  destruct (WindowFacts.started_grows g w text Hgrows) as (objective & -> & _).
  exists (S (Window.fresh w)). split; [done|]. simpl.
  intros Hin. pose proof (inv_set w Hinv _ Hin). lia.
Qed.

Lemma run_starts_with_clear_stop_event_witness :
  stop_event_clear
    (Window.step (H:=plain_text) Window.MissionControlWindow
       (Window.run_events (H:=plain_text) Window.MissionControlWindow
          (Window.init Window.MissionControlWindow)
          [Window.SandboxReady; Window.ModelReady; Window.OnRun "open terminal";
           Window.OnStop; Window.ThreadEnds 0; Window.OnStop])
       (Window.OnRun "open browser")).
Proof.
  apply (run_starts_with_clear_stop_event (H:=plain_text) Window.MissionControlWindow
           [Window.SandboxReady; Window.ModelReady; Window.OnRun "open terminal";
            Window.OnStop; Window.ThreadEnds 0; Window.OnStop] "open browser").
  vm_compute. discriminate.
Defined.

(** Two runs with stops between them: the third request is refused while
    the second run is alive, each worker holds the event of its own run, and
    only the first run's event has been set. *)
Example two_runs_in_mission_control :
  let w := Window.run_events (H:=plain_text) Window.MissionControlWindow
             (Window.init Window.MissionControlWindow) two_runs in
  Window.started w = [(2, 3, "open browser"); (0, 1, "open terminal")]
  /\ Window.handed w = [(2, Some 3); (0, Some 1)]
  /\ Window.alive w = {[ 2 ]}
  /\ Window.set_events w = {[ 1 ]}.
Proof. vm_compute. by repeat split. Qed.
